(** * bot_uid_manager: a shallow embedding of the Telegram UID manager bot

    The development follows [bot_uid_manager.py]: the [uids] table of the
    SQLite file, the seven SQL statements the handlers issue, the two
    decorators ([with_db], [admin_only]), the link patterns, the CSV export
    and the handlers themselves, written as state-passing functions over a
    [World] that holds the database file and the log of what was sent.

    Text is a Rocq [string], one [ascii] per byte of the UTF-8 text.  The
    characters the source singles out are ASCII (the ranges of the link
    patterns, the separators of the CSV dialect, the wildcards of LIKE), but
    for white space: [strip] and [\s] know the white space of Unicode, which
    is listed here character by character in UTF-8.  No byte of a character
    of several bytes is ASCII, and no character begins inside another.

    A handler is a function from the world to a result (a value, or the
    exception raised) and the world after it; [await] is sequencing, one
    handler running to its end before the next update is taken.  A keyword
    argument list is modelled by its one possible entry, [conn], because the
    two decorated functions that call each other do so with [conn=conn]. *)

From Stdlib Require Import String Ascii List ZArith Bool Lia DecimalString.
From Stdlib Require OrderedTypeEx DecimalZ.
Import ListNotations.
Local Open Scope string_scope.
Local Open Scope Z_scope.
#[local] Set Warnings "-register-all".

(** ** Python strings *)

Module PyStr.

(** The white space of one byte: TAB..CR, FS..US and the blank. *)
Definition isspace (c : ascii) : bool :=
  let n := nat_of_ascii c in
  ((9 <=? n) && (n <=? 13) || (28 <=? n) && (n <=? 32))%nat.

Definition of_bytes (l : list nat) : string :=
  fold_right (fun n s => String (ascii_of_nat n) s) EmptyString l.

(** The characters that [str.strip] removes and that [\s] matches, each in
    UTF-8: U+0009..U+000D, U+001C..U+0020, U+0085, U+00A0, U+1680,
    U+2000..U+200A, U+2028, U+2029, U+202F, U+205F and U+3000. *)
Definition whitespace : list string :=
  map of_bytes
    [[9]; [10]; [11]; [12]; [13]; [28]; [29]; [30]; [31]; [32];
     [194; 133]; [194; 160]; [225; 154; 128];
     [226; 128; 128]; [226; 128; 129]; [226; 128; 130]; [226; 128; 131];
     [226; 128; 132]; [226; 128; 133]; [226; 128; 134]; [226; 128; 135];
     [226; 128; 136]; [226; 128; 137]; [226; 128; 138];
     [226; 128; 168]; [226; 128; 169]; [226; 128; 175];
     [226; 129; 159]; [227; 128; 128]]%nat.

(** [s.startswith(p)] *)
Fixpoint startswith (p s : string) : bool :=
  match p, s with
  | EmptyString, _ => true
  | String a p', String b s' => Ascii.eqb a b && startswith p' s'
  | String _ _, EmptyString => false
  end.

(** The white-space character that the text begins with, if it begins with
    one. *)
Definition space_at (s : string) : option string :=
  find (fun p => startswith p s) whitespace.

(** [s.lstrip()]: the white-space characters in front are stepped over byte
    by byte, [skip] counting the bytes of the character that are still
    ahead. *)
Fixpoint lstrip_from (skip : nat) (s : string) : string :=
  match s with
  | EmptyString => EmptyString
  | String _ s' =>
      match skip with
      | S k => lstrip_from k s'
      | O =>
          match space_at s with
          | Some p => lstrip_from (Nat.pred (String.length p)) s'
          | None => s
          end
      end
  end.

Definition lstrip (s : string) : string := lstrip_from 0 s.

(** The text is one white-space character. *)
Definition is_space (s : string) : bool := existsb (String.eqb s) whitespace.

(** [s.rstrip()], from the end of the text: what is left of the rest, with
    the byte before it, is dropped when it makes up a white-space
    character. *)
Fixpoint rstrip (s : string) : string :=
  match s with
  | String c s' =>
      let r := String c (rstrip s') in
      if is_space r then EmptyString else r
  | EmptyString => EmptyString
  end.

(** [s.strip()] *)
Definition strip (s : string) : string := rstrip (lstrip s).

(** [c in s] for a one-character [c]. *)
Fixpoint contains (c : ascii) (s : string) : bool :=
  match s with
  | String d s' => Ascii.eqb c d || contains c s'
  | EmptyString => false
  end.

(** [s.split(c, 1)] when [c] occurs in [s]: the text before the first
    occurrence and the text after it.  (Without an occurrence Python returns
    the one-element list [[s]]; here the right part is then empty.) *)
Fixpoint split_once (c : ascii) (s : string) : string * string :=
  match s with
  | String d s' =>
      if Ascii.eqb c d then (EmptyString, s')
      else let (l, r) := split_once c s' in (String d l, r)
  | EmptyString => (EmptyString, EmptyString)
  end.

(** [sep.join(l)] on strings. *)
Definition join (sep : string) (l : list string) : string := String.concat sep l.

(** A byte that goes on a character of UTF-8 text. *)
Definition continues (c : ascii) : bool :=
  let n := nat_of_ascii c in ((128 <=? n) && (n <=? 191))%nat.

(** [s[:n]]: the first [n] characters, each with the bytes that go on it. *)
Fixpoint slice_to (n : nat) (s : string) : string :=
  match s with
  | EmptyString => EmptyString
  | String c s' =>
      if continues c then String c (slice_to n s')
      else match n with
           | O => EmptyString
           | S k => String c (slice_to k s')
           end
  end.

(** [str(n)] / [f"{n}"] for an integer. *)
Definition str_of_int (n : Z) : string := NilZero.string_of_int (Z.to_int n).

(** [not s] is true of the empty string only. *)
Definition nonempty (s : string) : bool :=
  match s with EmptyString => false | String _ _ => true end.

End PyStr.

(** ** The two regular expressions of the source *)

Module Re.

(** A literal at the head of the text: what is left after it. *)
Fixpoint literal (p s : string) : option string :=
  match p with
  | EmptyString => Some s
  | String c p' =>
      match s with
      | String d s' => if Ascii.eqb c d then literal p' s' else None
      | EmptyString => None
      end
  end.

(** A greedy run [[class]*]: the run and the rest. *)
Fixpoint span (f : ascii -> bool) (s : string) : string * string :=
  match s with
  | String c s' =>
      if f c then let (r, t) := span f s' in (String c r, t)
      else (EmptyString, s)
  | EmptyString => (EmptyString, EmptyString)
  end.

(** [[class]+], greedy: no match on an empty run. *)
Definition plus (f : ascii -> bool) (s : string) : option (string * string) :=
  match span f s with
  | (EmptyString, _) => None
  | (r, t) => Some (r, t)
  end.

Definition in_range (lo hi : nat) (c : ascii) : bool :=
  let n := nat_of_ascii c in ((lo <=? n) && (n <=? hi))%nat.

(** [[0-9A-Za-z.\-_]] *)
Definition uid_char (c : ascii) : bool :=
  in_range 48 57 c || in_range 65 90 c || in_range 97 122 c
  || Ascii.eqb c "." || Ascii.eqb c "-" || Ascii.eqb c "_".

(** [facebook\.com/(?:profile\.php\?id=)?([0-9A-Za-z.\-_]+)] at the head of
    the text; the result is group 1.  The optional group is greedy: it is
    taken first, and given up when the class finds nothing after it. *)
Definition uid_pattern_at (s : string) : option string :=
  match literal "facebook.com/" s with
  | None => None
  | Some t =>
      let without := match plus uid_char t with
                     | Some (g, _) => Some g
                     | None => None
                     end in
      match literal "profile.php?id=" t with
      | Some t' =>
          match plus uid_char t' with
          | Some (g, _) => Some g
          | None => without
          end
      | None => without
      end
  end.

(** [re.search(pattern, s)]: the match at the leftmost position that has one. *)
Fixpoint search_uid (s : string) : option string :=
  match uid_pattern_at s with
  | Some g => Some g
  | None =>
      match s with
      | String _ s' => search_uid s'
      | EmptyString => None
      end
  end.

(** A byte that is no white space of one byte. *)
Definition nonspace (c : ascii) : bool := negb (PyStr.isspace c).

(** A greedy run [[^\s]*]: the bytes up to the first white-space character,
    and the rest. *)
Fixpoint span_nonspace (s : string) : string * string :=
  match s with
  | String c s' =>
      match PyStr.space_at s with
      | Some _ => (EmptyString, s)
      | None => let (r, t) := span_nonspace s' in (String c r, t)
      end
  | EmptyString => (EmptyString, EmptyString)
  end.

(** [[^\s]+], greedy. *)
Definition plus_nonspace (s : string) : option (string * string) :=
  match span_nonspace s with
  | (EmptyString, _) => None
  | (r, t) => Some (r, t)
  end.

(** [(https?://(?:www\.)?facebook\.com/[^\s]+)] at the head of the text: the
    matched text. *)
Definition link_pattern_at (s : string) : option string :=
  match literal "http" s with
  | None => None
  | Some t0 =>
      let scheme (pre t : string) :=
        match literal "://" t with
        | None => None
        | Some t1 =>
            let host (pre1 t2 : string) :=
              match literal "facebook.com/" t2 with
              | None => None
              | Some t3 =>
                  match plus_nonspace t3 with
                  | Some (r, _) => Some (pre1 ++ "facebook.com/" ++ r)%string
                  | None => None
                  end
              end in
            match literal "www." t1 with
            | Some t2 =>
                match host (pre ++ "://www.")%string t2 with
                | Some m => Some m
                | None => host (pre ++ "://")%string t1
                end
            | None => host (pre ++ "://")%string t1
            end
        end in
      match literal "s" t0 with
      | Some t =>
          match scheme "https" t with
          | Some m => Some m
          | None => scheme "http" t0
          end
      | None => scheme "http" t0
      end
  end.

(** [re.findall(pattern, s)]: the matches from left to right, each search
    resuming where the previous match ended.  [skip] counts the characters of
    the last match that are still ahead. *)
Fixpoint findall_from (skip : nat) (s : string) : list string :=
  match s with
  | EmptyString => []
  | String _ s' =>
      match skip with
      | S k => findall_from k s'
      | O =>
          match link_pattern_at s with
          | Some m => m :: findall_from (Nat.pred (String.length m)) s'
          | None => findall_from 0 s'
          end
      end
  end.

Definition findall_links (s : string) : list string := findall_from 0 s.

End Re.

(** ** Python values, exceptions and the world the handlers run in *)

(** The values that flow through the handlers: [None], and what a JSON body
    decodes to (numbers are integers here).  A dictionary is the list of its
    bindings, a key's first binding being its value. *)
Inductive value : Type :=
| VNone
| VBool (b : bool)
| VInt (n : Z)
| VStr (s : string)
| VList (l : list value)
| VDict (d : list (string * value)).

(** Truth value of [if v:]. *)
Definition truthy (v : value) : bool :=
  match v with
  | VNone => false
  | VBool b => b
  | VInt n => negb (n =? 0)
  | VStr s => PyStr.nonempty s
  | VList l => match l with [] => false | _ => true end
  | VDict d => match d with [] => false | _ => true end
  end.

(** [d.get(key)] on the bindings of a dictionary. *)
Fixpoint dict_get (key : string) (d : list (string * value)) : value :=
  match d with
  | [] => VNone
  | (k, v) :: d' => if String.eqb k key then v else dict_get key d'
  end.

(** The exceptions that can arise; each one is a subclass of [Exception]. *)
Inductive exn : Type :=
| TypeError
| AttributeError
| ClientError
| TimeoutError
| JSONDecodeError
| IntegrityError
| ProgrammingError
| OverflowError
| ValueError.

Inductive result (A : Type) : Type :=
| Ok (a : A)
| Raise (e : exn).
Arguments Ok {A} a.
Arguments Raise {A} e.

(** A row of the table [uids]. *)
Record row : Type := mkRow {
  id : Z;
  uid : string;
  note : string;
  chat_id : Z;
  saved_at : string
}.

Definition table : Type := list row.

(** The SQL statements of the source, with their bound parameters. *)
Inductive statement : Type :=
| InsertUid (u n : string) (chat : Z) (ts : string)
| SelectFind (chat : Z) (p1 p2 : string)
| SelectCount (chat : Z) (u : string)
| DeleteUid (chat : Z) (u : string)
| DeleteAll (chat : Z)
| SelectExport (chat : Z)
| SelectStats (chat : Z).

(** What a handler does that the outside can see, and what it does to the
    database connection. *)
Inductive event : Type :=
| Connect
| Execute (sql : statement)
| Commit
| Close
| ReplyText (chat : Z) (text : string)
| ReplyDocument (chat : Z) (filename content : string)
| HttpGet (url : string) (params : list (string * string))
| LogWarning.

(** The world: the committed content of [uids.db], what
    [datetime.utcnow().isoformat()] returns at this moment, and the events so
    far, the newest first. *)
Record World : Type := mkWorld {
  disk : table;
  clock : string;
  log : list event
}.

(** A connection is its open transaction, if it has one: the table as this
    connection sees it, not yet committed. *)
Definition Conn : Type := option table.

(** The keyword arguments of a call.  The only keyword a call site of the
    source passes is [conn]. *)
Definition kwargs : Type := option Conn.
Definition no_kwargs : kwargs := None.

(** *** The state and exception monad of the handlers *)

Definition M (A : Type) : Type := World -> result A * World.

Definition ret {A} (a : A) : M A := fun w => (Ok a, w).

Definition raise {A} (e : exn) : M A := fun w => (Raise e, w).

Definition bind {A B} (m : M A) (k : A -> M B) : M B :=
  fun w =>
    match m w with
    | (Ok a, w') => k a w'
    | (Raise e, w') => (Raise e, w')
    end.

Notation "x <- m ;; k" := (bind m (fun x => k))
  (at level 61, m at next level, right associativity).
Notation "' pat <- m ;; k" := (bind m (fun x => match x with pat => k end))
  (at level 61, pat pattern, m at next level, right associativity).
Notation "m ;; k" := (bind m (fun _ => k))
  (at level 61, right associativity).

(** [try: m except Exception: h] *)
Definition try_except {A} (m : M A) (h : exn -> M A) : M A :=
  fun w =>
    match m w with
    | (Ok a, w') => (Ok a, w')
    | (Raise e, w') => h e w'
    end.

(** [try: m finally: f] *)
Definition try_finally {A} (m : M A) (f : M unit) : M A :=
  fun w =>
    match m w with
    | (r, w') =>
        match f w' with
        | (Ok _, w'') => (r, w'')
        | (Raise e, w'') => (Raise e, w'')
        end
    end.

Definition emit (e : event) : M unit :=
  fun w => (Ok tt, mkWorld (disk w) (clock w) (e :: log w)).

Definition utcnow_isoformat : M string := fun w => (Ok (clock w), w).

(** ** The table and its statements *)

Module Sql.

(** [chat_id = ? AND uid = ?] *)
Definition is_uid (chat : Z) (u : string) (r : row) : bool :=
  (chat_id r =? chat) && String.eqb (uid r) u.

(** [chat_id = ?] *)
Definition in_chat (chat : Z) (r : row) : bool := chat_id r =? chat.

Definition lower (c : ascii) : ascii :=
  if Re.in_range 65 90 c then ascii_of_nat (nat_of_ascii c + 32) else c.

(** A byte that goes on a character of UTF-8 text, and a byte that begins
    a character of more than one byte. *)
Definition continuation : ascii -> bool := PyStr.continues.
Definition lead (c : ascii) : bool := (192 <=? nat_of_ascii c)%nat.

(** One character of UTF-8 text: a byte, and the continuation bytes after a
    lead byte. *)
Definition skip_char (s : string) : option string :=
  match s with
  | EmptyString => None
  | String c s' =>
      if lead c
      then Some (snd (Re.span continuation s'))
      else Some s'
  end.

Definition NUL : ascii := "000"%char.

(** The text up to its first NUL: LIKE reads its two operands as C strings,
    which end there. *)
Fixpoint until_nul (s : string) : string :=
  match s with
  | String c s' => if Ascii.eqb c NUL then EmptyString else String c (until_nul s')
  | EmptyString => EmptyString
  end.

(** What [%] does: the rest of the pattern, [f], is tried on the text from
    here and from after each of its characters.  [inside] says that the
    bytes ahead may go on the character that was stepped over. *)
Fixpoint scan (f : string -> bool) (inside : bool) (t : string) : bool :=
  match t with
  | EmptyString => f EmptyString
  | String d t' =>
      if inside && continuation d then scan f true t'
      else f t || scan f (lead d) t'
  end.

(** The comparison of LIKE: [%] stands for any text, [_] for one character,
    and letters of ASCII match in either case. *)
Fixpoint like_chars (p s : string) : bool :=
  match p with
  | EmptyString => negb (PyStr.nonempty s)
  | String c p' =>
      if Ascii.eqb c "%" then scan (like_chars p') false s
      else if Ascii.eqb c "_" then
        match skip_char s with
        | Some s' => like_chars p' s'
        | None => false
        end
      else
        match s with
        | String d s' => Ascii.eqb (lower c) (lower d) && like_chars p' s'
        | EmptyString => false
        end
  end.

(** [s LIKE p], without an ESCAPE clause, for a pattern of at most 50000
    bytes (SQLite turns a longer one away). *)
Definition like (p s : string) : bool := like_chars (until_nul p) (until_nul s).

(** The row id of a new row: one more than the largest in the table. *)
Definition next_id (t : table) : Z := 1 + fold_right (fun r m => Z.max (id r) m) 0 t.

(** [INSERT INTO uids (uid, note, chat_id, saved_at) VALUES (?, ?, ?, ?)] *)
Definition insert (u n : string) (chat : Z) (ts : string) (t : table) : table :=
  (t ++ [mkRow (next_id t) u n chat ts])%list.

(** [SELECT uid, note, saved_at FROM uids WHERE chat_id = ? AND (uid LIKE ?
    OR note LIKE ?) LIMIT 50] *)
Definition select_find (chat : Z) (p1 p2 : string) (t : table) : list row :=
  firstn 50 (filter (fun r => in_chat chat r && (like p1 (uid r) || like p2 (note r))) t).

(** [SELECT COUNT( * ) as c FROM uids WHERE chat_id = ? AND uid = ?] *)
Definition select_count (chat : Z) (u : string) (t : table) : Z :=
  Z.of_nat (length (filter (is_uid chat u) t)).

(** [DELETE FROM uids WHERE chat_id = ? AND uid = ?]: the table left, and
    the number of rows removed ([cur.rowcount]). *)
Definition delete_uid (chat : Z) (u : string) (t : table) : table * Z :=
  (filter (fun r => negb (is_uid chat u r)) t,
   Z.of_nat (length (filter (is_uid chat u) t))).

(** [DELETE FROM uids WHERE chat_id = ?] *)
Definition delete_all (chat : Z) (t : table) : table :=
  filter (fun r => negb (in_chat chat r)) t.

(** [SELECT uid, note, saved_at FROM uids WHERE chat_id = ?] *)
Definition select_export (chat : Z) (t : table) : list row :=
  filter (in_chat chat) t.

(** [MAX(saved_at)]: the greatest text, none over no row. *)
Definition max_text (l : list string) : option string :=
  fold_right (fun s m => match m with
                         | Some s' => Some (if String.leb s s' then s' else s)
                         | None => Some s
                         end) None l.

(** [SELECT COUNT( * ) as c, MAX(saved_at) as last FROM uids WHERE chat_id = ?] *)
Definition select_stats (chat : Z) (t : table) : Z * option string :=
  let rows := filter (in_chat chat) t in
  (Z.of_nat (length rows), max_text (map saved_at rows)).

End Sql.

(** ** The CSV export: [csv.writer] with its default dialect *)

Module Csv.

Definition dquote : ascii := "034"%char.
Definition cr : ascii := "013"%char.
Definition lf : ascii := "010"%char.
Definition crlf : string := String cr (String lf EmptyString).

(** The characters that make the writer quote a field: the delimiter, the
    quote character and the characters of the line terminator. *)
Definition special (c : ascii) : bool :=
  Ascii.eqb c "," || Ascii.eqb c dquote || Ascii.eqb c cr || Ascii.eqb c lf.

Fixpoint has_special (s : string) : bool :=
  match s with
  | String c s' => special c || has_special s'
  | EmptyString => false
  end.

(** Each quote character of the field is written twice. *)
Fixpoint double_quotes (s : string) : string :=
  match s with
  | String c s' =>
      if Ascii.eqb c dquote then String dquote (String dquote (double_quotes s'))
      else String c (double_quotes s')
  | EmptyString => EmptyString
  end.

(** A field as written under QUOTE_MINIMAL. *)
Definition write_field (f : string) : string :=
  if has_special f
  then String dquote (double_quotes f ++ String dquote EmptyString)
  else f.

(** [writer.writerow(fields)]: the fields, comma separated, and the line
    terminator.  A row that is one empty field is written as two quotes. *)
Definition writerow (fields : list string) : string :=
  match fields with
  | [EmptyString] => String dquote (String dquote crlf)
  | _ => PyStr.join "," (map write_field fields) ++ crlf
  end.

Definition header : list string := ["uid"; "note"; "saved_at"].

Definition fields_of (r : row) : list string := [uid r; note r; saved_at r].

(** What [cmd_export] writes into its buffer: the header row, then one row
    per record. *)
Definition export_text (rows : list row) : string :=
  writerow header ++ String.concat EmptyString (map (fun r => writerow (fields_of r)) rows).

(** *** The reader of the same dialect

    The source has no reader; this is the reference one the export is read
    back with: the usual automaton of the dialect (delimiter comma, quote
    character the double quote, a doubled quote inside a quoted field for one
    quote, records ended by CR LF, CR or LF outside quotes). *)
Inductive pstate : Type :=
| RecordStart     (* nothing of the record read yet *)
| FieldStart      (* after a delimiter *)
| Bare            (* in an unquoted field *)
| Quoted          (* in a quoted field *)
| QuoteSeen       (* in a quoted field, after a quote *)
| AfterCR.        (* after the CR that ended a record *)

Definition snoc (s : string) (c : ascii) : string := s ++ String c EmptyString.

(** How the reader sees a character. *)
Inductive cclass : Type := CComma | CQuote | CCr | CLf | COther.

Definition classify (c : ascii) : cclass :=
  if Ascii.eqb c "," then CComma
  else if Ascii.eqb c dquote then CQuote
  else if Ascii.eqb c cr then CCr
  else if Ascii.eqb c lf then CLf
  else COther.

(** One character: the rows completed by it (none or one), and the state,
    the field and the record after it. *)
Definition step (st : pstate) (fld : string) (rec : list string) (c : ascii)
  : list (list string) * (pstate * string * list string) :=
  let done := (rec ++ [fld])%list in
  match st, classify c with
  | Quoted, CQuote => ([], (QuoteSeen, fld, rec))
  | Quoted, _ => ([], (Quoted, snoc fld c, rec))
  | QuoteSeen, CQuote => ([], (Quoted, snoc fld dquote, rec))
  | AfterCR, CLf => ([], (RecordStart, EmptyString, []))
  | (RecordStart | AfterCR), CCr => ([[]], (AfterCR, EmptyString, []))
  | RecordStart, CLf => ([[]], (RecordStart, EmptyString, []))
  | (RecordStart | AfterCR | FieldStart), CQuote => ([], (Quoted, EmptyString, rec))
  | Bare, CQuote => ([], (Bare, snoc fld c, rec))
  | _, CComma => ([], (FieldStart, EmptyString, done))
  | _, CCr => ([done], (AfterCR, EmptyString, []))
  | _, CLf => ([done], (RecordStart, EmptyString, []))
  | (RecordStart | AfterCR | FieldStart), COther => ([], (Bare, String c EmptyString, rec))
  | (Bare | QuoteSeen), COther => ([], (Bare, snoc fld c, rec))
  end.

Fixpoint read (st : pstate) (fld : string) (rec : list string) (s : string)
  : list (list string) :=
  match s with
  | EmptyString =>
      match st with
      | RecordStart | AfterCR => []
      | _ => [(rec ++ [fld])%list]
      end
  | String c s' =>
      match step st fld rec c with
      | (rows, (st', fld', rec')) => (rows ++ read st' fld' rec' s')%list
      end
  end.

(** The rows of a CSV text. *)
Definition reader (s : string) : list (list string) := read RecordStart EmptyString [] s.

End Csv.

(** ** The outside: updates from Telegram and answers of the Graph API *)

(** [update.message], as far as a handler reads it: its text ([None] when
    the message has none, as a photo has). *)
Record Message : Type := mkMessage { text : option string }.

(** What a handler reads of an update: who sent it, in which chat (the ids
    of Telegram, integers of 64 bits), and [update.message].  The message
    is [None] when the update is no new message: an edited message, which
    the command and message handlers of [main] take as well, a channel
    post, or a pressed button. *)
Record Update : Type := mkUpdate {
  effective_user : Z;
  effective_chat : Z;
  message : option Message
}.

(** [update.message.text], where the update has a message and the message a
    text. *)
Definition message_text (update : Update) : option string :=
  match message update with
  | Some m => text m
  | None => None
  end.

(** [context.args]: the words after the command. *)
Record Context : Type := mkContext { args : list string }.

(** The body of an HTTP answer: JSON text and what it decodes to, or
    anything else. *)
Inductive http_body : Type :=
| Json (v : value)
| Malformed.

(** What a GET request comes to. *)
Inductive http_outcome : Type :=
| TransportFailure
| Timeout
| Response (status : Z) (body : http_body).

Definition nl : string := String Csv.lf EmptyString.

(** [ConversationHandler.END] and the state [SAVE_SINGLE]. *)
Definition END : Z := -1.
Definition SAVE_SINGLE : Z := 0.

(** *** Connections *)

(** The table as a connection sees it. *)
Definition view (conn : Conn) : M table :=
  fun w => (Ok (match conn with Some t => t | None => disk w end), w).

(** [conn.commit()] *)
Definition commit (conn : Conn) : M unit :=
  fun w =>
    (Ok tt, mkWorld (match conn with Some t => t | None => disk w end)
                    (clock w) (Commit :: log w)).

(** [cur.execute] of a statement that reads. *)
Definition query {A} (sql : statement) (f : table -> A) (conn : Conn) : M A :=
  emit (Execute sql) ;; t <- view conn ;; ret (f t).

(** [cur.execute] of a statement that writes: it opens the transaction of
    the connection. *)
Definition update_with {A} (sql : statement) (f : table -> table * A) (conn : Conn)
  : M (A * Conn) :=
  emit (Execute sql) ;; t <- view conn ;;
  ret (snd (f t), Some (fst (f t))).

(** A parameter bound to the column [uid TEXT NOT NULL]: a text is stored as
    it is, an integer of 64 bits as its decimal text, and [None] breaks the
    constraint; an integer beyond 64 bits is refused when it is bound. *)
Definition bind_uid (v : value) : M string :=
  match v with
  | VStr s => ret s
  | VInt n =>
      if (- 2 ^ 63 <=? n) && (n <? 2 ^ 63) then ret (PyStr.str_of_int n)
      else raise OverflowError
  | VBool b => ret (if b then "1" else "0")
  | VNone => raise IntegrityError
  | VList _ | VDict _ => raise ProgrammingError
  end.

(** [sep.join(l)]: every item must be a string. *)
Fixpoint strings_of (l : list value) : M (list string) :=
  match l with
  | [] => ret []
  | VStr s :: l' => r <- strings_of l' ;; ret (s :: r)
  | _ :: _ => raise TypeError
  end.

(** [with_db]: a fresh connection, the call of the wrapped function with
    [conn=conn] added to the caller's keywords, commit, and close in any
    case.  A caller that passes [conn] itself makes the call of [func] carry
    two values for the keyword [conn], which raises [TypeError] before the
    body of [func] runs. *)
Definition with_db {Args A} (func : Args -> Conn -> M (A * Conn))
  (a : Args) (kw : kwargs) : M A :=
  emit Connect ;;
  try_finally
    (match kw with
     | Some _ => raise TypeError
     | None =>
         ' (result, conn) <- func a None ;;
         commit conn ;;
         ret result
     end)
    (emit Close).

(** [update.message.reply_text(text)]: on an update without a message,
    [update.message] is [None], which has no attribute [reply_text]. *)
Definition reply_text (update : Update) (text : string) : M unit :=
  match message update with
  | Some _ => emit (ReplyText (effective_chat update) text)
  | None => raise AttributeError
  end.

(** [update.message.reply_document(InputFile(bio, filename=bio.name))] *)
Definition reply_document (update : Update) (filename content : string) : M unit :=
  match message update with
  | Some _ => emit (ReplyDocument (effective_chat update) filename content)
  | None => raise AttributeError
  end.

(** [save_uid_to_db(chat_id, uid, note)] *)
Definition save_uid_to_db : Z * value * string -> kwargs -> M value :=
  with_db (fun '(chat_id, uid, note) conn =>
    ts <- utcnow_isoformat ;;
    u <- bind_uid uid ;;
    ' (_, conn') <- update_with (InsertUid u note chat_id ts)
                      (fun t => (Sql.insert u note chat_id ts t, tt)) conn ;;
    ret (VNone, conn')).

(** [user_id in ADMINS] *)
Definition is_admin (ADMINS : list Z) (user_id : Z) : bool :=
  existsb (Z.eqb user_id) ADMINS.

Section Bot.

(** The configuration read from the environment at start-up, and the Graph
    API as it answers a request. *)
Variable FB_ACCESS_TOKEN : option string.
Variable ADMINS : list Z.
Variable graph_api : string -> list (string * string) -> http_outcome.

Definition admin_rejection : string :=
  "🚫 Lệnh này chỉ dành cho admin. / This command is for admins only.".

(** [admin_only]: the test of the user, and for whoever is not in the list
    the reply on [update.message] and nothing else. *)
Definition admin_only (func : Update * Context -> kwargs -> M value)
  : Update * Context -> kwargs -> M value :=
  fun '(update, context) k =>
    let user_id := effective_user update in
    if negb (is_admin ADMINS user_id) then
      reply_text update admin_rejection ;;
      ret VNone
    else func (update, context) k.

(** [sess.get(url, params=..., timeout=10)] *)
Definition sess_get (url : string) (params : list (string * string))
  : M (Z * http_body) :=
  emit (HttpGet url params) ;;
  match graph_api url params with
  | TransportFailure => raise ClientError
  | Timeout => raise TimeoutError
  | Response status body => ret (status, body)
  end.

(** [await resp.json()] *)
Definition resp_json (body : http_body) : M value :=
  match body with
  | Json v => ret v
  | Malformed => raise JSONDecodeError
  end.

(** [data.get(key)]: only a dictionary has the method. *)
Definition py_get (data : value) (key : string) : M value :=
  match data with
  | VDict d => ret (dict_get key d)
  | _ => raise AttributeError
  end.

(** The token as [if not FB_ACCESS_TOKEN] reads it: unset or empty is no
    token. *)
Definition token : option string :=
  match FB_ACCESS_TOKEN with
  | Some t => if PyStr.nonempty t then Some t else None
  | None => None
  end.

(** [try_get_fb_uid_from_url(url)] *)
Definition try_get_fb_uid_from_url (url : string) : M value :=
  match token with
  | None =>
      match Re.search_uid url with
      | Some g => ret (VStr g)
      | None => ret VNone
      end
  | Some tok =>
      let base := "https://graph.facebook.com/v17.0/" in
      try_except
        (' (status, body) <- sess_get base [("id", url); ("access_token", tok)] ;;
         if status =? 200 then
           data <- resp_json body ;;
           py_get data "id"
         else ret VNone)
        (fun e => emit LogWarning ;; ret VNone)
  end.

(** [try_get_fb_profile(uid)] *)
Definition try_get_fb_profile (uid : string) : M value :=
  match token with
  | None => ret VNone
  | Some tok =>
      let url := "https://graph.facebook.com/" ++ uid in
      let params := [("access_token", tok);
                     ("fields", "id,name,picture.width(800).height(800),cover")] in
      try_except
        (' (status, body) <- sess_get url params ;;
         if status =? 200 then resp_json body else ret VNone)
        (fun e => ret VNone)
  end.

(** *** The commands *)

Definition find_line (r : row) : string :=
  uid r ++ " — " ++ (if PyStr.nonempty (note r) then note r else "-")
  ++ " (saved:" ++ PyStr.slice_to 19 (saved_at r) ++ ")".

Definition cmd_find : Update * Context -> kwargs -> M value :=
  with_db (fun '(update, context) conn =>
    match args context with
    | [] =>
        reply_text update "Dùng: /find <chuỗi> / Use: /find <text>" ;;
        ret (VNone, conn)
    | _ =>
        let q := PyStr.join " " (args context) in
        let chat := effective_chat update in
        let pat := "%" ++ q ++ "%" in
        rows <- query (SelectFind chat pat pat) (Sql.select_find chat pat pat) conn ;;
        match rows with
        | [] =>
            reply_text update "Không tìm thấy / No results." ;;
            ret (VNone, conn)
        | _ =>
            reply_text update (PyStr.join nl (map find_line rows)) ;;
            ret (VNone, conn)
        end
    end).

Definition cmd_check : Update * Context -> kwargs -> M value :=
  with_db (fun '(update, context) conn =>
    match args context with
    | [] =>
        reply_text update "Dùng: /check <uid> / Use: /check <uid>" ;;
        ret (VNone, conn)
    | uid :: _ =>
        let chat := effective_chat update in
        c <- query (SelectCount chat uid) (Sql.select_count chat uid) conn ;;
        reply_text update
          (if c >? 0 then "Đã có / Exists." else "Chưa có / Not found.") ;;
        ret (VNone, conn)
    end).

Definition cmd_delete : Update * Context -> kwargs -> M value :=
  with_db (fun '(update, context) conn =>
    match args context with
    | [] =>
        reply_text update "Dùng: /delete <uid> / Use: /delete <uid>" ;;
        ret (VNone, conn)
    | uid :: _ =>
        let chat := effective_chat update in
        ' (rowcount, conn') <- update_with (DeleteUid chat uid) (Sql.delete_uid chat uid) conn ;;
        reply_text update
          (if rowcount >? 0 then "Đã xóa / Deleted."
           else "Không tìm thấy UID / Not found.") ;;
        ret (VNone, conn')
    end).

Definition cmd_deleteall : Update * Context -> kwargs -> M value :=
  admin_only (with_db (fun '(update, context) conn =>
    let chat := effective_chat update in
    ' (_, conn') <- update_with (DeleteAll chat)
                      (fun t => (Sql.delete_all chat t, tt)) conn ;;
    reply_text update "Đã xoá tất cả UID trong chat / All UIDs removed." ;;
    ret (VNone, conn'))).

Definition export_name (chat : Z) : string :=
  "uids_" ++ PyStr.str_of_int chat ++ ".csv".

Definition cmd_export : Update * Context -> kwargs -> M value :=
  admin_only (with_db (fun '(update, context) conn =>
    let chat := effective_chat update in
    rows <- query (SelectExport chat) (Sql.select_export chat) conn ;;
    match rows with
    | [] =>
        reply_text update "Không có UID / No UIDs." ;;
        ret (VNone, conn)
    | _ =>
        reply_document update (export_name chat) (Csv.export_text rows) ;;
        ret (VNone, conn)
    end)).

(** The text of the statistics reply. *)
Definition stats_text (c : Z) (last : option string) : string :=
  "Tổng UID / Total UIDs: " ++ PyStr.str_of_int c ++ nl
  ++ "Lưu gần nhất / Last saved: "
  ++ match last with
     | Some s => if PyStr.nonempty s then s else "-"
     | None => "-"
     end.

Definition cmd_thongke : Update * Context -> kwargs -> M value :=
  admin_only (with_db (fun '(update, context) conn =>
    let chat := effective_chat update in
    ' (c, last) <- query (SelectStats chat) (Sql.select_stats chat) conn ;;
    reply_text update (stats_text c last) ;;
    ret (VNone, conn))).

(** *** Saving by hand *)

Definition cmd_save : Update * Context -> M value :=
  fun '(update, context) =>
    reply_text update "Gửi 1 UID (hoặc UID|ghi chú) / Send 1 UID (or UID|note):" ;;
    ret (VInt SAVE_SINGLE).

Definition cmd_cancel : Update * Context -> M value :=
  fun '(update, context) =>
    reply_text update "Đã hủy / Cancelled." ;;
    ret (VInt END).

(** The [uid, note] that [handle_save_single] reads off the text. *)
Definition parse_single (t : string) : string * string :=
  let text := PyStr.strip t in
  if PyStr.contains "|" text
  then let (l, r) := PyStr.split_once "|" text in (PyStr.strip l, PyStr.strip r)
  else (text, EmptyString).

(** [update.message.text.strip()] raises [AttributeError] when the update
    has no message, and when the message has no text. *)
Definition handle_save_single : Update * Context -> kwargs -> M value :=
  with_db (fun '(update, context) conn =>
    match message_text update with
    | None => raise AttributeError
    | Some t =>
        let (uid, note) := parse_single t in
        save_uid_to_db (effective_chat update, VStr uid, note) (Some conn) ;;
        reply_text update ("Đã lưu UID / Saved UID: " ++ uid) ;;
        ret (VInt END, conn)
    end).

(** *** Links in ordinary messages *)

(** The loop of [detect_facebook_link] over the links found. *)
Fixpoint save_links (update : Update) (conn : Conn) (urls : list string)
  (saved : list value) : M (list value) :=
  match urls with
  | [] => ret saved
  | url :: urls' =>
      uid <- try_get_fb_uid_from_url url ;;
      if truthy uid then
        save_uid_to_db (effective_chat update, uid, "Auto from " ++ url) (Some conn) ;;
        save_links update conn urls' (saved ++ [uid])%list
      else save_links update conn urls' saved
  end.

(** [update.message.text or '']: [AttributeError] on an update without a
    message, the empty text for a message without a text. *)
Definition detect_facebook_link : Update * Context -> kwargs -> M value :=
  with_db (fun '(update, context) conn =>
    match message update with
    | None => raise AttributeError
    | Some m =>
        let text := match text m with Some t => t | None => EmptyString end in
        match Re.findall_links text with
        | [] => ret (VNone, conn)
        | urls =>
            saved <- save_links update conn urls [] ;;
            match saved with
            | [] => ret (VNone, conn)
            | _ =>
                names <- strings_of saved ;;
                reply_text update
                  ("Tự động lưu UID / Auto-saved UIDs: " ++ PyStr.join ", " names) ;;
                ret (VNone, conn)
            end
        end
    end).

(** *** The conversation of [/save]

    [conv_save] of [main], per chat: the entry point [/save], the state
    [SAVE_SINGLE] in which a text that is no command goes to
    [handle_save_single], and the fallback [/cancel].  The state moves by
    what the callback returns; a callback that raises leaves it where it
    was. *)
Inductive conv_state : Type := Idle | AwaitingUidInput.

Inductive incoming : Type :=
| Command (name : string)
| Text.

Definition conv_next (st : conv_state) (r : result value) : conv_state :=
  match r with
  | Ok (VInt n) =>
      if n =? END then Idle
      else if n =? SAVE_SINGLE then AwaitingUidInput
      else st
  | _ => st
  end.

(** One update offered to [conv_save]: the callback's result and the state
    after it, or [None] when the conversation does not take the update. *)
Definition conv_save (st : conv_state) (kind : incoming) (update : Update)
  (context : Context) (w : World) : option (result value * conv_state * World) :=
  let run (m : M value) :=
    match m w with (r, w') => Some (r, conv_next st r, w') end in
  match st, kind with
  | Idle, Command "save" => run (cmd_save (update, context))
  | AwaitingUidInput, Text => run (handle_save_single (update, context) no_kwargs)
  | AwaitingUidInput, Command "cancel" => run (cmd_cancel (update, context))
  | _, _ => None
  end.

End Bot.

(** ** What the statements are measured against *)

(** The rows of a chat, and the rows of all the other chats. *)
Definition own (chat : Z) (t : table) : table := filter (Sql.in_chat chat) t.
Definition others (chat : Z) (t : table) : table :=
  filter (fun r => negb (Sql.in_chat chat r)) t.

(** The commands that search, check, delete, export and count. *)
Definition scoped_commands (ADMINS : list Z)
  : list (Update * Context -> kwargs -> M value) :=
  [cmd_find; cmd_check; cmd_delete;
   cmd_deleteall ADMINS; cmd_export ADMINS; cmd_thongke ADMINS].

(** The commands behind [admin_only]. *)
Definition privileged_commands (ADMINS : list Z)
  : list (Update * Context -> kwargs -> M value) :=
  [cmd_deleteall ADMINS; cmd_export ADMINS; cmd_thongke ADMINS].


(** A record whose note holds every character the writer quotes for. *)
Definition sample_note : string :=
  "say " ++ String Csv.dquote ("hi" ++ String Csv.dquote (", then" ++ Csv.crlf ++ "bye")).
Definition sample_row : row :=
  mkRow 1 "a,b" sample_note 100 "2024-01-01T12:00:00.123456".

(** *** What the commands come to *)

(** The events of a command that ran one statement and replied once. *)
Definition ran (sql : option statement) (reply : event) (before : list event)
  : list event :=
  Close :: Commit :: reply ::
  match sql with
  | Some q => Execute q :: Connect :: before
  | None => Connect :: before
  end.

Definition find_reply (rows : list row) : string :=
  match rows with
  | [] => "Không tìm thấy / No results."
  | _ => PyStr.join nl (map find_line rows)
  end.

(** The reply of [/export]. *)
Definition export_reply (chat : Z) (rows : list row) : event :=
  match rows with
  | [] => ReplyText chat "Không có UID / No UIDs."
  | _ => ReplyDocument chat (export_name chat) (Csv.export_text rows)
  end.

(** What it is for a command, run in a chat, to stay in that chat: two
    worlds that agree on the rows of the chat get the same result and the
    same replies, and are left agreeing on the chat; the rows of the other
    chats are where they were. *)
Definition stays_in_chat (h : Update * Context -> kwargs -> M value)
  (update : Update) (context : Context) (w1 w2 : World) : Prop :=
  let chat := effective_chat update in
  let out1 := h (update, context) no_kwargs w1 in
  let out2 := h (update, context) no_kwargs w2 in
  fst out1 = fst out2
  /\ log (snd out1) = log (snd out2)
  /\ own chat (disk (snd out1)) = own chat (disk (snd out2))
  /\ others chat (disk (snd out1)) = others chat (disk w1)
  /\ forall r2, In r2 (disk w1) -> chat_id r2 <> chat -> In r2 (disk (snd out1)).

(** What the extractor returns for an answer of the Graph API. *)
Definition resolved_id (o : http_outcome) : value :=
  match o with
  | Response status (Json (VDict d)) =>
      if status =? 200 then dict_get "id" d else VNone
  | _ => VNone
  end.

(** What the profile lookup returns for an answer of the Graph API. *)
Definition resolved_profile (o : http_outcome) : value :=
  match o with
  | Response status (Json v) => if status =? 200 then v else VNone
  | _ => VNone
  end.

(** No stored record has an empty uid. *)
Definition uids_nonempty (t : table) : Prop :=
  Forall (fun r => PyStr.nonempty (uid r) = true) t.

(** Whether a link gives a uid by the pattern. *)
Definition has_uid (url : string) : bool :=
  match Re.search_uid url with Some _ => true | None => false end.

(** ** Further measures *)

(** Every character of the text is in the class. *)
Fixpoint all_chars (f : ascii -> bool) (s : string) : bool :=
  match s with
  | String c s' => f c && all_chars f s'
  | EmptyString => true
  end.

(** The text does not go on with a character of the class. *)
Definition stops (f : ascii -> bool) (s : string) : bool :=
  match s with
  | String c _ => negb (f c)
  | EmptyString => true
  end.

(** The four ways a link the pattern recognises may begin. *)
Definition link_prefixes : list string :=
  ["https://www."; "https://"; "http://www."; "http://"].

(** What the uid pattern captures at a position: the run of pattern
    characters after [facebook.com/], or after [facebook.com/profile.php?id=]. *)
Definition captured (s g : string) : Prop :=
  PyStr.nonempty g = true /\ all_chars Re.uid_char g = true
  /\ exists b, stops Re.uid_char b = true
       /\ (s = ("facebook.com/" ++ g ++ b)%string
           \/ s = ("facebook.com/profile.php?id=" ++ g ++ b)%string).

(** The two inner steps of the link pattern, by name: the host, with the
    text matched so far in [pre], and the separator of the scheme before it. *)
Definition link_host (pre t : string) : option string :=
  match Re.literal "facebook.com/" t with
  | None => None
  | Some t3 =>
      match Re.plus_nonspace t3 with
      | Some (r, _) => Some (pre ++ "facebook.com/" ++ r)%string
      | None => None
      end
  end.

Definition link_scheme (pre t : string) : option string :=
  match Re.literal "://" t with
  | None => None
  | Some t1 =>
      match Re.literal "www." t1 with
      | Some t2 =>
          match link_host (pre ++ "://www.")%string t2 with
          | Some m => Some m
          | None => link_host (pre ++ "://")%string t1
          end
      | None => link_host (pre ++ "://")%string t1
      end
  end.

(** No white-space character stands in the text. *)
Definition spaceless (r : string) : Prop :=
  forall a p b, In p PyStr.whitespace -> r <> (a ++ p ++ b)%string.

(** A link as the link pattern matches it: one of the four beginnings,
    [facebook.com/], and a non-empty run without white space. *)
Definition link_shape (m : string) : Prop :=
  exists pre r,
    In pre link_prefixes
    /\ m = (pre ++ "facebook.com/" ++ r)%string
    /\ PyStr.nonempty r = true
    /\ all_chars Re.nonspace r = true
    /\ spaceless r.

(** The text of the message as [detect_facebook_link] reads it. *)
Definition text_of (update : Update) : string :=
  match message_text update with Some t => t | None => EmptyString end.

(** An event that neither replies nor runs a statement. *)
Definition quiet (e : event) : bool :=
  match e with
  | Connect | Commit | Close | HttpGet _ _ | LogWarning => true
  | Execute _ | ReplyText _ _ | ReplyDocument _ _ _ => false
  end.

(** [s.endswith(p)] *)
Fixpoint endswith (p s : string) : bool :=
  String.eqb p s
  || match s with
     | String _ s' => endswith p s'
     | EmptyString => false
     end.

(** The text does not begin with a white-space character. *)
Definition starts_clean (s : string) : bool :=
  forallb (fun p => negb (PyStr.startswith p s)) PyStr.whitespace.

(** The text does not end with a white-space character. *)
Definition ends_clean (s : string) : bool :=
  forallb (fun p => negb (endswith p s)) PyStr.whitespace.

(** The text has white space at neither end. *)
Definition trimmed (s : string) : bool := starts_clean s && ends_clean s.

(** The text begins with a whole character: it is not empty and its first
    byte goes on no character. *)
Definition begins_a_character (s : string) : bool :=
  match s with
  | String c _ => negb (PyStr.continues c)
  | EmptyString => false
  end.


(** ** The list of admins

    [ADMINS = [int(x.strip()) for x in os.getenv("ADMINS", "").split(",")
               if x.strip().isdigit()]], for a value that is ASCII text with
    entries of at most 4300 digits (beyond ASCII [isdigit] and [int] know
    more digits, and [int] turns away longer entries). *)

Module Env.

(** [s.split(c)]: the pieces between the occurrences of [c], at least one. *)
Fixpoint split (c : ascii) (s : string) : list string :=
  match s with
  | EmptyString => [EmptyString]
  | String d s' =>
      if Ascii.eqb c d then EmptyString :: split c s'
      else match split c s' with
           | x :: l => String d x :: l
           | [] => [String d EmptyString]
           end
  end.

(** [0-9] *)
Definition digit : ascii -> bool := Re.in_range 48 57.

(** [s.isdigit()]: at least one character, and digits only. *)
Definition isdigit (s : string) : bool :=
  PyStr.nonempty s && all_chars digit s.

(** The digits of a decimal literal: at least one digit, and single
    underscores only between digits.  [after_digit] says that the
    character before was a digit. *)
Fixpoint digits_ok (after_digit : bool) (s : string) : bool :=
  match s with
  | EmptyString => after_digit
  | String c s' =>
      if digit c then digits_ok true s'
      else Ascii.eqb c "_" && after_digit && digits_ok false s'
  end.

Fixpoint without (c : ascii) (s : string) : string :=
  match s with
  | String d s' => if Ascii.eqb c d then without c s' else String d (without c s')
  | EmptyString => EmptyString
  end.

(** [int(s)]: white space around the number is dropped, a sign may stand
    right before the digits, and anything else is a [ValueError]. *)
Definition int_of (s : string) : result Z :=
  let t := PyStr.strip s in
  let '(negative, body) :=
    match t with
    | String c b =>
        if Ascii.eqb c "-" then (true, b)
        else if Ascii.eqb c "+" then (false, b)
        else (false, t)
    | EmptyString => (false, t)
    end in
  if digits_ok false body then
    match NilEmpty.uint_of_string (without "_" body) with
    | Some d => Ok (if negative then - Z.of_uint d else Z.of_uint d)
    | None => Raise ValueError
    end
  else Raise ValueError.

(** The comprehension: the entries that pass the test, each turned into a
    number, from left to right; an entry that [int] turns away ends it. *)
Fixpoint ints_of (l : list string) : result (list Z) :=
  match l with
  | [] => Ok []
  | x :: l' =>
      if isdigit (PyStr.strip x) then
        match int_of (PyStr.strip x) with
        | Ok z =>
            match ints_of l' with
            | Ok r => Ok (z :: r)
            | Raise e => Raise e
            end
        | Raise e => Raise e
        end
      else ints_of l'
  end.

(** [os.getenv("ADMINS", "")] read as the list of admins; [env] is [None]
    when the variable is not set. *)
Definition parse_ADMINS (env : option string) : result (list Z) :=
  let text := match env with Some t => t | None => EmptyString end in
  ints_of (split "," text).

End Env.

(** ** The rest of the bot: the menu, the photo commands, the schema and
    the routing of [main]

    These handlers do what the events above cannot record (a photo, a
    keyboard, the answer to a button, a CREATE TABLE).  They run over a
    state with the same table and clock and a longer list of actions; a
    handler of the first part runs in it through [lift], its events kept in
    their order. *)

Inductive action : Type :=
| Did (e : event)
| ReplyPhoto (chat : Z) (photo : value)
| ReplyKeyboard (chat : Z) (text : string) (keyboard : list (list (string * string)))
| AnswerCallback
| ExecuteSchema (table_name : string).

(** The state: the table, the clock, and the actions so far, the newest
    first. *)
Record State : Type := mkState {
  rows : table;
  now : string;
  acts : list action
}.

Definition Run (A : Type) : Type := State -> result A * State.

Definition retR {A} (a : A) : Run A := fun s => (Ok a, s).

Definition raiseR {A} (e : exn) : Run A := fun s => (Raise e, s).

Definition bindR {A B} (m : Run A) (k : A -> Run B) : Run B :=
  fun s =>
    match m s with
    | (Ok a, s') => k a s'
    | (Raise e, s') => (Raise e, s')
    end.

Notation "x <~ m ;; k" := (bindR m (fun x => k))
  (at level 61, m at next level, right associativity).
Notation "m ;;; k" := (bindR m (fun _ => k))
  (at level 61, right associativity).

Definition try_finallyR {A} (m : Run A) (f : Run unit) : Run A :=
  fun s =>
    match m s with
    | (r, s') =>
        match f s' with
        | (Ok _, s'') => (r, s'')
        | (Raise e, s'') => (Raise e, s'')
        end
    end.

Definition emitR (a : action) : Run unit :=
  fun s => (Ok tt, mkState (rows s) (now s) (a :: acts s)).

(** The state after a handler of the first part ran from [s] and left the
    world [w], its log begun empty. *)
Definition widen (w : World) (s : State) : State :=
  mkState (disk w) (clock w) (map Did (log w) ++ acts s)%list.

(** A handler of the first part, run in the state. *)
Definition lift {A} (m : M A) : Run A :=
  fun s =>
    match m (mkWorld (rows s) (now s) []) with
    | (r, w) => (r, widen w s)
    end.

(** [with_db] around a function that runs in the state. *)
Definition with_db_wide {Args A} (func : Args -> Conn -> Run (A * Conn))
  (a : Args) (kw : kwargs) : Run A :=
  emitR (Did Connect) ;;;
  try_finallyR
    (match kw with
     | Some _ => raiseR TypeError
     | None =>
         rc <~ func a None ;;
         lift (commit (snd rc)) ;;;
         retR (fst rc)
     end)
    (emitR (Did Close)).

(** [init_db()]: the two CREATE TABLE IF NOT EXISTS statements, which
    change no row, and a commit of its own. *)
Definition init_db : unit -> kwargs -> Run value :=
  with_db_wide (fun _ conn =>
    emitR (ExecuteSchema "uids") ;;;
    emitR (ExecuteSchema "settings") ;;;
    lift (commit conn) ;;;
    retR (VNone, conn)).

(** [key in v] for a text [key]. *)
Fixpoint has_substring (p s : string) : bool :=
  String.prefix p s
  || match s with
     | String _ s' => has_substring p s'
     | EmptyString => false
     end.

Definition py_in (key : string) (v : value) : M bool :=
  match v with
  | VDict d => ret (existsb (fun kv => String.eqb (fst kv) key) d)
  | VStr s => ret (has_substring key s)
  | VList l =>
      ret (existsb (fun x => match x with
                             | VStr s => String.eqb s key
                             | _ => false
                             end) l)
  | VNone | VBool _ | VInt _ => raise TypeError
  end.

(** [v[key]] for a text [key], at the places of the source: on a
    dictionary the key is there each time, by the test made before; a text
    or a list takes no text as index, and the other values take none. *)
Definition py_item (v : value) (key : string) : M value :=
  match v with
  | VDict d => ret (dict_get key d)
  | _ => raise TypeError
  end.

(** The buttons of [/start], row by row: label and callback data. *)
Definition start_keyboard : list (list (string * string)) :=
  [[("📥 Lưu UID / Save UID", "menu_save");
    ("📤 Xuất CSV / Export CSV", "menu_export")];
   [("🔎 Tìm UID / Find UID", "menu_find");
    ("🗑️ Xoá UID / Delete UID", "menu_delete")];
   [("📊 Thống kê / Stats", "menu_thongke");
    ("⚙️ Cài đặt / Settings", "menu_settings")];
   [("ℹ️ Help / Help", "menu_help")]].

(** What an update is, for the routing: a command (its name in lower case,
    without the slash), a text that is no command, or a pressed button with
    its callback data. *)
Inductive arriving : Type :=
| ACommand (name : string)
| AText
| ACallback (data : string).

Section Wide.

Variable FB_ACCESS_TOKEN : option string.
Variable ADMINS : list Z.
Variable graph_api : string -> list (string * string) -> http_outcome.
(** [str(v)], as the f-strings and [str] of the source write a value. *)
Variable py_str : value -> string.

Definition start : Update * Context -> Run value :=
  fun '(update, context) =>
    init_db tt no_kwargs ;;;
    match message update with
    | Some _ =>
        emitR (ReplyKeyboard (effective_chat update)
                 "Xin chào! Chọn tác vụ từ menu / Choose an action:" start_keyboard)
    | None => raiseR AttributeError
    end ;;;
    retR VNone.

(** [cmd_export(q.message, context)] and [cmd_thongke(q.message, context)]:
    the wrapper of [admin_only] reads [update.effective_user] of what it is
    given, and a message has no such attribute. *)
Definition admin_only_on_message : Run value := raiseR AttributeError.

(** [menu_callback], for the callback data [data] of the pressed button.
    Its replies go to [q.message], the message that carries the keyboard,
    in the chat of the update. *)
Definition menu_callback (data : string) : Update * Context -> Run value :=
  fun '(update, context) =>
    let say (text : string) :=
      emitR (Did (ReplyText (effective_chat update) text)) ;;; retR VNone in
    emitR AnswerCallback ;;;
    if String.eqb data "menu_save" then
      say "Gửi 1 UID (hoặc UID|ghi chú) / Send 1 UID (or UID|note):"
    else if String.eqb data "menu_export" then
      if negb (is_admin ADMINS (effective_user update)) then
        say "🚫 Chỉ admin mới có thể xuất / Admins only."
      else admin_only_on_message
    else if String.eqb data "menu_find" then
      say "Dùng /find <chuỗi> để tìm UID / Use /find <text> to search UID."
    else if String.eqb data "menu_delete" then
      say "Dùng /delete <uid> để xóa / Use /delete <uid> to delete."
    else if String.eqb data "menu_thongke" then
      if negb (is_admin ADMINS (effective_user update)) then
        say "🚫 Chỉ admin mới được xem thống kê / Admins only."
      else admin_only_on_message
    else if String.eqb data "menu_settings" then
      say "Dùng /suathongbao để chỉnh nội dung thông báo cho chat này / Use /suathongbao to edit notification text."
    else if String.eqb data "menu_help" then
      say "Gõ /help để xem tất cả lệnh / Type /help for all commands."
    else retR VNone.

Definition cmd_getid : Update * Context -> Run value :=
  fun '(update, context) =>
    lift (reply_text update
            ("Chat id: " ++ PyStr.str_of_int (effective_chat update) ++ nl
             ++ "User id: " ++ PyStr.str_of_int (effective_user update))) ;;;
    retR VNone.

Definition cmd_help : Update * Context -> Run value :=
  fun '(update, context) =>
    lift (reply_text update
            "Các lệnh / Commands: /save /savelist /find /check /delete /deleteall (admin) /export (admin) /thongke (admin) /suathongbao /getid /layanh /checkinfo /help") ;;;
    retR VNone.

(** The condition of [cmd_layanh]: [info and 'picture' in info and 'data'
    in info['picture'] and info['picture']['data'].get('url')], from left
    to right; the url when it holds. *)
Definition picture_url (info : value) : M (option value) :=
  if negb (truthy info) then ret None else
  has_picture <- py_in "picture" info ;;
  if negb has_picture then ret None else
  picture <- py_item info "picture" ;;
  has_data <- py_in "data" picture ;;
  if negb has_data then ret None else
  picture' <- py_item info "picture" ;;
  data <- py_item picture' "data" ;;
  url <- py_get data "url" ;;
  if truthy url then ret (Some url) else ret None.

Definition fallback_picture (uid : string) : string :=
  "https://graph.facebook.com/" ++ uid ++ "/picture?type=large".

(** [update.message.reply_photo(photo=...)] *)
Definition reply_photo (update : Update) (photo : value) : Run unit :=
  match message update with
  | Some _ => emitR (ReplyPhoto (effective_chat update) photo)
  | None => raiseR AttributeError
  end.

Definition cmd_layanh : Update * Context -> Run value :=
  fun '(update, context) =>
    match args context with
    | [] =>
        lift (reply_text update "Dùng: /layanh <uid> / Use: /layanh <uid>") ;;;
        retR VNone
    | uid :: _ =>
        info <~ lift (try_get_fb_profile FB_ACCESS_TOKEN graph_api uid) ;;
        found <~ lift (picture_url info) ;;
        match found with
        | Some url =>
            name <~ lift (py_get info "name") ;;
            lift (reply_text update ("Name: " ++ py_str name)) ;;;
            reply_photo update url ;;;
            retR VNone
        | None =>
            reply_photo update (VStr (fallback_picture uid)) ;;;
            retR VNone
        end
    end.

Definition cmd_checkinfo : Update * Context -> Run value :=
  fun '(update, context) =>
    match args context with
    | [] =>
        lift (reply_text update "Dùng: /checkinfo <uid> / Use: /checkinfo <uid>") ;;;
        retR VNone
    | uid :: _ =>
        info <~ lift (try_get_fb_profile FB_ACCESS_TOKEN graph_api uid) ;;
        if negb (truthy info) then
          lift (reply_text update
                  "Không có thông tin (cần FB_ACCESS_TOKEN) / No info (FB_ACCESS_TOKEN needed)") ;;;
          retR VNone
        else
          lift (reply_text update (py_str info)) ;;;
          retR VNone
    end.

(** *** The routing of [main]

    The handlers are asked in the order in which [main] adds them, and the
    first that takes the update handles it.  A command goes to the command
    handler of its name; these come before the conversation, [cancel]
    among them.  The conversation comes before the link handler. *)
Definition standalone (name : string) : option (Update * Context -> Run value) :=
  let first (h : Update * Context -> kwargs -> M value) :=
    Some (fun uc => lift (h uc no_kwargs)) in
  if String.eqb name "start" then Some start
  else if String.eqb name "help" then Some cmd_help
  else if String.eqb name "getid" then Some cmd_getid
  else if String.eqb name "find" then first cmd_find
  else if String.eqb name "check" then first cmd_check
  else if String.eqb name "delete" then first cmd_delete
  else if String.eqb name "deleteall" then first (cmd_deleteall ADMINS)
  else if String.eqb name "export" then first (cmd_export ADMINS)
  else if String.eqb name "thongke" then first (cmd_thongke ADMINS)
  else if String.eqb name "suathongbao" then Some cmd_help
  else if String.eqb name "layanh" then Some cmd_layanh
  else if String.eqb name "checkinfo" then Some cmd_checkinfo
  else if String.eqb name "cancel" then Some (fun uc => lift (cmd_cancel uc))
  else None.

(** One update: the result of the handler that took it, the state of the
    conversation of the chat and the state after it; [None] when no handler
    takes the update. *)
Definition dispatch (st : conv_state) (kind : arriving) (update : Update)
  (context : Context) (s : State) : option (result value * conv_state * State) :=
  let outside (out : result value * State) := Some (fst out, st, snd out) in
  let conversation (k : incoming) :=
    match conv_save st k update context (mkWorld (rows s) (now s) []) with
    | Some (r, st', w) => Some (r, st', widen w s)
    | None => None
    end in
  match kind with
  | ACallback data => outside (menu_callback data (update, context) s)
  | ACommand name =>
      match standalone name with
      | Some h => outside (h (update, context) s)
      | None => conversation (Command name)
      end
  | AText =>
      match conversation Text with
      | Some x => Some x
      | None =>
          outside (lift (detect_facebook_link FB_ACCESS_TOKEN graph_api
                           (update, context) no_kwargs) s)
      end
  end.

End Wide.

(** The table only lost rows, if it changed. *)
Definition shrunk (t t' : table) : Prop := exists P, t' = filter P t.

(** An action that is a reply with a text, or the answer to the button. *)
Definition only_talk (a : action) : bool :=
  match a with
  | Did (ReplyText _ _) | AnswerCallback => true
  | _ => false
  end.

(** What the profile lookup comes to: nothing without a token, and with
    one what the answer of the Graph API holds. *)
Definition looked_up (FB : option string)
  (g : string -> list (string * string) -> http_outcome) (uid : string) : value :=
  match token FB with
  | None => VNone
  | Some tok =>
      resolved_profile
        (g ("https://graph.facebook.com/" ++ uid)%string
           [("access_token", tok);
            ("fields", "id,name,picture.width(800).height(800),cover")])
  end.

(** The request of the profile lookup, when there is a token. *)
Definition lookup_request (FB : option string) (uid : string) : list action :=
  match token FB with
  | None => []
  | Some tok =>
      [Did (HttpGet ("https://graph.facebook.com/" ++ uid)%string
              [("access_token", tok);
               ("fields", "id,name,picture.width(800).height(800),cover")])]
  end.

(** The key is one of the dictionary. *)
Definition has_key (key : string) (d : list (string * value)) : bool :=
  existsb (fun kv => String.eqb (fst kv) key) d.

(** An event that is a request or a warning. *)
Definition requests (e : event) : bool :=
  match e with
  | HttpGet _ _ | LogWarning => true
  | _ => false
  end.

(** How many connections the events open, and how many they close. *)
Fixpoint connects (es : list event) : nat :=
  match es with
  | [] => 0
  | Connect :: es' => S (connects es')
  | _ :: es' => connects es'
  end.

Fixpoint closes (es : list event) : nat :=
  match es with
  | [] => 0
  | Close :: es' => S (closes es')
  | _ :: es' => closes es'
  end.

(** The handlers that [with_db] wraps, but for [save_uid_to_db]. *)
Definition db_handlers (FB : option string) (ADMINS : list Z)
  (g : string -> list (string * string) -> http_outcome)
  : list (Update * Context -> kwargs -> M value) :=
  (scoped_commands ADMINS
   ++ [handle_save_single; detect_facebook_link FB g])%list.

(** From [w] to [w'] as many connections were closed as were opened. *)
Definition paired (w w' : World) : Prop :=
  exists es, log w' = (es ++ log w)%list /\ connects es = closes es.

(** * Proofs *)

(** ** Strings *)

Lemma append_assoc (a b c : string) : ((a ++ b) ++ c = a ++ (b ++ c))%string.
Proof.
  induction a as [|x a IH]; simpl; [reflexivity | now rewrite IH].
Qed.

Lemma append_empty_r (a : string) : (a ++ EmptyString = a)%string.
Proof.
  induction a as [|x a IH]; simpl; [reflexivity | now rewrite IH].
Qed.

Lemma snoc_append (a b : string) (c : ascii) :
  (Csv.snoc a c ++ b = a ++ String c b)%string.
Proof. unfold Csv.snoc. now rewrite append_assoc. Qed.

(** ** The CSV export read back *)

Module CsvFacts.
Import Csv.

Lemma classify_plain c : special c = false -> classify c = COther.
Proof.
  unfold special, classify. intros H.
  repeat (apply orb_false_iff in H; destruct H as [H ?]).
  now rewrite H, H0, H1, H2.
Qed.

Lemma classify_not_quote c : Ascii.eqb c dquote = false -> classify c <> CQuote.
Proof.
  unfold classify. intros H. rewrite H.
  destruct (Ascii.eqb c ","), (Ascii.eqb c cr), (Ascii.eqb c lf); discriminate.
Qed.

(** A run of plain characters goes into the field as it is. *)
Lemma read_bare f : forall fld rec rest,
  has_special f = false ->
  read Bare fld rec (f ++ rest) = read Bare (fld ++ f) rec rest.
Proof.
  induction f as [|c f IH]; intros fld rec rest H; simpl.
  - now rewrite append_empty_r.
  - simpl in H. apply orb_false_iff in H. destruct H as [Hc Hf].
    unfold step. rewrite (classify_plain c Hc). simpl.
    rewrite IH by assumption. now rewrite snoc_append.
Qed.

(** Inside the quotes the doubled quotes are read back as one, up to the
    closing quote. *)
Lemma read_quoted f : forall fld rec rest,
  read Quoted fld rec (double_quotes f ++ String dquote rest)
  = read QuoteSeen (fld ++ f) rec rest.
Proof.
  induction f as [|c f IH]; intros fld rec rest; simpl.
  - now rewrite append_empty_r.
  - destruct (Ascii.eqb c dquote) eqn:E.
    + apply Ascii.eqb_eq in E. subst c. simpl.
      rewrite IH. now rewrite snoc_append.
    + simpl. unfold step.
      pose proof (classify_not_quote c E) as N.
      destruct (classify c); try congruence; simpl;
        rewrite IH; now rewrite snoc_append.
Qed.

Lemma write_field_plain f : has_special f = false -> write_field f = f.
Proof. unfold write_field. now intros ->. Qed.

Lemma write_field_quoted f : has_special f = true ->
  write_field f = String dquote (double_quotes f ++ String dquote EmptyString).
Proof. unfold write_field. now intros ->. Qed.

(** A field and the comma after it, read at the start of a field. *)
Lemma read_field_comma st f rec rest :
  st = RecordStart \/ st = FieldStart ->
  read st EmptyString rec (write_field f ++ String "," rest)
  = read FieldStart EmptyString (rec ++ [f])%list rest.
Proof.
  intros Hst. destruct (has_special f) eqn:E.
  - rewrite (write_field_quoted f E). cbn [append].
    rewrite append_assoc. cbn [append].
    replace (read st EmptyString rec
               (String dquote (double_quotes f ++ String dquote (String "," rest))))
      with (read Quoted EmptyString rec
              (double_quotes f ++ String dquote (String "," rest)))
      by (destruct Hst; subst st; reflexivity).
    rewrite read_quoted. reflexivity.
  - rewrite (write_field_plain f E). destruct f as [|c f].
    + destruct Hst; subst st; reflexivity.
    + simpl in E. apply orb_false_iff in E. destruct E as [Hc Hf].
      cbn [append read]. 
      replace (step st EmptyString rec c)
        with (@nil (list string), (Bare, String c EmptyString, rec))
        by (unfold step; rewrite (classify_plain c Hc); destruct Hst; subst st; reflexivity).
      cbn [app]. rewrite read_bare by assumption. reflexivity.
Qed.

(** The last field of a record and the line terminator after it. *)
Lemma read_field_crlf f rec rest :
  read FieldStart EmptyString rec (write_field f ++ crlf ++ rest)
  = (rec ++ [f])%list :: read RecordStart EmptyString [] rest.
Proof.
  destruct (has_special f) eqn:E.
  - rewrite (write_field_quoted f E). cbn [append].
    rewrite append_assoc. cbn [append crlf].
    change (read FieldStart EmptyString rec
              (String dquote (double_quotes f ++ String dquote (String cr (String lf rest)))))
      with (read Quoted EmptyString rec
              (double_quotes f ++ String dquote (String cr (String lf rest)))).
    rewrite read_quoted. reflexivity.
  - rewrite (write_field_plain f E). destruct f as [|c f].
    + reflexivity.
    + simpl in E. apply orb_false_iff in E. destruct E as [Hc Hf].
      cbn [append read].
      replace (step FieldStart EmptyString rec c)
        with (@nil (list string), (Bare, String c EmptyString, rec))
        by (unfold step; now rewrite (classify_plain c Hc)).
      cbn [app]. rewrite read_bare by assumption. reflexivity.
Qed.

(** A row of three fields as the writer lays it out. *)
Lemma writerow3 a b c :
  writerow [a; b; c]
  = (write_field a ++ String "," (write_field b ++ String "," (write_field c ++ crlf)))%string.
Proof.
  unfold writerow, PyStr.join.
  replace (match a with
           | EmptyString =>
               String.concat "," (map write_field [a; b; c]) ++ crlf
           | String _ _ => String.concat "," (map write_field [a; b; c]) ++ crlf
           end)%string
    with (String.concat "," (map write_field [a; b; c]) ++ crlf)%string
    by (destruct a; reflexivity).
  cbn [map String.concat]. rewrite !append_assoc. reflexivity.
Qed.

(** One written row read back, at the start of a record. *)
Lemma read_row a b c rest :
  read RecordStart EmptyString [] (writerow [a; b; c] ++ rest)
  = [a; b; c] :: read RecordStart EmptyString [] rest.
Proof.
  rewrite writerow3.
  rewrite append_assoc. cbn [append]. rewrite read_field_comma by (now left).
  rewrite append_assoc. cbn [append]. rewrite read_field_comma by (now right).
  rewrite append_assoc. rewrite read_field_crlf. reflexivity.
Qed.

Lemma concat_cons (x : string) (l : list string) :
  String.concat EmptyString (x :: l) = (x ++ String.concat EmptyString l)%string.
Proof.
  destruct l; cbn [String.concat append]; [now rewrite append_empty_r | reflexivity].
Qed.

Lemma read_rows (rows : list row) :
  read RecordStart EmptyString []
    (String.concat EmptyString (map (fun r => writerow (fields_of r)) rows))
  = map fields_of rows.
Proof.
  induction rows as [|r rows IH].
  - reflexivity.
  - cbn [map]. rewrite concat_cons.
    change (fields_of r) with [uid r; note r; saved_at r].
    rewrite read_row. now rewrite IH.
Qed.

End CsvFacts.

(** ** The statements of the table *)

Module SqlFacts.
Import Sql.

(** A condition that implies [chat_id = ?] selects from the rows of the chat. *)
Lemma filter_own chat (P : row -> bool) t :
  (forall r, P r = true -> in_chat chat r = true) ->
  filter P (own chat t) = filter P t.
Proof.
  intros HP. unfold own. induction t as [|r t IH]; simpl; [reflexivity|].
  destruct (in_chat chat r) eqn:E; simpl.
  - now rewrite IH.
  - destruct (P r) eqn:EP; [|assumption].
    apply HP in EP. congruence.
Qed.

Lemma own_filter chat (P : row -> bool) t :
  own chat (filter P t) = filter P (own chat t).
Proof.
  unfold own. induction t as [|r t IH]; simpl; [reflexivity|].
  destruct (P r) eqn:EP, (in_chat chat r) eqn:E; simpl;
    rewrite ?EP, ?E, IH; reflexivity.
Qed.

(** A deletion that keeps every row outside the chat leaves the other
    chats as they were. *)
Lemma others_filter chat (P : row -> bool) t :
  (forall r, in_chat chat r = false -> P r = true) ->
  others chat (filter P t) = others chat t.
Proof.
  intros HP. unfold others. induction t as [|r t IH]; simpl; [reflexivity|].
  destruct (in_chat chat r) eqn:E; simpl.
  - destruct (P r); simpl; rewrite ?E; simpl; assumption.
  - rewrite (HP r E). simpl. rewrite E. simpl. now rewrite IH.
Qed.

Lemma is_uid_in_chat chat u r : is_uid chat u r = true -> in_chat chat r = true.
Proof. unfold is_uid, in_chat. intros H. now apply andb_true_iff in H. Qed.


Lemma select_find_own chat p1 p2 t :
  select_find chat p1 p2 t = select_find chat p1 p2 (own chat t).
Proof.
  unfold select_find. rewrite filter_own; [reflexivity|].
  intros r H. now apply andb_true_iff in H.
Qed.

Lemma select_count_own chat u t :
  select_count chat u t = select_count chat u (own chat t).
Proof.
  unfold select_count. rewrite filter_own; [reflexivity|].
  apply is_uid_in_chat.
Qed.

Lemma select_export_own chat t : select_export chat t = own chat t.
Proof. reflexivity. Qed.

Lemma select_stats_own chat t :
  select_stats chat t = select_stats chat (own chat t).
Proof.
  unfold select_stats. rewrite filter_own; [reflexivity | auto].
Qed.

Lemma rowcount_own chat u t :
  snd (delete_uid chat u t) = snd (delete_uid chat u (own chat t)).
Proof. exact (select_count_own chat u t). Qed.

Lemma own_delete_uid chat u t :
  own chat (fst (delete_uid chat u t)) = fst (delete_uid chat u (own chat t)).
Proof. apply own_filter. Qed.

Lemma others_delete_uid chat u t :
  others chat (fst (delete_uid chat u t)) = others chat t.
Proof.
  apply others_filter. intros r H. unfold is_uid. fold (in_chat chat r).
  now rewrite H.
Qed.

Lemma own_delete_all chat t : own chat (delete_all chat t) = [].
Proof.
  unfold own, delete_all. induction t as [|r t IH]; simpl; [reflexivity|].
  destruct (in_chat chat r) eqn:E; simpl; rewrite ?E; assumption.
Qed.

Lemma others_delete_all chat t : others chat (delete_all chat t) = others chat t.
Proof. apply others_filter. now intros r ->. Qed.








(** Every insertion adds a row: [n] insertions, [n] rows more that match. *)
Lemma count_insert chat u n ts t :
  select_count chat u (insert u n chat ts t) = select_count chat u t + 1.
Proof.
  unfold select_count, insert. rewrite filter_app, length_app. simpl.
  unfold is_uid at 2. simpl. rewrite Z.eqb_refl, String.eqb_refl. simpl. lia.
Qed.


End SqlFacts.

(** ** What the handlers come to *)

(** An update that has a message, taken apart. *)
Ltac sent :=
  match goal with
  | H : message ?u <> None |- _ =>
      destruct u as [? ? [?|]]; [clear H | cbn in H; congruence]
  end.

Section Runs.

Variable ADMINS : list Z.


Lemma is_admin_true user : In user ADMINS -> is_admin ADMINS user = true.
Proof.
  intros H. apply existsb_exists. exists user. split; [assumption | apply Z.eqb_refl].
Qed.

(** [admin_only] turns away whoever is not in the list, with one reply. *)
Lemma admin_only_rejects func update context k w :
  message update <> None ->
  is_admin ADMINS (effective_user update) = false ->
  admin_only ADMINS func (update, context) k w
  = (Ok VNone,
     mkWorld (disk w) (clock w)
       (ReplyText (effective_chat update) admin_rejection :: log w)).
Proof.
  intros Hm. unfold admin_only. cbv zeta. intros ->. sent. reflexivity.
Qed.

(** On an update without a message the reply of [admin_only] raises, and
    nothing else happens. *)
Lemma admin_only_unsent func update context k w :
  message update = None ->
  is_admin ADMINS (effective_user update) = false ->
  admin_only ADMINS func (update, context) k w = (Raise AttributeError, w).
Proof.
  intros Hm. unfold admin_only, reply_text. cbv zeta. intros ->.
  rewrite Hm. reflexivity.
Qed.

Lemma admin_only_passes func update context k :
  is_admin ADMINS (effective_user update) = true ->
  admin_only ADMINS func (update, context) k = func (update, context) k.
Proof.
  unfold admin_only. cbv zeta. intros ->. reflexivity.
Qed.

Lemma cmd_find_usage update w :
  message update <> None ->
  cmd_find (update, mkContext []) no_kwargs w
  = (Ok VNone,
     mkWorld (disk w) (clock w)
       (ran None (ReplyText (effective_chat update)
                    "Dùng: /find <chuỗi> / Use: /find <text>") (log w))).
Proof. intros Hm. sent. reflexivity. Qed.

Lemma cmd_find_run update a rest w :
  message update <> None ->
  let chat := effective_chat update in
  let pat := ("%" ++ PyStr.join " " (a :: rest) ++ "%")%string in
  cmd_find (update, mkContext (a :: rest)) no_kwargs w
  = (Ok VNone,
     mkWorld (disk w) (clock w)
       (ran (Some (SelectFind chat pat pat))
            (ReplyText chat (find_reply (Sql.select_find chat pat pat (disk w))))
            (log w))).
Proof.
  intros Hm chat pat. subst chat pat. sent.
  cbv [cmd_find with_db query view bind try_finally emit ret commit reply_text
       find_reply ran no_kwargs args disk clock log message effective_chat].
  destruct (Sql.select_find _ _ _ _); reflexivity.
Qed.

Lemma cmd_check_usage update w :
  message update <> None ->
  cmd_check (update, mkContext []) no_kwargs w
  = (Ok VNone,
     mkWorld (disk w) (clock w)
       (ran None (ReplyText (effective_chat update)
                    "Dùng: /check <uid> / Use: /check <uid>") (log w))).
Proof. intros Hm. sent. reflexivity. Qed.

Lemma cmd_check_run update u rest w :
  message update <> None ->
  let chat := effective_chat update in
  cmd_check (update, mkContext (u :: rest)) no_kwargs w
  = (Ok VNone,
     mkWorld (disk w) (clock w)
       (ran (Some (SelectCount chat u))
            (ReplyText chat (if Sql.select_count chat u (disk w) >? 0
                             then "Đã có / Exists." else "Chưa có / Not found."))
            (log w))).
Proof. intros Hm. sent. reflexivity. Qed.

Lemma cmd_delete_usage update w :
  message update <> None ->
  cmd_delete (update, mkContext []) no_kwargs w
  = (Ok VNone,
     mkWorld (disk w) (clock w)
       (ran None (ReplyText (effective_chat update)
                    "Dùng: /delete <uid> / Use: /delete <uid>") (log w))).
Proof. intros Hm. sent. reflexivity. Qed.

Lemma cmd_delete_run update u rest w :
  message update <> None ->
  let chat := effective_chat update in
  cmd_delete (update, mkContext (u :: rest)) no_kwargs w
  = (Ok VNone,
     mkWorld (fst (Sql.delete_uid chat u (disk w))) (clock w)
       (ran (Some (DeleteUid chat u))
            (ReplyText chat (if snd (Sql.delete_uid chat u (disk w)) >? 0
                             then "Đã xóa / Deleted."
                             else "Không tìm thấy UID / Not found."))
            (log w))).
Proof. intros Hm. sent. reflexivity. Qed.

Lemma cmd_deleteall_run update context w :
  message update <> None ->
  is_admin ADMINS (effective_user update) = true ->
  let chat := effective_chat update in
  cmd_deleteall ADMINS (update, context) no_kwargs w
  = (Ok VNone,
     mkWorld (Sql.delete_all chat (disk w)) (clock w)
       (ran (Some (DeleteAll chat))
            (ReplyText chat "Đã xoá tất cả UID trong chat / All UIDs removed.")
            (log w))).
Proof.
  intros Hm H chat. unfold cmd_deleteall. rewrite admin_only_passes by assumption.
  subst chat. sent. reflexivity.
Qed.

Lemma cmd_export_run update context w :
  message update <> None ->
  is_admin ADMINS (effective_user update) = true ->
  let chat := effective_chat update in
  cmd_export ADMINS (update, context) no_kwargs w
  = (Ok VNone,
     mkWorld (disk w) (clock w)
       (ran (Some (SelectExport chat))
            (export_reply chat (Sql.select_export chat (disk w))) (log w))).
Proof.
  intros Hm H chat. unfold cmd_export. rewrite admin_only_passes by assumption.
  subst chat. sent.
  cbv [with_db query view bind try_finally emit ret commit reply_text
       reply_document export_reply ran no_kwargs disk clock log
       message effective_chat].
  destruct (Sql.select_export _ _); reflexivity.
Qed.

Lemma cmd_thongke_run update context w :
  message update <> None ->
  is_admin ADMINS (effective_user update) = true ->
  let chat := effective_chat update in
  cmd_thongke ADMINS (update, context) no_kwargs w
  = (Ok VNone,
     mkWorld (disk w) (clock w)
       (ran (Some (SelectStats chat))
            (ReplyText chat (stats_text (fst (Sql.select_stats chat (disk w)))
                                        (snd (Sql.select_stats chat (disk w)))))
            (log w))).
Proof.
  intros Hm H chat. unfold cmd_thongke. rewrite admin_only_passes by assumption.
  subst chat. sent.
  cbv [with_db query view bind try_finally emit ret commit reply_text ran
       no_kwargs disk clock log message effective_chat].
  destruct (Sql.select_stats _ _); reflexivity.
Qed.

(** A decorated function called with [conn] raises before it runs, its
    connection opened and closed. *)
Lemma with_db_conn_raises {Args A} (func : Args -> Conn -> M (A * Conn)) a c w :
  with_db func a (Some c) w
  = (Raise TypeError, mkWorld (disk w) (clock w) (Close :: Connect :: log w)).
Proof. reflexivity. Qed.

(** On an update without a message a command raises where it would reply,
    or before: no transaction is committed, and every connection opened is
    closed.  What it does until then does not depend on the table. *)
Lemma scoped_unsent h update context kw :
  In h (scoped_commands ADMINS) ->
  message update = None ->
  exists e es,
    connects es = closes es
    /\ forall w, h (update, context) kw w
                 = (Raise e, mkWorld (disk w) (clock w) (es ++ log w)).
Proof.
  destruct update as [user chat [m|]]; [discriminate 2|]. intros Hin _.
  destruct context as [a]. simpl in Hin.
  assert (forall func : Update * Context -> kwargs -> M value,
            (exists e es, connects es = closes es
               /\ forall w, func (mkUpdate user chat None, mkContext a) kw w
                            = (Raise e, mkWorld (disk w) (clock w) (es ++ log w))) ->
            exists e es, connects es = closes es
               /\ forall w, admin_only ADMINS func
                              (mkUpdate user chat None, mkContext a) kw w
                            = (Raise e, mkWorld (disk w) (clock w) (es ++ log w)))
    as Guarded.
  { intros func Hf. destruct (is_admin ADMINS user) eqn:E.
    - destruct Hf as [e [es [Hb Hf]]]. exists e, es. split; [exact Hb|].
      intros w. rewrite admin_only_passes by exact E. apply Hf.
    - exists AttributeError, []. split; [reflexivity|].
      intros w. rewrite admin_only_unsent by (reflexivity || exact E).
      destruct w. reflexivity. }
  destruct Hin as [<-|[<-|[<-|[<-|[<-|[<-|[]]]]]]];
    try (apply Guarded);
    (destruct kw as [c|];
     [exists TypeError, [Close; Connect]; split; [reflexivity|];
      intros w; reflexivity|]).
  - destruct a as [|x a].
    + exists AttributeError, [Close; Connect]. split; [reflexivity|].
      intros w. reflexivity.
    + eexists AttributeError, [Close; Execute _; Connect]. split; [reflexivity|].
      intros w.
      cbv [cmd_find with_db query view bind try_finally emit ret raise commit
           reply_text args disk clock log message effective_chat app].
      destruct (Sql.select_find _ _ _ _); reflexivity.
  - destruct a as [|x a].
    + exists AttributeError, [Close; Connect]. split; [reflexivity|].
      intros w. reflexivity.
    + eexists AttributeError, [Close; Execute _; Connect]. split; [reflexivity|].
      intros w. reflexivity.
  - destruct a as [|x a].
    + exists AttributeError, [Close; Connect]. split; [reflexivity|].
      intros w. reflexivity.
    + eexists AttributeError, [Close; Execute _; Connect]. split; [reflexivity|].
      intros w. reflexivity.
  - eexists AttributeError, [Close; Execute _; Connect]. split; [reflexivity|].
    intros w. reflexivity.
  - eexists AttributeError, [Close; Execute _; Connect]. split; [reflexivity|].
    intros w.
    cbv [with_db query view bind try_finally emit ret raise commit reply_text
         reply_document disk clock log message effective_chat app].
    destruct (Sql.select_export _ _); reflexivity.
  - eexists AttributeError, [Close; Execute _; Connect]. split; [reflexivity|].
    intros w.
    cbv [with_db query view bind try_finally emit ret raise commit reply_text
         disk clock log message effective_chat app].
    destruct (Sql.select_stats _ _); reflexivity.
Qed.

End Runs.

(** ** The properties of the specification *)

(** *** Saving through a handler: the two decorated calls *)

(** A call of [save_uid_to_db] that passes [conn] never reaches the INSERT:
    its wrapper connects, fails on the second [conn], and closes. *)
Lemma save_uid_to_db_conn_raises a conn w :
  save_uid_to_db a (Some conn) w
  = (Raise TypeError,
     mkWorld (disk w) (clock w) (Close :: Connect :: log w)).
Proof. reflexivity. Qed.

(** Whatever the text, [handle_save_single] raises and stores nothing. *)
Lemma handle_save_single_raises update context t w :
  message_text update = Some t ->
  handle_save_single (update, context) no_kwargs w
  = (Raise TypeError,
     mkWorld (disk w) (clock w)
       (Close :: Close :: Connect :: Connect :: log w)).
Proof.
  intros H.
  cbv [handle_save_single with_db bind try_finally emit no_kwargs].
  rewrite H. destruct (parse_single t) as [u n].
  cbv [disk clock log]. rewrite save_uid_to_db_conn_raises. reflexivity.
Qed.

Lemma plus_nonempty f s r t :
  Re.plus f s = Some (r, t) -> PyStr.nonempty r = true.
Proof.
  unfold Re.plus. destruct (Re.span f s) as [[|c r'] t']; [discriminate|].
  intros H. injection H as <- _. reflexivity.
Qed.

Lemma uid_pattern_at_nonempty s g :
  Re.uid_pattern_at s = Some g -> PyStr.nonempty g = true.
Proof.
  unfold Re.uid_pattern_at.
  destruct (Re.literal "facebook.com/" s) as [t|]; [|discriminate].
  destruct (Re.plus Re.uid_char t) as [[g1 t1]|] eqn:E1;
    destruct (Re.literal "profile.php?id=" t) as [t'|];
    try destruct (Re.plus Re.uid_char t') as [[g2 t2]|] eqn:E2;
    intros H; try discriminate; injection H as <-;
    eauto using plus_nonempty.
Qed.

(** The pattern never captures an empty uid. *)
Lemma search_uid_nonempty s : forall g,
  Re.search_uid s = Some g -> PyStr.nonempty g = true.
Proof.
  induction s as [|c s IH]; intros g.
  - discriminate.
  - cbn [Re.search_uid].
    destruct (Re.uid_pattern_at (String c s)) as [g'|] eqn:E; intros H.
    + injection H as <-. now apply uid_pattern_at_nonempty in E.
    + now apply IH.
Qed.

(** Without a token, the loop over the links raises at the first link that
    gives a uid. *)
Lemma save_links_raises g update conn urls : forall saved w,
  existsb has_uid urls = true ->
  save_links None g update conn urls saved w
  = (Raise TypeError,
     mkWorld (disk w) (clock w) (Close :: Connect :: log w)).
Proof.
  induction urls as [|url urls IH]; intros saved w H; [discriminate|].
  simpl in H. cbn [save_links]. unfold bind at 1.
  unfold try_get_fb_uid_from_url, token. unfold has_uid in H at 1.
  destruct (Re.search_uid url) as [u|] eqn:E.
  - cbn [ret truthy]. rewrite (search_uid_nonempty url u E).
    unfold bind. rewrite save_uid_to_db_conn_raises. reflexivity.
  - cbn [ret truthy]. simpl in H. now apply IH.
Qed.

(** With a message, the link handler works on the text of the message. *)
Lemma detect_sent FB g update context w :
  message update <> None ->
  detect_facebook_link FB g (update, context) no_kwargs w
  = with_db (fun '(update, context) conn =>
      match Re.findall_links (text_of update) with
      | [] => ret (VNone, conn)
      | urls =>
          saved <- save_links FB g update conn urls [] ;;
          match saved with
          | [] => ret (VNone, conn)
          | _ =>
              names <- strings_of saved ;;
              reply_text update
                ("Tự động lưu UID / Auto-saved UIDs: " ++ PyStr.join ", " names) ;;
              ret (VNone, conn)
          end
      end) (update, context) no_kwargs w.
Proof. intros Hm. sent. reflexivity. Qed.

(** Without a message, it raises at its first line. *)
Lemma detect_unsent FB g update context w :
  message update = None ->
  detect_facebook_link FB g (update, context) no_kwargs w
  = (Raise AttributeError,
     mkWorld (disk w) (clock w) (Close :: Connect :: log w)).
Proof.
  intros Hm. cbv [detect_facebook_link with_db bind try_finally emit no_kwargs].
  rewrite Hm. reflexivity.
Qed.

(** Without a token, a message with a link that gives a uid makes
    [detect_facebook_link] raise: nothing is stored and nothing is replied. *)
Lemma detect_facebook_link_no_token g update context w :
  message update <> None ->
  existsb has_uid (Re.findall_links (text_of update)) = true ->
  detect_facebook_link None g (update, context) no_kwargs w
  = (Raise TypeError,
     mkWorld (disk w) (clock w)
       (Close :: Close :: Connect :: Connect :: log w)).
Proof.
  intros Hm H. rewrite detect_sent by assumption.
  cbv [with_db bind try_finally emit no_kwargs].
  destruct (Re.findall_links (text_of update)) as [|url urls]; [discriminate|].
  rewrite (save_links_raises g update None (url :: urls) [] _ H).
  reflexivity.
Qed.

(** C1 (as the code runs): the message
    [https://facebook.com/profile.php?id=12345] in chat 100, without a
    token.  The link is found and its UID is extracted, and the handler
    then raises [TypeError] out of [save_uid_to_db]: the table is as it
    was, and nothing is replied. *)
Theorem detect_facebook_link_raises :
  forall (g : string -> list (string * string) -> http_outcome)
         (user : Z) (context : Context) (w : World),
    let link := "https://facebook.com/profile.php?id=12345" in
    let update := mkUpdate user 100 (Some (mkMessage (Some link))) in
    Re.findall_links link = [link]
    /\ try_get_fb_uid_from_url None g link w = (Ok (VStr "12345"), w)
    /\ detect_facebook_link None g (update, context) no_kwargs w
       = (Raise TypeError,
          mkWorld (disk w) (clock w)
            (Close :: Close :: Connect :: Connect :: log w)).
Proof.
  intros g user context w link update.
  split; [reflexivity | split; reflexivity].
Qed.

(** C2 (as the code runs): in the state [AwaitingUidInput] the text goes to
    [handle_save_single], which raises [TypeError] out of [save_uid_to_db]:
    no record is stored, nothing is replied, and the conversation stays in
    [AwaitingUidInput].  The text [12345|friend] is read as uid [12345] and
    note [friend]. *)
Theorem conv_save_text_raises :
  forall (user chat : Z) (t : string) (context : Context) (w : World),
    parse_single "12345|friend" = ("12345", "friend")
    /\ conv_save AwaitingUidInput Text (mkUpdate user chat (Some (mkMessage (Some t)))) context w
       = Some (Raise TypeError, AwaitingUidInput,
               mkWorld (disk w) (clock w)
                 (Close :: Close :: Connect :: Connect :: log w)).
Proof.
  intros user chat t context w. split; [reflexivity|].
  unfold conv_save.
  rewrite (handle_save_single_raises (mkUpdate user chat (Some (mkMessage (Some t)))) context t w eq_refl).
  reflexivity.
Qed.

(** *** Scoping *)

Lemma others_In chat t t' r :
  others chat t' = others chat t ->
  In r t -> chat_id r <> chat -> In r t'.
Proof.
  intros H Hin Hneq.
  assert (In r (others chat t)) as Ho.
  { apply filter_In. split; [assumption|].
    unfold Sql.in_chat. apply negb_true_iff. now apply Z.eqb_neq. }
  rewrite <- H in Ho. apply filter_In in Ho. tauto.
Qed.

Ltac unchanged :=
  match goal with
  | Hown : own _ (disk ?w1) = own _ (disk ?w2), Hlog : log ?w1 = log ?w2 |- _ =>
      cbn [fst snd disk log]; rewrite ?Hlog;
      repeat split; intros; solve [reflexivity | assumption]
  end.

(** C3: a search, a check, a delete by uid, a delete of all, an export and
    the statistics, issued in chat A, neither see nor change a record of
    another chat: their result and replies are the same whatever the other
    chats hold, and every record of another chat is still there afterwards,
    unchanged. *)
Theorem chat_scoping :
  forall (ADMINS : list Z) (h : Update * Context -> kwargs -> M value)
         (update : Update) (context : Context) (w1 w2 : World),
    In h (scoped_commands ADMINS) ->
    own (effective_chat update) (disk w1) = own (effective_chat update) (disk w2) ->
    log w1 = log w2 ->
    stays_in_chat h update context w1 w2.
Proof.
  intros ADMINS h update [a] w1 w2 Hin Hown Hlog.
  destruct (message update) as [m|] eqn:Em.
  2: { destruct (scoped_unsent ADMINS h update (mkContext a) no_kwargs Hin Em)
         as [e [es [_ Hrun]]].
       unfold stays_in_chat. rewrite !Hrun. cbn [fst snd disk log]. rewrite Hlog.
       repeat split; auto. }
  assert (message update <> None) as Hm by congruence. clear m Em.
  assert (forall (P : Prop) t', others (effective_chat update) t'
            = others (effective_chat update) (disk w1) ->
          (others (effective_chat update) t'
            = others (effective_chat update) (disk w1) -> P) ->
          P /\ forall r2, In r2 (disk w1) -> chat_id r2 <> effective_chat update -> In r2 t')
    as Last.
  { intros P t' Ho HP. split; [auto|]. intros r2 Hr Hc. eapply others_In; eauto. }
  unfold stays_in_chat.
  simpl in Hin.
  destruct Hin as [<-|[<-|[<-|[<-|[<-|[<-|[]]]]]]].
  - (* cmd_find *)
    destruct a as [|x a].
    + rewrite !cmd_find_usage by assumption. unchanged.
    + rewrite !cmd_find_run by assumption. cbn [fst snd disk log].
      rewrite (SqlFacts.select_find_own _ _ _ (disk w1)),
              (SqlFacts.select_find_own _ _ _ (disk w2)), Hown, Hlog.
      repeat split; intros; solve [reflexivity | assumption].
  - (* cmd_check *)
    destruct a as [|x a].
    + rewrite !cmd_check_usage by assumption. unchanged.
    + rewrite !cmd_check_run by assumption. cbn [fst snd disk log].
      rewrite (SqlFacts.select_count_own _ _ (disk w1)),
              (SqlFacts.select_count_own _ _ (disk w2)), Hown, Hlog.
      repeat split; intros; solve [reflexivity | assumption].
  - (* cmd_delete *)
    destruct a as [|x a].
    + rewrite !cmd_delete_usage by assumption. unchanged.
    + rewrite !cmd_delete_run by assumption. cbn [fst snd disk log].
      rewrite (SqlFacts.rowcount_own _ _ (disk w1)),
              (SqlFacts.rowcount_own _ _ (disk w2)),
              !SqlFacts.own_delete_uid, Hown, Hlog.
      split; [reflexivity|]. split; [reflexivity|]. split; [reflexivity|].
      apply (Last _ _ (SqlFacts.others_delete_uid _ _ _)). auto.
  - (* cmd_deleteall *)
    destruct (is_admin ADMINS (effective_user update)) eqn:E.
    + rewrite !(cmd_deleteall_run ADMINS _ _ _ Hm E). cbn [fst snd disk log].
      rewrite !SqlFacts.own_delete_all, Hlog.
      split; [reflexivity|]. split; [reflexivity|]. split; [reflexivity|].
      apply (Last _ _ (SqlFacts.others_delete_all _ _)). auto.
    + unfold cmd_deleteall. rewrite !(admin_only_rejects ADMINS _ _ _ _ _ Hm E).
      unchanged.
  - (* cmd_export *)
    destruct (is_admin ADMINS (effective_user update)) eqn:E.
    + rewrite !(cmd_export_run ADMINS _ _ _ Hm E). cbn [fst snd disk log].
      rewrite !SqlFacts.select_export_own, Hown, Hlog.
      repeat split; intros; solve [reflexivity | assumption].
    + unfold cmd_export. rewrite !(admin_only_rejects ADMINS _ _ _ _ _ Hm E).
      unchanged.
  - (* cmd_thongke *)
    destruct (is_admin ADMINS (effective_user update)) eqn:E.
    + rewrite !(cmd_thongke_run ADMINS _ _ _ Hm E). cbn [fst snd disk log].
      rewrite (SqlFacts.select_stats_own _ (disk w1)),
              (SqlFacts.select_stats_own _ (disk w2)), Hown, Hlog.
      repeat split; intros; solve [reflexivity | assumption].
    + unfold cmd_thongke. rewrite !(admin_only_rejects ADMINS _ _ _ _ _ Hm E).
      unchanged.
Qed.

Lemma chat_scoping_witness :
  stays_in_chat cmd_delete (mkUpdate 7 100 (Some (mkMessage None))) (mkContext ["alice"])
    (mkWorld [mkRow 1 "alice" "" 100 "2024-01-01T12:00:00";
              mkRow 2 "alice" "" 200 "2024-01-01T12:00:01"] "" [])
    (mkWorld [mkRow 1 "alice" "" 100 "2024-01-01T12:00:00"] "" []).
Proof.
  apply (chat_scoping [7] cmd_delete); [simpl; tauto | reflexivity | reflexivity].
Defined.

(** *** Deleting a uid *)


(** *** The extractor *)



Ltac case_status :=
  match goal with |- context [?s =? 200] => destruct (s =? 200) end.

(** The value of a key in the bindings of a dictionary: its first binding. *)
Lemma dict_get_first key v d1 d2 :
  ~ In key (map fst d1) -> dict_get key (d1 ++ (key, v) :: d2) = v.
Proof.
  induction d1 as [|[k x] d1 IH]; cbn [app dict_get map fst In]; intros H.
  - now rewrite String.eqb_refl.
  - destruct (String.eqb k key) eqn:E.
    + apply String.eqb_eq in E. tauto.
    + apply IH. tauto.
Qed.

Lemma dict_get_absent key d : ~ In key (map fst d) -> dict_get key d = VNone.
Proof.
  induction d as [|[k x] d IH]; cbn [dict_get map fst In]; intros H; [reflexivity|].
  destruct (String.eqb k key) eqn:E.
  - apply String.eqb_eq in E. tauto.
  - apply IH. tauto.
Qed.

(** With a token, the extractor and the profile lookup return in every
    case, and what they return is read off the answer of the Graph API. *)
Lemma lookups_run (c : ascii) (tok' : string)
  (g : string -> list (string * string) -> http_outcome) (url uid : string) (w : World) :
  let tok := String c tok' in
  let out := try_get_fb_uid_from_url (Some tok) g url w in
  let prof := try_get_fb_profile (Some tok) g uid w in
  fst out
  = Ok (resolved_id (g "https://graph.facebook.com/v17.0/"
                       [("id", url); ("access_token", tok)]))
  /\ disk (snd out) = disk w
  /\ fst prof
     = Ok (resolved_profile
             (g ("https://graph.facebook.com/" ++ uid)%string
                [("access_token", tok);
                 ("fields", "id,name,picture.width(800).height(800),cover")]))
  /\ disk (snd prof) = disk w.
Proof.
  intros tok out prof. subst out prof tok.
  cbv [try_get_fb_uid_from_url try_get_fb_profile token PyStr.nonempty
       try_except bind sess_get emit ret raise resp_json py_get
       resolved_id resolved_profile].
  split; [|split; [|split]].
  - destruct (g _ _) as [| |status [v|]]; try reflexivity;
      case_status; try reflexivity; destruct v; reflexivity.
  - destruct (g _ _) as [| |status [v|]]; try reflexivity;
      case_status; try reflexivity; destruct v; reflexivity.
  - destruct (g _ _) as [| |status [v|]]; try reflexivity;
      case_status; reflexivity.
  - destruct (g _ _) as [| |status [v|]]; try reflexivity;
      case_status; reflexivity.
Qed.

(** C6: with a token, the extractor asks the Graph API once and returns in
    every case: no exception reaches the caller, and the table is not
    touched.  When the status is 200 and the body is a JSON object that has
    the field [id], it returns the value of that field; when the object has
    no such field, on a transport failure, on a timeout, on another status,
    on a body that is no JSON and on JSON that is no object it returns
    [None].  So for the body [{"name": "Zuck", "id": "4"}] it returns
    ["4"].  The profile lookup returns the decoded body on status 200 and
    [None] otherwise, in the same way. *)
Theorem extractor_never_raises :
  forall (c : ascii) (tok' : string)
         (g : string -> list (string * string) -> http_outcome)
         (url uid : string) (w : World),
    let tok := String c tok' in
    let answer := g "https://graph.facebook.com/v17.0/"
                    [("id", url); ("access_token", tok)] in
    let returns (v : value) :=
      fst (try_get_fb_uid_from_url (Some tok) g url w) = Ok v in
    let profile := g ("https://graph.facebook.com/" ++ uid)%string
                     [("access_token", tok);
                      ("fields", "id,name,picture.width(800).height(800),cover")] in
    let looks_up (v : value) :=
      fst (try_get_fb_profile (Some tok) g uid w) = Ok v in
    ((exists v, returns v)
     /\ disk (snd (try_get_fb_uid_from_url (Some tok) g url w)) = disk w)
    /\ (forall d1 d2 v,
          answer = Response 200 (Json (VDict (d1 ++ ("id", v) :: d2)%list)) ->
          ~ In "id" (map fst d1) -> returns v)
    /\ (forall d, answer = Response 200 (Json (VDict d)) ->
          ~ In "id" (map fst d) -> returns VNone)
    /\ (answer = TransportFailure \/ answer = Timeout -> returns VNone)
    /\ (forall status body, answer = Response status body ->
          status <> 200 -> returns VNone)
    /\ (answer = Response 200 Malformed -> returns VNone)
    /\ (forall v, answer = Response 200 (Json v) ->
          (forall d, v <> VDict d) -> returns VNone)
    /\ try_get_fb_uid_from_url (Some "token")
         (fun _ _ => Response 200
                       (Json (VDict [("name", VStr "Zuck"); ("id", VStr "4")])))
         "https://facebook.com/zuck" w
       = (Ok (VStr "4"),
          mkWorld (disk w) (clock w)
            (HttpGet "https://graph.facebook.com/v17.0/"
               [("id", "https://facebook.com/zuck"); ("access_token", "token")]
             :: log w))
    /\ ((exists v, looks_up v)
        /\ disk (snd (try_get_fb_profile (Some tok) g uid w)) = disk w)
    /\ (forall v, profile = Response 200 (Json v) -> looks_up v)
    /\ ((forall v, profile <> Response 200 (Json v)) -> looks_up VNone).
Proof.
  intros c tok' g url uid w tok answer returns profile looks_up.
  destruct (lookups_run c tok' g url uid w) as [Hout [Hdisk [Hprof Hpdisk]]].
  fold tok in Hout, Hdisk, Hprof, Hpdisk. fold answer in Hout. fold profile in Hprof.
  unfold returns, looks_up. rewrite Hout, Hprof.
  split; [split; [eauto | exact Hdisk]|].
  split; [intros d1 d2 v -> Hno; cbn; now rewrite dict_get_first|].
  split; [intros d -> Hno; cbn; now rewrite dict_get_absent|].
  split; [intros [-> | ->]; reflexivity|].
  split.
  { intros status body -> Hs. apply Z.eqb_neq in Hs.
    destruct body as [[]|]; cbn; rewrite ?Hs; reflexivity. }
  split; [intros ->; reflexivity|].
  split.
  { intros v -> Hv. destruct v; try reflexivity. now contradiction (Hv d). }
  split; [reflexivity|].
  split; [split; [eauto | exact Hpdisk]|].
  split; [intros v ->; reflexivity|].
  intros Hv. unfold resolved_profile.
  destruct profile as [| |status [v|]]; try reflexivity.
  destruct (status =? 200) eqn:E; [|reflexivity].
  apply Z.eqb_eq in E. subst status. now contradiction (Hv v).
Qed.

(** *** The privileged commands *)



(** *** The uid of a stored record *)

(** C8 as stated fails: the insert takes the empty text as a uid and stores
    it. *)
Lemma insert_accepts_empty_uid :
  save_uid_to_db (100, VStr EmptyString, EmptyString) no_kwargs
    (mkWorld [] "2024-01-01T12:00:00" [])
  = (Ok VNone,
     mkWorld [mkRow 1 EmptyString EmptyString 100 "2024-01-01T12:00:00"]
       "2024-01-01T12:00:00"
       [Close; Commit;
        Execute (InsertUid EmptyString EmptyString 100 "2024-01-01T12:00:00");
        Connect])
  /\ ~ uids_nonempty [mkRow 1 EmptyString EmptyString 100 "2024-01-01T12:00:00"].
Proof.
  split; [reflexivity|].
  intros H. inversion H as [|r t Hr Ht]. discriminate Hr.
Qed.

(** C8, amended: the insert stores the uid it is given, as given, in one
    new record of the chat, whatever the text, the empty one included; it
    never stores NULL, for [None] is refused and nothing is stored then.
    When the uid given is not empty and no stored record had an empty uid,
    none has one afterwards. *)
Theorem insert_keeps_uid :
  forall (chat : Z) (u n : string) (w : World),
    let new := mkRow (Sql.next_id (disk w)) u n chat (clock w) in
    save_uid_to_db (chat, VStr u, n) no_kwargs w
    = (Ok VNone,
       mkWorld (disk w ++ [new])%list (clock w)
         (Close :: Commit :: Execute (InsertUid u n chat (clock w))
          :: Connect :: log w))
    /\ uid new = u
    /\ save_uid_to_db (chat, VNone, n) no_kwargs w
       = (Raise IntegrityError,
          mkWorld (disk w) (clock w) (Close :: Connect :: log w))
    /\ (PyStr.nonempty u = true -> uids_nonempty (disk w) ->
        uids_nonempty (disk w ++ [new])%list)
    /\ (PyStr.nonempty u = false -> ~ uids_nonempty (disk w ++ [new])%list).
Proof.
  intros chat u n w new.
  split; [reflexivity|]. split; [reflexivity|]. split; [reflexivity|]. split.
  - intros Hu Hw. apply Forall_app. split; [assumption|].
    constructor; [exact Hu | constructor].
  - intros Hu Hall. apply Forall_app in Hall. destruct Hall as [_ Hnew].
    inversion Hnew as [|r t Hr Ht]. cbn [uid new] in Hr. congruence.
Qed.

(** *** The statistics *)

(** C9 (as the code runs): an admin asks for the statistics of chat 100,
    which holds one record saved at [2024-01-01T12:00:00.123456].  The reply
    has two lines, the count and the last time, and the time is written in
    full, microseconds included; [/find] cuts the same time to its first 19
    characters. *)
Theorem cmd_thongke_full_timestamp :
  forall (user : Z) (txt : option string) (context : Context)
         (clk : string) (lg : list event),
    let ts := "2024-01-01T12:00:00.123456" in
    let r := mkRow 1 "12345" EmptyString 100 ts in
    cmd_thongke [user] (mkUpdate user 100 (Some (mkMessage txt)), context) no_kwargs
      (mkWorld [r] clk lg)
    = (Ok VNone,
       mkWorld [r] clk
         (Close :: Commit
          :: ReplyText 100
               ("Tổng UID / Total UIDs: 1" ++ nl
                ++ "Lưu gần nhất / Last saved: 2024-01-01T12:00:00.123456")
          :: Execute (SelectStats 100) :: Connect :: lg))
    /\ PyStr.slice_to 19 ts = "2024-01-01T12:00:00"
    /\ find_line r = "12345 — - (saved:2024-01-01T12:00:00)".
Proof.
  intros user txt context clk lg ts r.
  split; [|split; reflexivity].
  rewrite cmd_thongke_run
    by first [discriminate | apply is_admin_true; cbn [effective_user]; now left].
  reflexivity.
Qed.

(** *** The export *)

Lemma reader_export_text (rows : list row) :
  Csv.reader (Csv.export_text rows) = Csv.header :: map Csv.fields_of rows.
Proof.
  unfold Csv.reader, Csv.export_text, Csv.header.
  rewrite CsvFacts.read_row. now rewrite CsvFacts.read_rows.
Qed.

(** C10: the text that [/export] writes for a chat reads back, with the
    reader of the dialect, as the row [uid, note, saved_at] followed by one
    row per record stored in the chat, in the order of the table, that
    holds the uid, the note and the time of the record as they are stored,
    whatever commas, quotes and line breaks they hold.  For an admin,
    [/export] sent as a message sends that text as the document
    [uids_<chat>.csv] when the chat has a record, and the reply that there
    is none otherwise. *)
Theorem export_round_trip :
  forall (ADMINS : list Z) (update : Update) (context : Context) (w : World),
    In (effective_user update) ADMINS ->
    message update <> None ->
    let chat := effective_chat update in
    let stored := filter (fun r => chat_id r =? chat) (disk w) in
    let tuples := map (fun r => [uid r; note r; saved_at r]) stored in
    Csv.reader (Csv.export_text stored) = ["uid"; "note"; "saved_at"] :: tuples
    /\ (forall r, In r stored <-> In r (disk w) /\ chat_id r = chat)
    /\ cmd_export ADMINS (update, context) no_kwargs w
       = (Ok VNone,
          mkWorld (disk w) (clock w)
            (Close :: Commit
             :: match stored with
                | [] => ReplyText chat "Không có UID / No UIDs."
                | _ => ReplyDocument chat ("uids_" ++ PyStr.str_of_int chat ++ ".csv")
                         (Csv.export_text stored)
                end
             :: Execute (SelectExport chat) :: Connect :: log w)).
Proof.
  intros ADMINS update context w Hadmin Hm chat stored tuples.
  split; [apply reader_export_text | split].
  - intros r. unfold stored. rewrite filter_In. now rewrite Z.eqb_eq.
  - rewrite cmd_export_run by (assumption || now apply is_admin_true). reflexivity.
Qed.

Lemma export_round_trip_witness :
  Csv.reader (Csv.export_text [sample_row])
  = [["uid"; "note"; "saved_at"];
     ["a,b"; sample_note; "2024-01-01T12:00:00.123456"]]
  /\ cmd_export [7]
       (mkUpdate 7 100 (Some (mkMessage (Some "/export"))), mkContext []) no_kwargs
       (mkWorld [sample_row; mkRow 2 "c" EmptyString 200 "2024-01-02T08:30:00"]
          EmptyString [])
     = (Ok VNone,
        mkWorld [sample_row; mkRow 2 "c" EmptyString 200 "2024-01-02T08:30:00"]
          EmptyString
          [Close; Commit;
           ReplyDocument 100 "uids_100.csv" (Csv.export_text [sample_row]);
           Execute (SelectExport 100); Connect]).
Proof.
  destruct (export_round_trip [7]
              (mkUpdate 7 100 (Some (mkMessage (Some "/export")))) (mkContext [])
              (mkWorld [sample_row; mkRow 2 "c" EmptyString 200 "2024-01-02T08:30:00"]
                 EmptyString []))
    as [Hread [_ Hrun]].
  - simpl. lia.
  - discriminate.
  - split; [exact Hread | exact Hrun].
Defined.

(** * Further properties of the code *)

(** ** The patterns *)

Module ReFacts.
Import Re.

Lemma literal_app p : forall s t, literal p s = Some t -> s = (p ++ t)%string.
Proof.
  induction p as [|c p IH]; intros s t H; simpl in H.
  - now injection H as <-.
  - destruct s as [|d s]; [discriminate|].
    destruct (Ascii.eqb c d) eqn:E; [|discriminate].
    apply Ascii.eqb_eq in E. subst d. simpl. f_equal. now apply IH.
Qed.

Lemma literal_here p t : literal p (p ++ t) = Some t.
Proof.
  induction p as [|c p IH]; simpl; [reflexivity|].
  now rewrite Ascii.eqb_refl.
Qed.

Lemma span_app f s : forall r t,
  span f s = (r, t) ->
  s = (r ++ t)%string /\ all_chars f r = true /\ stops f t = true.
Proof.
  induction s as [|c s IH]; intros r t H; simpl in H.
  - injection H as <- <-. auto.
  - destruct (f c) eqn:E.
    + destruct (span f s) as [r' t'] eqn:Es. injection H as <- <-.
      destruct (IH r' t' eq_refl) as [-> [Hr Ht]]. simpl. rewrite E. auto.
    + injection H as <- <-. simpl. rewrite E. auto.
Qed.

Lemma plus_app f s r t :
  plus f s = Some (r, t) ->
  s = (r ++ t)%string /\ PyStr.nonempty r = true
  /\ all_chars f r = true /\ stops f t = true.
Proof.
  unfold plus. destruct (span f s) as [r' t'] eqn:E.
  destruct r' as [|c r']; [discriminate|].
  intros H. injection H as <- <-.
  destruct (span_app f s _ _ E) as [Hs [Hr Ht]]. auto.
Qed.

Lemma plus_starts f c s : f c = true -> plus f (String c s) <> None.
Proof.
  intros H. unfold plus. simpl. rewrite H.
  destruct (span f s). discriminate.
Qed.

Lemma uid_pattern_at_captured s g : uid_pattern_at s = Some g -> captured s g.
Proof.
  unfold uid_pattern_at.
  destruct (literal "facebook.com/" s) as [t|] eqn:L; [|discriminate].
  apply literal_app in L.
  assert (forall g', match plus uid_char t with
                     | Some (g0, _) => Some g0 | None => None end = Some g' ->
                     captured s g') as Hwithout.
  { intros g' H. destruct (plus uid_char t) as [[g0 b]|] eqn:P; [|discriminate].
    injection H as <-. apply plus_app in P. destruct P as [-> [Hn [Ha Hs]]].
    repeat split; try assumption. exists b. split; [assumption|]. now left. }
  destruct (literal "profile.php?id=" t) as [t'|] eqn:L'; [|apply Hwithout].
  destruct (plus uid_char t') as [[g2 b]|] eqn:P; [|apply Hwithout].
  intros H. injection H as <-.
  apply literal_app in L'. apply plus_app in P. destruct P as [-> [Hn [Ha Hs]]].
  repeat split; try assumption. exists b. split; [assumption|]. right.
  subst s t. reflexivity.
Qed.

Lemma search_uid_captured s : forall g,
  search_uid s = Some g -> exists a t, s = (a ++ t)%string /\ captured t g.
Proof.
  induction s as [|c s IH]; intros g.
  - discriminate.
  - cbn [search_uid].
    destruct (uid_pattern_at (String c s)) as [g'|] eqn:E; intros H.
    + injection H as <-. exists EmptyString, (String c s).
      split; [reflexivity | now apply uid_pattern_at_captured].
    + destruct (IH g H) as [a [t [-> Ht]]].
      exists (String c a), t. split; [reflexivity | assumption].
Qed.

Lemma uid_pattern_at_here c b :
  uid_char c = true -> uid_pattern_at ("facebook.com/" ++ String c b) <> None.
Proof.
  intros H. unfold uid_pattern_at. rewrite literal_here.
  pose proof (plus_starts uid_char c b H) as P.
  destruct (plus uid_char (String c b)) as [[g0 t0]|]; [|congruence].
  destruct (literal "profile.php?id=" (String c b)) as [t'|];
    [destruct (plus uid_char t') as [[g2 t2]|]|]; discriminate.
Qed.

Lemma search_uid_later a : forall t, search_uid t <> None -> search_uid (a ++ t) <> None.
Proof.
  induction a as [|c a IH]; intros t H; [assumption|].
  cbn [append search_uid].
  destruct (uid_pattern_at (String c (a ++ t))); [discriminate | now apply IH].
Qed.

Lemma search_uid_here t : uid_pattern_at t <> None -> search_uid t <> None.
Proof.
  destruct t as [|c t]; cbn [search_uid]; intros H;
    destruct (uid_pattern_at _); congruence.
Qed.

End ReFacts.

(** X1: without a token the extractor never raises, makes no request and
    leaves the world as it is; what it returns is [None] or a text read off
    the link: a non-empty run of the characters [0-9A-Za-z._-], as long as
    the link has it, standing right after [facebook.com/] or after
    [facebook.com/profile.php?id=]. *)
Theorem extractor_reads_the_link :
  forall (g : string -> list (string * string) -> http_outcome)
         (url : string) (w : World),
    try_get_fb_uid_from_url None g url w = (Ok VNone, w)
    \/ exists u a t,
         try_get_fb_uid_from_url None g url w = (Ok (VStr u), w)
         /\ url = (a ++ t)%string /\ captured t u.
Proof.
  intros g url w. unfold try_get_fb_uid_from_url, token.
  destruct (Re.search_uid url) as [u|] eqn:E; [right | now left].
  destruct (ReFacts.search_uid_captured url u E) as [a [t [Hs Hc]]].
  exists u, a, t. auto.
Qed.

(** X2: without a token, a link that has [facebook.com/] followed by one of
    the characters [0-9A-Za-z._-] always gives a uid, whatever stands before
    and after. *)
Theorem extractor_finds_a_uid :
  forall (g : string -> list (string * string) -> http_outcome)
         (a b : string) (c : ascii) (w : World),
    Re.uid_char c = true ->
    exists u, try_get_fb_uid_from_url None g (a ++ "facebook.com/" ++ String c b) w
              = (Ok (VStr u), w)
              /\ PyStr.nonempty u = true.
Proof.
  intros g a b c w H. unfold try_get_fb_uid_from_url, token.
  pose proof (ReFacts.search_uid_later a _
                (ReFacts.search_uid_here _ (ReFacts.uid_pattern_at_here c b H))) as N.
  destruct (Re.search_uid (a ++ "facebook.com/" ++ String c b)) as [u|] eqn:E;
    [|congruence].
  exists u. split; [reflexivity|].
  destruct (ReFacts.search_uid_captured _ u E) as [a' [t [_ [Hn _]]]]. exact Hn.
Qed.

Lemma extractor_finds_a_uid_witness :
  exists u, try_get_fb_uid_from_url None (fun _ _ => Timeout)
              ("see https://www." ++ "facebook.com/" ++ String "z" "uck?ref=1")
              (mkWorld [] "" [])
            = (Ok (VStr u), mkWorld [] "" [])
            /\ PyStr.nonempty u = true.
Proof.
  apply (extractor_finds_a_uid (fun _ _ => Timeout) "see https://www." "uck?ref=1" "z").
  reflexivity.
Defined.

(** ** White space *)

Module SpaceFacts.
Import PyStr.

Lemma whitespace_nonempty p : In p whitespace -> nonempty p = true.
Proof.
  assert (forallb nonempty whitespace = true) as F by reflexivity.
  rewrite forallb_forall in F. apply F.
Qed.

(** No white-space character has a [|] among its bytes. *)
Lemma whitespace_no_bar p : In p whitespace -> contains "|" p = false.
Proof.
  assert (forallb (fun p => negb (contains "|" p)) whitespace = true) as F
    by reflexivity.
  rewrite forallb_forall in F. intros H. apply negb_true_iff. now apply F.
Qed.

(** No white-space character begins with a digit. *)
Lemma whitespace_no_digit p a p' :
  In p whitespace -> p = String a p' -> Env.digit a = false.
Proof.
  assert (forallb (fun p => match p with
                            | String a _ => negb (Env.digit a)
                            | EmptyString => false
                            end) whitespace = true) as F by reflexivity.
  rewrite forallb_forall in F. intros H ->. apply negb_true_iff. now apply (F _ H).
Qed.

(** The white space of one byte is in the list. *)
Lemma isspace_listed c : isspace c = true -> In (String c EmptyString) whitespace.
Proof.
  intros H.
  assert (is_space (String c EmptyString) = true) as E.
  { destruct c as [[] [] [] [] [] [] [] []]; try discriminate H; reflexivity. }
  apply existsb_exists in E. destruct E as [p [Hp E]].
  apply String.eqb_eq in E. now subst p.
Qed.

Lemma startswith_self p x : startswith p (p ++ x) = true.
Proof.
  induction p as [|a p IH]; [reflexivity|].
  cbn [append startswith]. now rewrite Ascii.eqb_refl.
Qed.

Lemma startswith_app p : forall a z,
  startswith p a = true -> startswith p (a ++ z) = true.
Proof.
  induction p as [|c p IH]; intros a z H; [reflexivity|].
  destruct a as [|d a]; [discriminate H|].
  cbn [append startswith] in *. apply andb_true_iff in H. destruct H as [-> H].
  now apply IH.
Qed.

(** A text that goes on with a character after [u] begins as [u] does, as
    far as a text without that character can tell. *)
Lemma startswith_before c p : forall u n,
  contains c p = false -> startswith p (u ++ String c n) = startswith p u.
Proof.
  induction p as [|a p IH]; intros u n H; [reflexivity|].
  cbn [contains] in H. apply orb_false_iff in H. destruct H as [Ha Hp].
  destruct u as [|d u]; cbn [append startswith].
  - now rewrite Ascii.eqb_sym, Ha.
  - now rewrite (IH u n Hp).
Qed.

Lemma starts_clean_none s : starts_clean s = true <-> space_at s = None.
Proof.
  unfold starts_clean, space_at. split; intros H.
  - destruct (find _ whitespace) as [p|] eqn:E; [|reflexivity].
    apply find_some in E. destruct E as [Hin Hp].
    rewrite forallb_forall in H. specialize (H p Hin). now rewrite Hp in H.
  - apply forallb_forall. intros p Hin. apply negb_true_iff.
    exact (find_none _ _ H p Hin).
Qed.

Lemma space_at_listed p x : In p whitespace -> space_at (p ++ x) <> None.
Proof.
  intros Hin H. pose proof (find_none _ _ H p Hin) as E. cbn beta in E.
  now rewrite startswith_self in E.
Qed.

End SpaceFacts.

Module LinkFacts.
Import Re ReFacts.

(** The run of [[^\s]*]: no white-space character begins inside it. *)
Lemma span_nonspace_app s : forall r t,
  span_nonspace s = (r, t) ->
  s = (r ++ t)%string
  /\ forall a z, r = (a ++ z)%string -> z <> EmptyString ->
       PyStr.space_at (z ++ t) = None.
Proof.
  induction s as [|c s IH]; intros r t H; cbn [span_nonspace] in H.
  - injection H as <- <-. split; [reflexivity|].
    intros a z Hr Hz. destruct a, z; try discriminate. congruence.
  - destruct (PyStr.space_at (String c s)) eqn:E.
    + injection H as <- <-. split; [reflexivity|].
      intros a z Hr Hz. destruct a, z; try discriminate. congruence.
    + destruct (span_nonspace s) as [r' t'] eqn:Es. injection H as <- <-.
      destruct (IH r' t' eq_refl) as [-> Hin]. split; [reflexivity|].
      intros a z Hr Hz. destruct a as [|d a]; cbn [append] in Hr.
      * subst z. exact E.
      * injection Hr as _ Hr. now apply (Hin a z).
Qed.

Lemma spaceless_tail c r : spaceless (String c r) -> spaceless r.
Proof.
  intros H a p b Hp ->. now apply (H (String c a) p b Hp).
Qed.

(** A text without a white-space character has no byte of white space. *)
Lemma spaceless_bytes r : spaceless r -> all_chars nonspace r = true.
Proof.
  induction r as [|c r IH]; intros H; [reflexivity|].
  cbn [all_chars]. rewrite (IH (spaceless_tail c r H)), andb_true_r.
  unfold nonspace. apply negb_true_iff.
  destruct (PyStr.isspace c) eqn:E; [|reflexivity].
  apply SpaceFacts.isspace_listed in E.
  now contradiction (H EmptyString (String c EmptyString) r E).
Qed.

Lemma plus_nonspace_app s r t :
  plus_nonspace s = Some (r, t) ->
  s = (r ++ t)%string /\ PyStr.nonempty r = true
  /\ all_chars nonspace r = true /\ spaceless r.
Proof.
  unfold plus_nonspace. destruct (span_nonspace s) as [r' t'] eqn:E.
  destruct r' as [|c r']; [discriminate|].
  intros H. injection H as <- <-.
  destruct (span_nonspace_app s _ _ E) as [Hs Hin].
  assert (spaceless (String c r')) as Hfree.
  { intros a p b Hp Hr.
    assert ((p ++ b)%string <> EmptyString) as Hz.
    { pose proof (SpaceFacts.whitespace_nonempty p Hp). now destruct p. }
    pose proof (Hin a (p ++ b)%string Hr Hz) as N.
    rewrite append_assoc in N.
    exact (SpaceFacts.space_at_listed p (b ++ t')%string Hp N). }
  repeat split; auto. now apply spaceless_bytes.
Qed.

Lemma link_pattern_at_steps s :
  link_pattern_at s
  = match literal "http" s with
    | None => None
    | Some t0 =>
        match literal "s" t0 with
        | Some t =>
            match link_scheme "https" t with
            | Some m => Some m
            | None => link_scheme "http" t0
            end
        | None => link_scheme "http" t0
        end
    end.
Proof. reflexivity. Qed.

(** What is matched from the host on: the match, written after [pre], and
    the text left. *)
Lemma link_host_shape pre t m :
  link_host pre t = Some m ->
  exists r b, m = (pre ++ "facebook.com/" ++ r)%string
              /\ t = ("facebook.com/" ++ r ++ b)%string
              /\ PyStr.nonempty r = true /\ all_chars nonspace r = true
              /\ spaceless r.
Proof.
  unfold link_host.
  destruct (literal "facebook.com/" t) as [t3|] eqn:L; [|discriminate].
  destruct (plus_nonspace t3) as [[r b]|] eqn:P; [|discriminate].
  intros H. injection H as <-.
  apply literal_app in L. apply plus_nonspace_app in P.
  destruct P as [-> [Hn [Ha Hs]]].
  exists r, b. auto.
Qed.

Lemma link_scheme_shape pre t m :
  link_scheme pre t = Some m ->
  exists sep r b,
    (sep = "://www." \/ sep = "://")
    /\ m = ((pre ++ sep) ++ "facebook.com/" ++ r)%string
    /\ t = (sep ++ "facebook.com/" ++ r ++ b)%string
    /\ PyStr.nonempty r = true /\ all_chars nonspace r = true
    /\ spaceless r.
Proof.
  unfold link_scheme.
  destruct (literal "://" t) as [t1|] eqn:L1; [|discriminate].
  apply literal_app in L1. subst t.
  assert (forall m', link_host (pre ++ "://") t1 = Some m' ->
            exists sep r b,
              (sep = "://www." \/ sep = "://")
              /\ m' = ((pre ++ sep) ++ "facebook.com/" ++ r)%string
              /\ ("://" ++ t1)%string = (sep ++ "facebook.com/" ++ r ++ b)%string
              /\ PyStr.nonempty r = true /\ all_chars nonspace r = true
              /\ spaceless r) as Plain.
  { intros m' H. apply link_host_shape in H.
    destruct H as [r [b [-> [-> [Hn [Ha Hs]]]]]].
    exists "://", r, b. repeat split; auto. }
  destruct (literal "www." t1) as [t2|] eqn:L2; [|apply Plain].
  destruct (link_host (pre ++ "://www.") t2) as [m1|] eqn:H1; [|apply Plain].
  intros H. injection H as <-.
  apply literal_app in L2. subst t1.
  apply link_host_shape in H1. destruct H1 as [r [b [-> [-> [Hn [Ha Hs]]]]]].
  exists "://www.", r, b. repeat split; auto.
Qed.

(** A match of the link pattern has the shape of a link, and stands at the
    head of the text. *)
Lemma link_pattern_at_shape s m :
  link_pattern_at s = Some m ->
  link_shape m /\ exists b, s = (m ++ b)%string.
Proof.
  rewrite link_pattern_at_steps.
  destruct (literal "http" s) as [t0|] eqn:L0; [|discriminate].
  apply literal_app in L0. subst s.
  assert (forall m', link_scheme "http" t0 = Some m' ->
            link_shape m'
            /\ exists b, ("http" ++ t0)%string = (m' ++ b)%string) as Plain.
  { intros m' H. apply link_scheme_shape in H.
    destruct H as [sep [r [b [Hsep [-> [-> [Hn [Ha Hs]]]]]]]].
    split.
    - exists ("http" ++ sep)%string, r. repeat split; auto.
      unfold link_prefixes. destruct Hsep; subst sep; simpl; auto.
    - exists b.
      destruct Hsep; subst sep; cbn [append];
        rewrite ?append_assoc; reflexivity. }
  destruct (literal "s" t0) as [t|] eqn:Ls; [|apply Plain].
  destruct (link_scheme "https" t) as [m1|] eqn:H1; [|apply Plain].
  intros H. injection H as <-.
  apply literal_app in Ls. subst t0.
  apply link_scheme_shape in H1.
  destruct H1 as [sep [r [b [Hsep [-> [-> [Hn [Ha Hs]]]]]]]].
  split.
  - exists ("https" ++ sep)%string, r. repeat split; auto.
    unfold link_prefixes. destruct Hsep; subst sep; simpl; auto.
  - exists b.
    destruct Hsep; subst sep; cbn [append];
      rewrite ?append_assoc; reflexivity.
Qed.

(** Every match that [findall] returns stands in the text. *)
Lemma findall_from_shape s : forall skip m,
  In m (findall_from skip s) ->
  link_shape m /\ exists a b, s = (a ++ m ++ b)%string.
Proof.
  induction s as [|c s IH]; intros skip m H; [contradiction|].
  cbn [findall_from] in H.
  assert (forall k, In m (findall_from k s) ->
            link_shape m /\ exists a b, String c s = (a ++ m ++ b)%string) as Later.
  { intros k Hk. destruct (IH k m Hk) as [Hm [a [b ->]]].
    split; [assumption|]. now exists (String c a), b. }
  destruct skip as [|k]; [|now apply (Later k)].
  destruct (link_pattern_at (String c s)) as [m'|] eqn:E; [|now apply (Later 0%nat)].
  destruct H as [<- | H]; [|exact (Later _ H)].
  apply link_pattern_at_shape in E. destruct E as [Hm [b Hs]].
  split; [assumption|]. exists EmptyString, b. exact Hs.
Qed.

End LinkFacts.

(** X3: every link that the scan of a message finds is a piece of the
    message that begins with [http://] or [https://], then maybe [www.],
    then [facebook.com/], and goes on with at least one character, none of
    them white space, of ASCII or beyond. *)
Theorem found_links_shape :
  forall (text m : string),
    In m (Re.findall_links text) ->
    link_shape m /\ exists a b, text = (a ++ m ++ b)%string.
Proof.
  intros text m H. now apply (LinkFacts.findall_from_shape text 0%nat).
Qed.

Lemma found_links_shape_witness :
  link_shape "https://facebook.com/zuck"
  /\ exists a b, "see https://facebook.com/zuck now"
                 = (a ++ "https://facebook.com/zuck" ++ b)%string.
Proof.
  apply (found_links_shape "see https://facebook.com/zuck now").
  vm_compute. now left.
Defined.

(** ** Links in ordinary messages *)

(** X4: a message in which the scan finds no link (or that has no text) is
    passed over in silence, with or without a token: the handler returns
    [None], runs no statement, makes no request and sends nothing; it only
    opens, commits and closes its connection, and the table is as it was. *)
Theorem ingestion_silence :
  forall (FB : option string) (g : string -> list (string * string) -> http_outcome)
         (update : Update) (context : Context) (w : World),
    message update <> None ->
    Re.findall_links (text_of update) = [] ->
    detect_facebook_link FB g (update, context) no_kwargs w
    = (Ok VNone,
       mkWorld (disk w) (clock w) (Close :: Commit :: Connect :: log w)).
Proof.
  intros FB g update context w Hm H.
  rewrite detect_sent by assumption.
  cbv [with_db bind try_finally emit no_kwargs].
  rewrite H. reflexivity.
Qed.

Lemma ingestion_silence_witness :
  detect_facebook_link (Some "token") (fun _ _ => Timeout)
    (mkUpdate 7 100 (Some (mkMessage (Some "hello, http://example.com/facebook.com"))),
     mkContext [])
    no_kwargs (mkWorld [] "" [])
  = (Ok VNone, mkWorld [] "" [Close; Commit; Connect]).
Proof.
  apply (ingestion_silence (Some "token") (fun _ _ => Timeout)
           (mkUpdate 7 100
              (Some (mkMessage (Some "hello, http://example.com/facebook.com"))))
           (mkContext []) (mkWorld [] "" [])).
  - discriminate.
  - reflexivity.
Defined.

Section Ingestion.

Variable FB : option string.
Variable g : string -> list (string * string) -> http_outcome.

Lemma requests_quiet es :
  forallb requests es = true ->
  forallb quiet es = true /\ connects es = 0%nat /\ closes es = 0%nat.
Proof.
  induction es as [|e es IH]; [auto|]. cbn [forallb]. intros H.
  apply andb_true_iff in H. destruct H as [He Hes].
  destruct (IH Hes) as [H1 [H2 H3]].
  destruct e; try discriminate He; cbn; auto.
Qed.

Lemma connects_app a b : connects (a ++ b) = (connects a + connects b)%nat.
Proof.
  induction a as [|e a IH]; [reflexivity|]. destruct e; cbn; now rewrite ?IH.
Qed.

Lemma closes_app a b : closes (a ++ b) = (closes a + closes b)%nat.
Proof.
  induction a as [|e a IH]; [reflexivity|]. destruct e; cbn; now rewrite ?IH.
Qed.

(** The extractor returns in every case, and all it does is ask and warn. *)
Lemma extractor_quiet url w :
  exists v es,
    try_get_fb_uid_from_url FB g url w
    = (Ok v, mkWorld (disk w) (clock w) (es ++ log w))
    /\ forallb requests es = true.
Proof.
  unfold try_get_fb_uid_from_url.
  destruct (token FB) as [tok|].
  - cbv [try_except bind sess_get emit ret raise resp_json py_get].
    destruct (g _ _) as [| |status [v|]].
    + exists VNone, [LogWarning; HttpGet "https://graph.facebook.com/v17.0/"
                                  [("id", url); ("access_token", tok)]]. auto.
    + exists VNone, [LogWarning; HttpGet "https://graph.facebook.com/v17.0/"
                                  [("id", url); ("access_token", tok)]]. auto.
    + destruct (status =? 200).
      * destruct v;
          try (exists VNone, [LogWarning; HttpGet "https://graph.facebook.com/v17.0/"
                                         [("id", url); ("access_token", tok)]];
               split; reflexivity).
        exists (dict_get "id" d), [HttpGet "https://graph.facebook.com/v17.0/"
                                     [("id", url); ("access_token", tok)]]. auto.
      * exists VNone, [HttpGet "https://graph.facebook.com/v17.0/"
                         [("id", url); ("access_token", tok)]]. auto.
    + destruct (status =? 200).
      * exists VNone, [LogWarning; HttpGet "https://graph.facebook.com/v17.0/"
                                    [("id", url); ("access_token", tok)]]. auto.
      * exists VNone, [HttpGet "https://graph.facebook.com/v17.0/"
                         [("id", url); ("access_token", tok)]]. auto.
  - destruct (Re.search_uid url) as [u|]; [exists (VStr u), [] | exists VNone, []];
      destruct w; auto.
Qed.

(** The loop over the links keeps quiet and saves nothing: it comes to its
    end with the list it started with, or it raises [TypeError]. *)
Lemma save_links_quiet update conn urls : forall saved w,
  exists r es,
    save_links FB g update conn urls saved w
    = (r, mkWorld (disk w) (clock w) (es ++ log w))
    /\ (forallb quiet es = true /\ connects es = closes es)
    /\ (r = Ok saved \/ r = Raise TypeError).
Proof.
  induction urls as [|url urls IH]; intros saved w.
  - exists (Ok saved), []. destruct w. auto.
  - cbn [save_links]. unfold bind at 1.
    destruct (extractor_quiet url w) as [v [es [-> Hes]]].
    apply requests_quiet in Hes. destruct Hes as [Hes [Hc Hd]].
    destruct (truthy v).
    + unfold bind. rewrite save_uid_to_db_conn_raises. cbn [disk clock log].
      exists (Raise TypeError), (Close :: Connect :: es).
      repeat split; auto. cbn. now rewrite Hc, Hd.
    + destruct (IH saved (mkWorld (disk w) (clock w) (es ++ log w)))
        as [r [es' [-> [[Hes' Hb'] Hr]]]].
      cbn [disk clock log]. exists r, (es' ++ es)%list.
      rewrite app_assoc, forallb_app, Hes, Hes', connects_app, closes_app, Hc, Hd, Hb'.
      auto.
Qed.

End Ingestion.

(** X5: with or without a token, whatever the Graph API answers and
    whatever the update, the link handler never sends a reply, never runs a
    statement and never changes the table.  On a message it returns [None]
    or raises [TypeError]; on an update without a message it raises
    [AttributeError]. *)
Theorem ingestion_never_saves :
  forall (FB : option string) (g : string -> list (string * string) -> http_outcome)
         (update : Update) (context : Context) (w : World),
    let out := detect_facebook_link FB g (update, context) no_kwargs w in
    disk (snd out) = disk w
    /\ (exists es, log (snd out) = (es ++ log w)%list /\ forallb quiet es = true)
    /\ (message update <> None -> fst out = Ok VNone \/ fst out = Raise TypeError)
    /\ (message update = None -> fst out = Raise AttributeError).
Proof.
  intros FB g update context w out. subst out.
  destruct (message update) as [m|] eqn:Em.
  2: { rewrite detect_unsent by assumption. cbn.
       repeat split; try congruence. now exists [Close; Connect]. }
  assert (message update <> None) as Hm by congruence.
  rewrite detect_sent by assumption.
  cbv [with_db bind try_finally emit no_kwargs].
  destruct (Re.findall_links (text_of update)) as [|url urls].
  - cbn. repeat split; auto; try congruence. now exists [Close; Commit; Connect].
  - destruct (save_links_quiet FB g update None (url :: urls) []
                (mkWorld (disk w) (clock w) (Connect :: log w)))
      as [r [es [-> [[Hes _] [-> | ->]]]]]; cbn.
    + repeat split; auto; try congruence.
      exists (Close :: Commit :: es ++ [Connect])%list.
      split; [cbn; now rewrite <- app_assoc|].
      cbn. rewrite forallb_app, Hes. reflexivity.
    + repeat split; auto; try congruence.
      exists (Close :: es ++ [Connect])%list.
      split; [cbn; now rewrite <- app_assoc|].
      cbn. rewrite forallb_app, Hes. reflexivity.
Qed.

(** The loop over links none of which gives a uid saves nothing and leaves
    the world as it is. *)
Lemma save_links_none g update conn urls : forall saved w,
  existsb has_uid urls = false ->
  save_links None g update conn urls saved w = (Ok saved, w).
Proof.
  induction urls as [|url urls IH]; intros saved w H; [reflexivity|].
  simpl in H. apply orb_false_iff in H. destruct H as [Hu Hrest].
  cbn [save_links]. unfold bind at 1.
  unfold try_get_fb_uid_from_url, token. unfold has_uid in Hu.
  destruct (Re.search_uid url); [discriminate|].
  cbn [ret truthy]. now apply IH.
Qed.

(** X6: without a token, the link handler does one of two things with a
    message.  When no link of the message gives a uid by the pattern, it
    returns [None] in silence.  When one does, it raises [TypeError] at the
    first such link, before any INSERT: the table is not changed and no
    reply is sent. *)
Theorem ingestion_without_token :
  forall (g : string -> list (string * string) -> http_outcome)
         (update : Update) (context : Context) (w : World),
    message update <> None ->
    detect_facebook_link None g (update, context) no_kwargs w
    = if existsb has_uid (Re.findall_links (text_of update))
      then (Raise TypeError,
            mkWorld (disk w) (clock w)
              (Close :: Close :: Connect :: Connect :: log w))
      else (Ok VNone,
            mkWorld (disk w) (clock w) (Close :: Commit :: Connect :: log w)).
Proof.
  intros g update context w Hm.
  destruct (existsb has_uid (Re.findall_links (text_of update))) eqn:E.
  - now apply detect_facebook_link_no_token.
  - rewrite detect_sent by assumption.
    cbv [with_db bind try_finally emit no_kwargs].
    destruct (Re.findall_links (text_of update)) as [|url urls]; [reflexivity|].
    rewrite (save_links_none g update None (url :: urls) [] _ E). reflexivity.
Qed.

Lemma ingestion_without_token_witness :
  detect_facebook_link None (fun _ _ => Timeout)
    (mkUpdate 7 100 (Some (mkMessage (Some "see https://facebook.com/zuck now"))),
     mkContext [])
    no_kwargs (mkWorld [] "" [])
  = (Raise TypeError, mkWorld [] "" [Close; Close; Connect; Connect]).
Proof.
  apply (ingestion_without_token (fun _ _ => Timeout)
           (mkUpdate 7 100 (Some (mkMessage (Some "see https://facebook.com/zuck now"))))
           (mkContext []) (mkWorld [] "" [])).
  discriminate.
Defined.

(** ** The text of the save dialogue *)

Module StripFacts.
Import PyStr SpaceFacts.

(** What [lstrip] returns is the end of the text. *)
Lemma lstrip_from_suffix s : forall k, exists z, s = (z ++ lstrip_from k s)%string.
Proof.
  induction s as [|c s IH]; intros k; [now exists EmptyString|].
  cbn [lstrip_from].
  assert (forall j, exists z, String c s = (z ++ lstrip_from j s)%string) as Later.
  { intros j. destruct (IH j) as [z Hz]. exists (String c z).
    cbn [append]. now rewrite <- Hz. }
  destruct k as [|k]; [|apply Later].
  destruct (space_at (String c s)); [apply Later | now exists EmptyString].
Qed.

Lemma starts_clean_lstrip_from s : forall k, starts_clean (lstrip_from k s) = true.
Proof.
  induction s as [|c s IH]; intros k; [reflexivity|].
  cbn [lstrip_from]. destruct k as [|k]; [|apply IH].
  destruct (space_at (String c s)) eqn:E; [apply IH|].
  now apply starts_clean_none.
Qed.

Lemma starts_clean_lstrip s : starts_clean (lstrip s) = true.
Proof. apply starts_clean_lstrip_from. Qed.

Lemma lstrip_clean s : starts_clean s = true -> lstrip s = s.
Proof.
  intros H. apply starts_clean_none in H.
  destruct s as [|c s]; [reflexivity|].
  unfold lstrip. cbn [lstrip_from]. now rewrite H.
Qed.

(** What [rstrip] returns is the beginning of the text. *)
Lemma rstrip_prefix s : exists z, s = (rstrip s ++ z)%string.
Proof.
  induction s as [|c s [z Hz]]; [now exists EmptyString|].
  cbn [rstrip]. destruct (is_space (String c (rstrip s))).
  - now exists (String c s).
  - exists z. cbn [append]. now rewrite <- Hz.
Qed.

Lemma is_space_false s :
  is_space s = false -> forall p, In p whitespace -> String.eqb p s = false.
Proof.
  unfold is_space. intros H p Hin.
  destruct (String.eqb p s) eqn:E; [|reflexivity].
  assert (existsb (String.eqb s) whitespace = true) as T.
  { apply existsb_exists. exists p. split; [assumption|]. now rewrite String.eqb_sym. }
  congruence.
Qed.

Lemma ends_clean_cons c s :
  ends_clean (String c s) = true ->
  ends_clean s = true /\ is_space (String c s) = false.
Proof.
  unfold ends_clean, is_space. intros H. rewrite forallb_forall in H. split.
  - apply forallb_forall. intros p Hin. specialize (H p Hin).
    apply negb_true_iff in H. cbn [endswith] in H.
    apply orb_false_iff in H. destruct H as [_ H].
    apply negb_true_iff. destruct s; [|exact H].
    cbn [endswith]. rewrite orb_false_r.
    pose proof (whitespace_nonempty p Hin). now destruct p.
  - destruct (existsb _ whitespace) eqn:E; [|reflexivity].
    apply existsb_exists in E. destruct E as [p [Hin E]].
    specialize (H p Hin). apply negb_true_iff in H. cbn [endswith] in H.
    apply orb_false_iff in H. destruct H as [H _].
    rewrite String.eqb_sym in E. congruence.
Qed.

Lemma rstrip_clean s : ends_clean s = true -> rstrip s = s.
Proof.
  induction s as [|c s IH]; [reflexivity|]. intros H.
  apply ends_clean_cons in H. destruct H as [Hs Hc].
  cbn [rstrip]. rewrite (IH Hs), Hc. reflexivity.
Qed.

Lemma strip_trimmed s : trimmed s = true -> strip s = s.
Proof.
  unfold trimmed, strip. intros H. apply andb_true_iff in H. destruct H as [H1 H2].
  rewrite lstrip_clean by assumption. now apply rstrip_clean.
Qed.

Lemma starts_clean_rstrip s : starts_clean s = true -> starts_clean (rstrip s) = true.
Proof.
  unfold starts_clean. intros H. rewrite forallb_forall in H.
  apply forallb_forall. intros p Hin. specialize (H p Hin).
  apply negb_true_iff in H. apply negb_true_iff.
  destruct (startswith p (rstrip s)) eqn:E; [|reflexivity].
  destruct (rstrip_prefix s) as [z Hz].
  rewrite Hz, (startswith_app p _ z E) in H. discriminate H.
Qed.

Lemma ends_clean_rstrip s : ends_clean (rstrip s) = true.
Proof.
  induction s as [|c s IH]; [reflexivity|]. cbn [rstrip].
  destruct (is_space (String c (rstrip s))) eqn:E; [reflexivity|].
  unfold ends_clean in *. rewrite forallb_forall in IH.
  apply forallb_forall. intros p Hin. cbn [endswith].
  rewrite (is_space_false _ E p Hin). cbn [orb].
  specialize (IH p Hin). destruct (rstrip s); [|exact IH].
  cbn [endswith]. rewrite orb_false_r.
  pose proof (whitespace_nonempty p Hin). now destruct p.
Qed.

(** What [strip] returns has white space at neither end. *)
Lemma trimmed_strip s : trimmed (strip s) = true.
Proof.
  unfold trimmed, strip. apply andb_true_iff. split.
  - apply starts_clean_rstrip, starts_clean_lstrip.
  - apply ends_clean_rstrip.
Qed.

Lemma contains_append c a b : contains c (a ++ b) = contains c a || contains c b.
Proof.
  induction a as [|d a IH]; [reflexivity|].
  cbn [append contains]. now rewrite IH, orb_assoc.
Qed.

Lemma contains_lstrip c s : contains c s = false -> contains c (lstrip s) = false.
Proof.
  intros H. destruct (lstrip_from_suffix s 0) as [z Hz]. fold (lstrip s) in Hz.
  rewrite Hz, contains_append in H. now apply orb_false_iff in H.
Qed.

Lemma contains_rstrip c s : contains c s = false -> contains c (rstrip s) = false.
Proof.
  intros H. destruct (rstrip_prefix s) as [z Hz].
  rewrite Hz, contains_append in H. now apply orb_false_iff in H.
Qed.

Lemma contains_strip c s : contains c s = false -> contains c (strip s) = false.
Proof. intros H. now apply contains_rstrip, contains_lstrip. Qed.

Lemma split_once_left c s : contains c (fst (split_once c s)) = false.
Proof.
  induction s as [|d s IH]; [reflexivity|]. simpl.
  destruct (Ascii.eqb c d) eqn:E; [reflexivity|].
  destruct (split_once c s) as [l r]. simpl in *. now rewrite E.
Qed.

Lemma split_once_app c u n :
  contains c u = false -> split_once c (u ++ String c n) = (u, n).
Proof.
  induction u as [|d u IH]; simpl; intros H.
  - now rewrite Ascii.eqb_refl.
  - apply orb_false_iff in H. destruct H as [Hd Hu].
    rewrite Hd, (IH Hu). reflexivity.
Qed.

Lemma contains_app c u n : contains c (u ++ String c n) = true.
Proof.
  rewrite contains_append. cbn [contains]. rewrite Ascii.eqb_refl.
  apply orb_true_r.
Qed.

(** A text without [c] is not a text in which [c] stands. *)
Lemma eqb_without c p a n :
  contains c p = false -> String.eqb p (a ++ String c n) = false.
Proof.
  intros H. apply String.eqb_neq. intros ->. now rewrite contains_app in H.
Qed.

Lemma endswith_after c p n : forall u,
  contains c p = false ->
  endswith p (u ++ String c n) = endswith p n.
Proof.
  intros u Hc. induction u as [|d u IH]; cbn [append endswith].
  - pose proof (eqb_without c p EmptyString n Hc) as E. cbn [append] in E.
    now rewrite E.
  - pose proof (eqb_without c p (String d u) n Hc) as E. cbn [append] in E.
    rewrite E. exact IH.
Qed.

(** Two texts with a [|] between them: white space is at the ends of the
    whole where it is at the beginning of the one and at the end of the
    other. *)
Lemma trimmed_bar u n :
  starts_clean u = true -> ends_clean n = true ->
  trimmed (u ++ String "|" n) = true.
Proof.
  unfold trimmed, starts_clean, ends_clean. intros Hu Hn.
  rewrite forallb_forall in Hu, Hn.
  apply andb_true_iff. split; apply forallb_forall; intros p Hin.
  - rewrite (startswith_before "|" p u n (whitespace_no_bar p Hin)). now apply Hu.
  - rewrite (endswith_after "|" p n u (whitespace_no_bar p Hin)).
    now apply Hn.
Qed.

(** A white-space character does not begin with a [|], nor end at one. *)
Lemma is_space_bar r : is_space (String "|" r) = false.
Proof. reflexivity. Qed.

End StripFacts.

(** X7: a text [uid|note] whose two parts have white space at neither end,
    of ASCII or beyond, the uid without a [|], is read back as exactly that
    uid and that note. *)
Theorem parse_single_round_trip :
  forall (u n : string),
    trimmed u = true -> trimmed n = true -> PyStr.contains "|" u = false ->
    parse_single (u ++ "|" ++ n) = (u, n).
Proof.
  intros u n Hu Hn Hbar. unfold parse_single. cbn [append].
  pose proof Hu as Hu'. pose proof Hn as Hn'.
  apply andb_true_iff in Hu'. destruct Hu' as [Hu1 Hu2].
  apply andb_true_iff in Hn'. destruct Hn' as [Hn1 Hn2].
  rewrite (StripFacts.strip_trimmed (u ++ String "|" n))
    by (now apply StripFacts.trimmed_bar).
  rewrite StripFacts.contains_app, (StripFacts.split_once_app _ _ _ Hbar).
  now rewrite !StripFacts.strip_trimmed.
Qed.

Lemma parse_single_round_trip_witness :
  parse_single ("1000 12345" ++ "|" ++ "a friend | from school")
  = ("1000 12345", "a friend | from school").
Proof.
  apply (parse_single_round_trip "1000 12345" "a friend | from school");
    reflexivity.
Defined.

(** X8: whatever the text, the uid and the note that the dialogue reads off
    it have white space at neither end, and the uid has no [|] in it. *)
Theorem parse_single_trimmed :
  forall (t : string),
    trimmed (fst (parse_single t)) = true
    /\ trimmed (snd (parse_single t)) = true
    /\ PyStr.contains "|" (fst (parse_single t)) = false.
Proof.
  intros t. unfold parse_single.
  destruct (PyStr.contains "|" (PyStr.strip t)) eqn:E.
  - pose proof (StripFacts.split_once_left "|" (PyStr.strip t)) as L.
    destruct (PyStr.split_once "|" (PyStr.strip t)) as [l r]. cbn [fst snd] in *.
    repeat split; try apply StripFacts.trimmed_strip.
    now apply StripFacts.contains_strip.
  - cbn [fst snd]. split; [apply StripFacts.trimmed_strip|].
    split; [reflexivity | exact E].
Qed.

(** X9: a text whose first character that is not white space is [|] gives
    the empty uid: the dialogue does not turn it away. *)
Theorem parse_single_empty_uid :
  forall (t rest : string),
    PyStr.lstrip t = String "|" rest ->
    fst (parse_single t) = EmptyString.
Proof.
  intros t rest H. unfold parse_single, PyStr.strip. rewrite H.
  cbn [PyStr.rstrip]. rewrite StripFacts.is_space_bar.
  reflexivity.
Qed.

Lemma parse_single_empty_uid_witness :
  fst (parse_single "  | only a note ") = EmptyString.
Proof.
  apply (parse_single_empty_uid "  | only a note " " only a note ").
  reflexivity.
Defined.

(** ** Searching *)

Module LikeFacts.
Import Sql.

Lemma until_nul_app a b :
  PyStr.contains NUL a = false -> until_nul (a ++ b) = (a ++ until_nul b)%string.
Proof.
  induction a as [|c a IH]; [reflexivity|].
  cbn [PyStr.contains append until_nul]. intros H.
  apply orb_false_iff in H. destruct H as [Hc Ha].
  rewrite Ascii.eqb_sym, Hc, (IH Ha). reflexivity.
Qed.

Lemma until_nul_clean a : PyStr.contains NUL a = false -> until_nul a = a.
Proof.
  intros H. rewrite <- (append_empty_r a) at 1.
  rewrite (until_nul_app a EmptyString H). apply append_empty_r.
Qed.

(** At the end of the text the rest of the pattern is tried. *)
Lemma scan_end f : f EmptyString = true -> forall t inside, scan f inside t = true.
Proof.
  intros H. induction t as [|d t IH]; intros inside; cbn [scan]; [exact H|].
  destruct (inside && continuation d); [apply IH|].
  rewrite IH. apply orb_true_r.
Qed.

(** [%] may stand for any text in front of a whole character. *)
Lemma scan_later f t :
  f t = true ->
  match t with String d _ => continuation d = false | EmptyString => True end ->
  forall s inside, scan f inside (s ++ t) = true.
Proof.
  intros H Ht. induction s as [|c s IH]; intros inside; cbn [append].
  - destruct t as [|d t']; cbn [scan]; [exact H|].
    rewrite Ht, andb_false_r, H. reflexivity.
  - cbn [scan]. destruct (inside && continuation c); [apply IH|].
    rewrite IH. apply orb_true_r.
Qed.

Lemma scan_here f t : f t = true -> scan f false t = true.
Proof.
  intros H. destruct t as [|d t]; cbn [scan]; [exact H|].
  cbn [andb]. now rewrite H.
Qed.

(** A text matches itself as a pattern, whatever wildcards it holds. *)
Lemma like_literal q : forall p s,
  like_chars p s = true -> like_chars (q ++ p) (q ++ s) = true.
Proof.
  induction q as [|c q IH]; intros p s H; [exact H|].
  cbn [append like_chars].
  destruct (Ascii.eqb c "%") eqn:Ep.
  - apply Ascii.eqb_eq in Ep. subst c.
    cbn [scan andb]. change (lead "%") with false.
    rewrite (scan_here _ _ (IH p s H)). apply orb_true_r.
  - destruct (Ascii.eqb c "_") eqn:Eu.
    + apply Ascii.eqb_eq in Eu. subst c. cbn. now apply IH.
    + rewrite Ascii.eqb_refl. cbn [andb]. now apply IH.
Qed.

(** The pattern [%q%] matches every text in which [q] stands, where [q]
    begins with a whole character and no NUL comes before its end. *)
Lemma like_contains q a b :
  begins_a_character q = true ->
  PyStr.contains NUL (a ++ q) = false ->
  like ("%" ++ q ++ "%") (a ++ q ++ b) = true.
Proof.
  intros Hq Hnul. unfold like.
  rewrite StripFacts.contains_append in Hnul. apply orb_false_iff in Hnul.
  destruct Hnul as [Ha Hqn].
  rewrite (until_nul_app a _ Ha), (until_nul_app q _ Hqn).
  replace (until_nul ("%" ++ q ++ "%")) with ("%" ++ q ++ "%")%string.
  2: { symmetry. apply until_nul_clean. cbn [append PyStr.contains].
       rewrite StripFacts.contains_append, Hqn. reflexivity. }
  cbn [append like_chars]. cbn [Ascii.eqb Bool.eqb].
  apply scan_later.
  - apply like_literal. cbn [like_chars]. cbn [Ascii.eqb Bool.eqb].
    apply scan_end. reflexivity.
  - destruct q as [|d q]; [discriminate Hq|]. cbn [append].
    cbn [begins_a_character] in Hq. now apply negb_true_iff in Hq.
Qed.

End LikeFacts.

Lemma In_firstn {A} (x : A) n : forall l, In x (firstn n l) -> In x l.
Proof.
  induction n as [|n IH]; intros [|y l] H; simpl in *; try contradiction.
  destruct H as [H | H]; [now left | right; now apply IH].
Qed.

(** X10: [/find], sent as a message, lists every record of the chat in
    whose uid or note the words of the query stand as they were typed
    (joined by single blanks), when the chat holds at most 50 records, the
    query begins with a whole character and no NUL stands in the uid or
    note before the end of the words; characters [%] and [_] in the query
    do not prevent it.  The reply never lists more than 50 records, and
    only records of the chat. *)
Theorem find_lists_every_match :
  forall (update : Update) (x : string) (xs : list string) (w : World)
         (r : row) (a b : string),
    let chat := effective_chat update in
    let q := PyStr.join " " (x :: xs) in
    let pat := ("%" ++ q ++ "%")%string in
    message update <> None ->
    In r (disk w) -> chat_id r = chat ->
    (uid r = (a ++ q ++ b)%string \/ note r = (a ++ q ++ b)%string) ->
    begins_a_character q = true ->
    PyStr.contains Sql.NUL (a ++ q) = false ->
    (length (own chat (disk w)) <= 50)%nat ->
    exists rows,
      cmd_find (update, mkContext (x :: xs)) no_kwargs w
      = (Ok VNone,
         mkWorld (disk w) (clock w)
           (Close :: Commit
            :: ReplyText chat (PyStr.join nl (map find_line rows))
            :: Execute (SelectFind chat pat pat) :: Connect :: log w))
      /\ In r rows
      /\ (length rows <= 50)%nat
      /\ forall r', In r' rows -> In r' (disk w) /\ chat_id r' = chat.
Proof.
  intros update x xs w r a b chat q pat Hm Hin Hchat Hq Hwhole Hnul Hsmall.
  exists (Sql.select_find chat pat pat (disk w)).
  assert (In r (Sql.select_find chat pat pat (disk w))) as Hr.
  { unfold Sql.select_find.
    rewrite firstn_all2.
    - apply filter_In. split; [assumption|].
      unfold Sql.in_chat. rewrite Hchat, Z.eqb_refl. cbn [andb].
      unfold pat. destruct Hq as [-> | ->];
        rewrite LikeFacts.like_contains; auto using orb_true_r.
    - etransitivity; [|exact Hsmall].
      rewrite <- (SqlFacts.filter_own chat) by
        (intros r0 H0; now apply andb_true_iff in H0).
      apply filter_length_le. }
  split; [|split; [exact Hr | split]].
  - rewrite cmd_find_run by assumption.
    fold chat. fold q. fold pat. unfold ran, find_reply.
    destruct (Sql.select_find chat pat pat (disk w)); [contradiction | reflexivity].
  - unfold Sql.select_find. apply firstn_le_length.
  - intros r' H'. unfold Sql.select_find in H'. apply In_firstn in H'.
    apply filter_In in H'. destruct H' as [H1 H2].
    apply andb_true_iff in H2. destruct H2 as [H2 _].
    split; [assumption | now apply Z.eqb_eq in H2].
Qed.

Lemma find_lists_every_match_witness :
  exists rows,
    cmd_find (mkUpdate 7 100 (Some (mkMessage (Some "/find 50% off"))),
              mkContext ["50%"; "off"])
      no_kwargs
      (mkWorld [mkRow 1 "12345" "got 50% off here" 100 "2024-01-01T12:00:00"] "" [])
    = (Ok VNone,
       mkWorld [mkRow 1 "12345" "got 50% off here" 100 "2024-01-01T12:00:00"] ""
         [Close; Commit;
          ReplyText 100 (PyStr.join nl (map find_line rows));
          Execute (SelectFind 100 "%50% off%" "%50% off%"); Connect])
    /\ In (mkRow 1 "12345" "got 50% off here" 100 "2024-01-01T12:00:00") rows
    /\ (length rows <= 50)%nat
    /\ forall r', In r' rows ->
         In r' [mkRow 1 "12345" "got 50% off here" 100 "2024-01-01T12:00:00"]
         /\ chat_id r' = 100.
Proof.
  apply (find_lists_every_match
           (mkUpdate 7 100 (Some (mkMessage (Some "/find 50% off")))) "50%" ["off"]
           (mkWorld [mkRow 1 "12345" "got 50% off here" 100 "2024-01-01T12:00:00"] "" [])
           (mkRow 1 "12345" "got 50% off here" 100 "2024-01-01T12:00:00")
           "got " " here").
  - discriminate.
  - now left.
  - reflexivity.
  - now right.
  - reflexivity.
  - reflexivity.
  - simpl. lia.
Defined.

(** ** Storing, counting and clearing *)

Module StoreFacts.
Import Sql.





Lemma count_other chat u chat' u' n ts t :
  chat' <> chat \/ u' <> u ->
  select_count chat' u' (insert u n chat ts t) = select_count chat' u' t.
Proof.
  intros H. unfold select_count, insert. rewrite filter_app. simpl.
  replace (is_uid chat' u' (mkRow (next_id t) u n chat ts)) with false.
  - now rewrite app_nil_r.
  - symmetry. unfold is_uid. simpl. apply andb_false_iff.
    destruct H as [H | H]; [left; apply Z.eqb_neq; congruence|].
    right. apply String.eqb_neq. congruence.
Qed.

Lemma leb_trans a b c :
  String.leb a b = true -> String.leb b c = true -> String.leb a c = true.
Proof.
  unfold String.leb. intros Hab Hbc.
  destruct (String.compare a b) eqn:Eab; try discriminate;
    destruct (String.compare b c) eqn:Ebc; try discriminate.
  - apply String.compare_eq_iff in Eab. subst. now rewrite Ebc.
  - apply String.compare_eq_iff in Eab. subst. now rewrite Ebc.
  - apply String.compare_eq_iff in Ebc. subst. now rewrite Eab.
  - apply OrderedTypeEx.String_as_OT.cmp_lt in Eab, Ebc.
    pose proof (OrderedTypeEx.String_as_OT.lt_trans _ _ _ Eab Ebc) as L.
    apply OrderedTypeEx.String_as_OT.cmp_lt in L.
    unfold OrderedTypeEx.String_as_OT.cmp in L. now rewrite L.
Qed.

Lemma leb_refl a : String.leb a a = true.
Proof. destruct (String.leb_total a a); assumption. Qed.

(** [MAX] of no text is nothing; of some texts it is one of them, and none
    is greater. *)
Lemma max_text_greatest l :
  match max_text l with
  | None => l = []
  | Some m => In m l /\ forall s, In s l -> String.leb s m = true
  end.
Proof.
  induction l as [|x l IH]; [reflexivity|].
  cbn [max_text fold_right]. fold (max_text l).
  destruct (max_text l) as [m|].
  - destruct IH as [Hm Hall]. destruct (String.leb x m) eqn:E.
    + split; [now right|]. intros s [<- | Hs]; auto.
    + split; [now left|]. intros s [<- | Hs]; [apply leb_refl|].
      apply leb_trans with m; [auto|].
      destruct (String.leb_total x m); congruence.
  - subst l. split; [now left|]. intros s [<- | []]. apply leb_refl.
Qed.

End StoreFacts.

(** X11: a record stored for a chat is found by the next [/check] of its
    uid sent as a message in that chat, and counted once more than before; the count of any
    other uid, and of any uid in any other chat, is what it was.  The store
    does not merge a uid that it already holds. *)
Theorem saved_then_checked :
  forall (chat user : Z) (txt : option string) (u n : string)
         (rest : list string) (w : World),
    let w1 := snd (save_uid_to_db (chat, VStr u, n) no_kwargs w) in
    cmd_check (mkUpdate user chat (Some (mkMessage txt)), mkContext (u :: rest)) no_kwargs w1
    = (Ok VNone,
       mkWorld (disk w1) (clock w1)
         (Close :: Commit :: ReplyText chat "Đã có / Exists."
          :: Execute (SelectCount chat u) :: Connect :: log w1))
    /\ Sql.select_count chat u (disk w1) = Sql.select_count chat u (disk w) + 1
    /\ forall chat' u', chat' <> chat \/ u' <> u ->
         Sql.select_count chat' u' (disk w1) = Sql.select_count chat' u' (disk w).
Proof.
  intros chat user txt u n rest w w1.
  assert (disk w1 = Sql.insert u n chat (clock w) (disk w)) as Hd by reflexivity.
  split; [|split].
  - rewrite cmd_check_run by discriminate. cbn [effective_chat]. unfold ran.
    rewrite Hd, SqlFacts.count_insert.
    replace (Sql.select_count chat u (disk w) + 1 >? 0) with true; [reflexivity|].
    symmetry. apply Z.gtb_lt. unfold Sql.select_count. lia.
  - rewrite Hd. apply SqlFacts.count_insert.
  - intros chat' u' H. rewrite Hd. now apply StoreFacts.count_other.
Qed.



(** X13: for an admin's [/thongke], sent as a message, the statistics
    reply gives the number of records of the chat and the greatest [saved_at] among them: a time that one of the
    records of the chat has, and that none of them exceeds in the order of
    the texts; with no record in the chat it gives 0 and the dash. *)
Theorem stats_count_and_last :
  forall (ADMINS : list Z) (update : Update) (context : Context) (w : World),
    In (effective_user update) ADMINS ->
    message update <> None ->
    let chat := effective_chat update in
    exists last,
      cmd_thongke ADMINS (update, context) no_kwargs w
      = (Ok VNone,
         mkWorld (disk w) (clock w)
           (Close :: Commit
            :: ReplyText chat
                 (stats_text (Z.of_nat (length (own chat (disk w)))) last)
            :: Execute (SelectStats chat) :: Connect :: log w))
      /\ match last with
         | None => own chat (disk w) = []
         | Some m =>
             (exists r, In r (disk w) /\ chat_id r = chat /\ saved_at r = m)
             /\ forall r, In r (disk w) -> chat_id r = chat ->
                  String.leb (saved_at r) m = true
         end.
Proof.
  intros ADMINS update context w Hadmin Hm chat.
  exists (snd (Sql.select_stats chat (disk w))). split.
  - rewrite cmd_thongke_run by (assumption || now apply is_admin_true).
    reflexivity.
  - unfold Sql.select_stats. cbn [snd]. fold (own chat (disk w)).
    pose proof (StoreFacts.max_text_greatest (map saved_at (own chat (disk w)))) as M.
    destruct (Sql.max_text (map saved_at (own chat (disk w)))) as [m|].
    + destruct M as [Hin Hall]. split.
      * apply in_map_iff in Hin. destruct Hin as [r [Hr Hin]].
        apply filter_In in Hin. destruct Hin as [Hin Hc].
        exists r. repeat split; auto. now apply Z.eqb_eq in Hc.
      * intros r Hr Hc. apply Hall. apply in_map. apply filter_In.
        split; [assumption|]. unfold Sql.in_chat. now apply Z.eqb_eq.
    + now apply map_eq_nil in M.
Qed.

Lemma stats_count_and_last_witness :
  exists last,
    cmd_thongke [7] (mkUpdate 7 100 (Some (mkMessage (Some "/thongke"))), mkContext []) no_kwargs
      (mkWorld [mkRow 1 "a" "" 100 "2024-01-01T12:00:00";
                mkRow 2 "b" "" 100 "2024-01-01T12:00:00.5";
                mkRow 3 "c" "" 200 "2025-01-01T12:00:00"] "" [])
    = (Ok VNone,
       mkWorld [mkRow 1 "a" "" 100 "2024-01-01T12:00:00";
                mkRow 2 "b" "" 100 "2024-01-01T12:00:00.5";
                mkRow 3 "c" "" 200 "2025-01-01T12:00:00"] ""
         [Close; Commit; ReplyText 100 (stats_text 2 last);
          Execute (SelectStats 100); Connect])
    /\ match last with
       | None => False
       | Some m => m = "2024-01-01T12:00:00.5"
       end.
Proof.
  destruct (stats_count_and_last [7] (mkUpdate 7 100 (Some (mkMessage (Some "/thongke")))) (mkContext [])
              (mkWorld [mkRow 1 "a" "" 100 "2024-01-01T12:00:00";
                        mkRow 2 "b" "" 100 "2024-01-01T12:00:00.5";
                        mkRow 3 "c" "" 200 "2025-01-01T12:00:00"] "" []))
    as [last [Hrun Hlast]].
  - simpl. lia.
  - discriminate.
  - exists last. split; [exact Hrun|].
    destruct last as [m|]; [|discriminate Hlast].
    destruct Hlast as [[r [Hin [Hc Hm]]] Hall].
    pose proof (Hall (mkRow 2 "b" "" 100 "2024-01-01T12:00:00.5")
                  (or_intror (or_introl eq_refl)) eq_refl) as Hge.
    simpl in Hin. destruct Hin as [<- | [<- | [<- | []]]];
      simpl in *; subst; try reflexivity; discriminate.
Defined.

(** X14: after an admin's [/deleteall], sent as a message, the chat holds
    nothing and the other chats hold what they held: asked next in the same
    chat, [/export] answers
    that there is no uid and sends no file, [/thongke] reports 0 and the
    dash, and [/check] of any uid answers that it is not there. *)
Theorem cleared_chat_is_empty :
  forall (ADMINS : list Z) (update : Update) (context : Context)
         (u : string) (rest : list string) (w : World),
    In (effective_user update) ADMINS ->
    message update <> None ->
    let chat := effective_chat update in
    let w1 := snd (cmd_deleteall ADMINS (update, context) no_kwargs w) in
    let after (reply : event) (sql : statement) :=
      (Ok VNone,
       mkWorld (disk w1) (clock w1)
         (Close :: Commit :: reply :: Execute sql :: Connect :: log w1)) in
    own chat (disk w1) = []
    /\ others chat (disk w1) = others chat (disk w)
    /\ cmd_export ADMINS (update, context) no_kwargs w1
       = after (ReplyText chat "Không có UID / No UIDs.") (SelectExport chat)
    /\ cmd_thongke ADMINS (update, context) no_kwargs w1
       = after (ReplyText chat (stats_text 0 None)) (SelectStats chat)
    /\ cmd_check (update, mkContext (u :: rest)) no_kwargs w1
       = after (ReplyText chat "Chưa có / Not found.") (SelectCount chat u).
Proof.
  intros ADMINS update context u rest w Hadmin Hm chat w1 after.
  apply is_admin_true in Hadmin.
  assert (disk w1 = Sql.delete_all chat (disk w)) as Hd.
  { unfold w1. now rewrite cmd_deleteall_run. }
  assert (own chat (disk w1) = []) as Hown.
  { rewrite Hd. apply SqlFacts.own_delete_all. }
  split; [exact Hown | split; [|split; [|split]]].
  - rewrite Hd. apply SqlFacts.others_delete_all.
  - rewrite cmd_export_run by assumption. fold chat.
    rewrite SqlFacts.select_export_own, Hown. reflexivity.
  - rewrite cmd_thongke_run by assumption. fold chat.
    rewrite SqlFacts.select_stats_own, Hown. reflexivity.
  - rewrite cmd_check_run by assumption. fold chat.
    rewrite SqlFacts.select_count_own, Hown. reflexivity.
Qed.

Lemma cleared_chat_is_empty_witness :
  let w1 := snd (cmd_deleteall [7] (mkUpdate 7 100 (Some (mkMessage None)), mkContext []) no_kwargs
                   (mkWorld [mkRow 1 "a" "" 100 "2024-01-01T12:00:00";
                             mkRow 2 "b" "" 200 "2024-01-01T12:00:01"] "" [])) in
  disk w1 = [mkRow 2 "b" "" 200 "2024-01-01T12:00:01"]
  /\ cmd_export [7] (mkUpdate 7 100 (Some (mkMessage None)), mkContext []) no_kwargs w1
     = (Ok VNone,
        mkWorld (disk w1) (clock w1)
          (Close :: Commit :: ReplyText 100 "Không có UID / No UIDs."
           :: Execute (SelectExport 100) :: Connect :: log w1)).
Proof.
  destruct (cleared_chat_is_empty [7] (mkUpdate 7 100 (Some (mkMessage None))) (mkContext []) "a" []
              (mkWorld [mkRow 1 "a" "" 100 "2024-01-01T12:00:00";
                        mkRow 2 "b" "" 200 "2024-01-01T12:00:01"] "" []))
    as [_ [_ [Hexport _]]].
  - simpl. lia.
  - discriminate.
  - split; [reflexivity | exact Hexport].
Defined.

(** ** The list of admins *)

Module EnvFacts.
Import Env.

Lemma digits_of_uint d : all_chars digit (NilEmpty.string_of_uint d) = true.
Proof. induction d; simpl; auto. Qed.

Lemma digits_of_nat z :
  0 <= z ->
  isdigit (PyStr.str_of_int z) = true
  /\ exists d, NilEmpty.uint_of_string (PyStr.str_of_int z) = Some d
               /\ Z.of_uint d = z.
Proof.
  intros Hz. unfold PyStr.str_of_int, isdigit.
  pose proof (DecimalZ.of_to z) as Hback.
  destruct (Z.to_int z) as [d|d] eqn:E; [|destruct z; try discriminate; lia].
  cbn [NilZero.string_of_int]. cbn [Z.of_int] in Hback.
  destruct d; [split; [reflexivity | eexists; split; [reflexivity | exact Hback]] | ..];
    match goal with
    | |- context [NilZero.string_of_uint ?x] =>
        change (NilZero.string_of_uint x) with (NilEmpty.string_of_uint x);
        split; [exact (digits_of_uint x)
               | exists x; split; [exact (NilEmpty.usu x) | exact Hback]]
    end.
Qed.

Lemma digits_no_comma s : all_chars digit s = true -> PyStr.contains "," s = false.
Proof.
  induction s as [|c s IH]; [reflexivity|].
  cbn [all_chars PyStr.contains]. intros H.
  apply andb_true_iff in H. destruct H as [Hc Hs].
  rewrite (IH Hs), orb_false_r.
  destruct (Ascii.eqb "," c) eqn:E; [|reflexivity].
  apply Ascii.eqb_eq in E. subst c. discriminate Hc.
Qed.

(** What ends a text is a part of the text. *)
Lemma endswith_split p : forall s,
  endswith p s = true -> exists z, s = (z ++ p)%string.
Proof.
  induction s as [|c s IH]; cbn [endswith]; intros H.
  - rewrite orb_false_r in H. apply String.eqb_eq in H. subst p.
    now exists EmptyString.
  - apply orb_true_iff in H. destruct H as [H | H].
    + apply String.eqb_eq in H. subst p. now exists EmptyString.
    + destruct (IH H) as [z ->]. now exists (String c z).
Qed.

Lemma all_chars_app f a b :
  all_chars f (a ++ b) = all_chars f a && all_chars f b.
Proof.
  induction a as [|c a IH]; [reflexivity|].
  cbn [append all_chars]. now rewrite IH, andb_assoc.
Qed.

(** A text of digits has white space at neither end. *)
Lemma digits_trimmed s : all_chars digit s = true -> trimmed s = true.
Proof.
  intros H. unfold trimmed, starts_clean, ends_clean.
  apply andb_true_iff. split; apply forallb_forall; intros p Hin;
    apply negb_true_iff;
    pose proof (SpaceFacts.whitespace_nonempty p Hin) as Hp;
    destruct p as [|a p']; try discriminate Hp;
    pose proof (SpaceFacts.whitespace_no_digit _ a p' Hin eq_refl) as Ha.
  - destruct s as [|c s]; [reflexivity|]. cbn [PyStr.startswith].
    cbn [all_chars] in H. apply andb_true_iff in H. destruct H as [Hc _].
    destruct (Ascii.eqb a c) eqn:E; [|reflexivity].
    apply Ascii.eqb_eq in E. congruence.
  - destruct (endswith (String a p') s) eqn:E; [|reflexivity].
    apply endswith_split in E. destruct E as [z ->].
    rewrite all_chars_app in H. apply andb_true_iff in H. destruct H as [_ H].
    cbn [all_chars] in H. apply andb_true_iff in H. destruct H as [H _].
    congruence.
Qed.

Lemma split_plain c x : PyStr.contains c x = false -> split c x = [x].
Proof.
  induction x as [|d x IH]; [reflexivity|]. simpl. intros H.
  apply orb_false_iff in H. destruct H as [Hd Hx].
  rewrite Hd, (IH Hx). reflexivity.
Qed.

Lemma split_app c x rest :
  PyStr.contains c x = false -> split c (x ++ String c rest) = x :: split c rest.
Proof.
  induction x as [|d x IH]; simpl; intros H.
  - now rewrite Ascii.eqb_refl.
  - apply orb_false_iff in H. destruct H as [Hd Hx].
    rewrite Hd, (IH Hx). reflexivity.
Qed.

Lemma split_join c l :
  l <> [] -> Forall (fun x => PyStr.contains c x = false) l ->
  split c (PyStr.join (String c EmptyString) l) = l.
Proof.
  unfold PyStr.join. induction l as [|x l IH]; [congruence|].
  intros _ H. inversion H as [|y l' Hx Hl]; subst.
  destruct l as [|y l].
  - now apply split_plain.
  - cbn [String.concat]. cbn [append].
    rewrite (split_app c x _ Hx). f_equal. apply IH; [discriminate | assumption].
Qed.

Lemma digits_ok_digits s : forall after,
  all_chars digit s = true -> digits_ok after s = (after || PyStr.nonempty s).
Proof.
  induction s as [|c s IH]; intros after H; cbn [digits_ok PyStr.nonempty].
  - now rewrite orb_false_r.
  - cbn [all_chars] in H. apply andb_true_iff in H. destruct H as [Hc Hs].
    rewrite Hc, (IH true Hs). now rewrite orb_true_r.
Qed.

Lemma without_digits s : all_chars digit s = true -> without "_" s = s.
Proof.
  induction s as [|c s IH]; [reflexivity|]. cbn [all_chars without]. intros H.
  apply andb_true_iff in H. destruct H as [Hc Hs].
  destruct (Ascii.eqb "_" c) eqn:E.
  - apply Ascii.eqb_eq in E. subst c. discriminate Hc.
  - now rewrite (IH Hs).
Qed.

Lemma uint_of_digits s :
  all_chars digit s = true -> exists d, NilEmpty.uint_of_string s = Some d.
Proof.
  induction s as [|c s IH]; [now exists Decimal.Nil|].
  cbn [all_chars]. intros H. apply andb_true_iff in H. destruct H as [Hc Hs].
  destruct (IH Hs) as [d Hd]. cbn [NilEmpty.uint_of_string]. rewrite Hd.
  destruct c as [[] [] [] [] [] [] [] []]; try discriminate Hc; cbn; eauto.
Qed.

(** On a text of digits [int] gives its value in base ten, which is not
    negative. *)
Lemma int_of_digits s :
  isdigit s = true ->
  exists d, NilEmpty.uint_of_string s = Some d /\ int_of s = Ok (Z.of_uint d).
Proof.
  unfold isdigit. intros H. apply andb_true_iff in H. destruct H as [Hn Hall].
  destruct (uint_of_digits s Hall) as [d Hd]. exists d. split; [exact Hd|].
  unfold int_of. rewrite (StripFacts.strip_trimmed s (digits_trimmed s Hall)).
  destruct s as [|c s']; [discriminate Hn|].
  assert (Ascii.eqb c "-" = false /\ Ascii.eqb c "+" = false) as [E1 E2].
  { cbn [all_chars] in Hall. apply andb_true_iff in Hall. destruct Hall as [Hc _].
    split; apply Ascii.eqb_neq; intros ->; discriminate Hc. }
  rewrite E1, E2. rewrite (digits_ok_digits _ false Hall), Hn.
  cbn [orb]. now rewrite (without_digits _ Hall), Hd.
Qed.



End EnvFacts.



(** X16: a list of user ids written in base ten with commas between them
    is read back as that list. *)
Theorem admins_round_trip :
  forall (ids : list Z),
    Forall (fun z => 0 <= z < 2 ^ 63) ids ->
    Env.parse_ADMINS (Some (PyStr.join "," (map PyStr.str_of_int ids))) = Ok ids.
Proof.
  intros ids H. unfold Env.parse_ADMINS.
  destruct ids as [|z ids]; [reflexivity|].
  assert (forall l, Forall (fun z => 0 <= z < 2 ^ 63) l ->
            Forall (fun x => PyStr.contains "," x = false) (map PyStr.str_of_int l)
            /\ Env.ints_of (map PyStr.str_of_int l) = Ok l)
    as Each.
  { induction l as [|y l IH]; intros Hl; [split; [constructor | reflexivity]|].
    inversion Hl as [|y' l' Hy Hl']; subst.
    destruct (IH Hl') as [H1 H2].
    destruct (EnvFacts.digits_of_nat y (proj1 Hy)) as [Hd [d [Hu Hv]]].
    pose proof Hd as Hd'. unfold Env.isdigit in Hd'.
    apply andb_true_iff in Hd'. destruct Hd' as [_ Hall].
    pose proof (StripFacts.strip_trimmed _ (EnvFacts.digits_trimmed _ Hall)) as Hs.
    destruct (EnvFacts.int_of_digits _ Hd) as [d' [Hu' Hi]].
    assert (d' = d) as -> by congruence.
    cbn [map Env.ints_of]. rewrite Hs, Hd, Hi, H2, Hv.
    split; [|reflexivity].
    constructor; [now apply EnvFacts.digits_no_comma | assumption]. }
  destruct (Each (z :: ids) H) as [H1 H2].
  rewrite EnvFacts.split_join by (try assumption; discriminate).
  exact H2.
Qed.

Lemma admins_round_trip_witness :
  Env.parse_ADMINS (Some (PyStr.join "," (map PyStr.str_of_int [5112233445; 0; 42])))
  = Ok [5112233445; 0; 42].
Proof.
  apply (admins_round_trip [5112233445; 0; 42]).
  repeat constructor; lia.
Defined.

(** X17: with [ADMINS] not set, or set to the empty text, the list of
    admins is empty and nobody is an admin: [/deleteall], [/export] and
    [/thongke] turn every user away and touch nothing, with the rejection
    text on a message and with [AttributeError] on an update without
    one. *)
Theorem nobody_is_admin_by_default :
  forall (update : Update) (context : Context) (kw : kwargs) (w : World),
    Env.parse_ADMINS None = Ok []
    /\ Env.parse_ADMINS (Some EmptyString) = Ok []
    /\ Forall (fun h => h (update, context) kw w
                        = match message update with
                          | Some _ =>
                              (Ok VNone,
                               mkWorld (disk w) (clock w)
                                 (ReplyText (effective_chat update) admin_rejection
                                  :: log w))
                          | None => (Raise AttributeError, w)
                          end)
         (privileged_commands []).
Proof.
  intros update context kw w.
  split; [reflexivity | split; [reflexivity|]].
  destruct update as [user chat [m|]]; repeat constructor.
Qed.

(** ** The menu, the photo commands and the routing *)

Lemma lift_run {A} (m : M A) (s : State) :
  lift m s
  = (fst (m (mkWorld (rows s) (now s) [])),
     widen (snd (m (mkWorld (rows s) (now s) []))) s).
Proof. unfold lift. now destruct (m _). Qed.

(** The profile lookup returns in every case, after at most one request. *)
Lemma try_get_fb_profile_run FB g uid (s : State) :
  lift (try_get_fb_profile FB g uid) s
  = (Ok (looked_up FB g uid),
     mkState (rows s) (now s) (lookup_request FB uid ++ acts s)%list).
Proof.
  unfold lift, try_get_fb_profile, looked_up, lookup_request.
  destruct (token FB) as [tok|]; [|destruct s; reflexivity].
  cbv [try_except bind sess_get emit ret raise resp_json resolved_profile widen
       disk clock log].
  destruct (g _ _) as [| |status [v|]]; try reflexivity;
    case_status; reflexivity.
Qed.

(** X18: when the profile lookup gives nothing (there is no token, or the
    request failed, timed out, had another status than 200 or a body that is
    no JSON, or the JSON is empty), [/layanh uid], sent as a message, sends
    the public picture address built from the uid, and [/checkinfo uid]
    answers that there is no information; with a token each made one request before, without a
    token none.  Neither raises and neither touches the table. *)
Theorem photo_commands_fall_back :
  forall (FB : option string) (g : string -> list (string * string) -> http_outcome)
         (py_str : value -> string) (update : Update)
         (uid : string) (rest : list string) (s : State),
    message update <> None ->
    truthy (looked_up FB g uid) = false ->
    cmd_layanh FB g py_str (update, mkContext (uid :: rest)) s
    = (Ok VNone,
       mkState (rows s) (now s)
         (ReplyPhoto (effective_chat update)
            (VStr ("https://graph.facebook.com/" ++ uid ++ "/picture?type=large"))
          :: lookup_request FB uid ++ acts s)%list)
    /\ cmd_checkinfo FB g py_str (update, mkContext (uid :: rest)) s
       = (Ok VNone,
          mkState (rows s) (now s)
            (Did (ReplyText (effective_chat update)
                    "Không có thông tin (cần FB_ACCESS_TOKEN) / No info (FB_ACCESS_TOKEN needed)")
             :: lookup_request FB uid ++ acts s)%list).
Proof.
  intros FB g py_str update uid rest s Hm H. sent.
  split.
  - unfold cmd_layanh. cbn [args].
    unfold bindR at 1. rewrite try_get_fb_profile_run.
    unfold bindR at 1. rewrite lift_run. unfold picture_url. rewrite H.
    reflexivity.
  - unfold cmd_checkinfo. cbn [args].
    unfold bindR at 1. rewrite try_get_fb_profile_run, H.
    reflexivity.
Qed.

Lemma photo_commands_fall_back_witness :
  cmd_layanh (Some "token") (fun _ _ => Response 404 Malformed) (fun _ => EmptyString)
    (mkUpdate 7 100 (Some (mkMessage (Some "/layanh 4"))), mkContext ["4"]) (mkState [] "" [])
  = (Ok VNone,
     mkState [] ""
       [ReplyPhoto 100 (VStr "https://graph.facebook.com/4/picture?type=large");
        Did (HttpGet "https://graph.facebook.com/4"
               [("access_token", "token");
                ("fields", "id,name,picture.width(800).height(800),cover")])]).
Proof.
  destruct (photo_commands_fall_back (Some "token") (fun _ _ => Response 404 Malformed)
              (fun _ => EmptyString) (mkUpdate 7 100 (Some (mkMessage (Some "/layanh 4")))) "4" []
              (mkState [] "" []))
    as [Hphoto _].
  - discriminate.
  - reflexivity.
  - exact Hphoto.
Defined.

(** X19: when the profile is a JSON object that has a [picture] object with
    a [data] object whose [url] is not empty, [/layanh uid], sent as a
    message, replies with the name of the profile and then sends that url
    as the photo. *)
Theorem layanh_sends_the_picture :
  forall (FB : option string) (g : string -> list (string * string) -> http_outcome)
         (py_str : value -> string) (update : Update)
         (uid : string) (rest : list string) (s : State)
         (profile picture data : list (string * value)),
    message update <> None ->
    looked_up FB g uid = VDict profile ->
    has_key "picture" profile = true ->
    dict_get "picture" profile = VDict picture ->
    has_key "data" picture = true ->
    dict_get "data" picture = VDict data ->
    truthy (dict_get "url" data) = true ->
    cmd_layanh FB g py_str (update, mkContext (uid :: rest)) s
    = (Ok VNone,
       mkState (rows s) (now s)
         (ReplyPhoto (effective_chat update) (dict_get "url" data)
          :: Did (ReplyText (effective_chat update)
                    ("Name: " ++ py_str (dict_get "name" profile)))
          :: lookup_request FB uid ++ acts s)%list).
Proof.
  intros FB g py_str update uid rest s profile picture data
         Hm Hinfo Hpic Hpicture Hdata Hd Hurl. sent.
  unfold cmd_layanh. cbn [args].
  unfold bindR at 1. rewrite try_get_fb_profile_run, Hinfo.
  unfold bindR at 1. rewrite lift_run.
  assert (truthy (VDict profile) = true) as Htrue.
  { destruct profile; [discriminate Hpic | reflexivity]. }
  assert (forall w, picture_url (VDict profile) w = (Ok (Some (dict_get "url" data)), w))
    as Hfound.
  { intros w. unfold picture_url. rewrite Htrue.
    cbv [negb bind py_in py_item py_get ret]. fold (has_key "picture" profile).
    rewrite Hpic, Hpicture. fold (has_key "data" picture).
    rewrite Hdata, Hd, Hurl. reflexivity. }
  rewrite Hfound. reflexivity.
Qed.

Lemma layanh_sends_the_picture_witness :
  cmd_layanh (Some "token")
    (fun _ _ =>
       Response 200
         (Json (VDict [("id", VStr "4"); ("name", VStr "Mark");
                       ("picture",
                        VDict [("data", VDict [("url", VStr "https://cdn/4.jpg")])])])))
    (fun v => match v with VStr n => n | _ => "None" end)
    (mkUpdate 7 100 (Some (mkMessage (Some "/layanh 4"))), mkContext ["4"]) (mkState [] "" [])
  = (Ok VNone,
     mkState [] ""
       [ReplyPhoto 100 (VStr "https://cdn/4.jpg");
        Did (ReplyText 100 "Name: Mark");
        Did (HttpGet "https://graph.facebook.com/4"
               [("access_token", "token");
                ("fields", "id,name,picture.width(800).height(800),cover")])]).
Proof.
  apply (layanh_sends_the_picture (Some "token")
           (fun _ _ =>
              Response 200
                (Json (VDict [("id", VStr "4"); ("name", VStr "Mark");
                              ("picture",
                               VDict [("data", VDict [("url", VStr "https://cdn/4.jpg")])])])))
           (fun v => match v with VStr n => n | _ => "None" end)
           (mkUpdate 7 100 (Some (mkMessage (Some "/layanh 4")))) "4" [] (mkState [] "" [])
           [("id", VStr "4"); ("name", VStr "Mark");
            ("picture", VDict [("data", VDict [("url", VStr "https://cdn/4.jpg")])])]
           [("data", VDict [("url", VStr "https://cdn/4.jpg")])]
           [("url", VStr "https://cdn/4.jpg")]);
    first [discriminate | reflexivity].
Defined.

(** X20: when the [picture] of the profile is a text in which [data]
    stands, or a list that holds the text [data], [/layanh uid] raises
    [TypeError] and sends nothing: the test [in] passes on the text or the
    list, and taking [picture['data']] of it fails. *)
Theorem layanh_raises_on_odd_picture :
  forall (FB : option string) (g : string -> list (string * string) -> http_outcome)
         (py_str : value -> string) (update : Update)
         (uid : string) (rest : list string) (s : State)
         (profile : list (string * value)) (picture : value),
    looked_up FB g uid = VDict profile ->
    has_key "picture" profile = true ->
    dict_get "picture" profile = picture ->
    match picture with
    | VStr p => has_substring "data" p = true
    | VList l => In (VStr "data") l
    | _ => False
    end ->
    cmd_layanh FB g py_str (update, mkContext (uid :: rest)) s
    = (Raise TypeError,
       mkState (rows s) (now s) (lookup_request FB uid ++ acts s)%list).
Proof.
  intros FB g py_str update uid rest s profile picture Hinfo Hpic Hpicture Hodd.
  unfold cmd_layanh. cbn [args].
  unfold bindR at 1. rewrite try_get_fb_profile_run, Hinfo.
  unfold bindR at 1. rewrite lift_run.
  assert (truthy (VDict profile) = true) as Htrue.
  { destruct profile; [discriminate Hpic | reflexivity]. }
  assert (forall w, picture_url (VDict profile) w = (Raise TypeError, w)) as Hraise.
  { intros w. unfold picture_url. rewrite Htrue.
    cbv [negb bind py_in py_item py_get ret raise]. fold (has_key "picture" profile).
    rewrite Hpic, Hpicture.
    destruct picture as [| | |p|l|]; try contradiction.
    - now rewrite Hodd.
    - replace (existsb _ l) with true; [reflexivity|].
      symmetry. apply existsb_exists. exists (VStr "data"). auto. }
  rewrite Hraise. destruct s. reflexivity.
Qed.

Lemma layanh_raises_on_odd_picture_witness :
  cmd_layanh (Some "token")
    (fun _ _ => Response 200 (Json (VDict [("picture", VStr "no data")])))
    (fun _ => EmptyString)
    (mkUpdate 7 100 (Some (mkMessage (Some "/layanh 4"))), mkContext ["4"]) (mkState [] "" [])
  = (Raise TypeError,
     mkState [] ""
       [Did (HttpGet "https://graph.facebook.com/4"
               [("access_token", "token");
                ("fields", "id,name,picture.width(800).height(800),cover")])]).
Proof.
  apply (layanh_raises_on_odd_picture (Some "token")
           (fun _ _ => Response 200 (Json (VDict [("picture", VStr "no data")])))
           (fun _ => EmptyString) (mkUpdate 7 100 (Some (mkMessage (Some "/layanh 4")))) "4" []
           (mkState [] "" []) [("picture", VStr "no data")] (VStr "no data"));
    reflexivity.
Defined.

(** *** The conversation, as the routing meets it *)

Ltac by_letters :=
  repeat match goal with
         | |- context [match ?v with _ => _ end] =>
             is_var v; destruct v; try discriminate
         end.

(** In [AwaitingUidInput] the conversation takes no command but [cancel]. *)
Lemma conv_save_awaiting_command name update context w x :
  conv_save AwaitingUidInput (Command name) update context w = Some x ->
  name = "cancel".
Proof.
  unfold conv_save. by_letters. reflexivity.
Qed.

(** In [Idle] the conversation takes no command but [save], and no text. *)
Lemma conv_save_idle_command name update context w x :
  conv_save Idle (Command name) update context w = Some x ->
  name = "save".
Proof.
  unfold conv_save. by_letters. reflexivity.
Qed.

Lemma filter_all {A} (l : list A) : filter (fun _ => true) l = l.
Proof. induction l as [|x l IH]; simpl; [reflexivity | now rewrite IH]. Qed.

Lemma shrunk_same t t' : t' = t -> shrunk t t'.
Proof. intros ->. exists (fun _ => true). symmetry. apply filter_all. Qed.

(** The commands of the first part leave the table as it was, or with
    fewer rows. *)
Lemma scoped_shrinks ADMINS h update context w :
  In h (scoped_commands ADMINS) ->
  shrunk (disk w) (disk (snd (h (update, context) no_kwargs w))).
Proof.
  intros Hin. destruct (message update) as [m|] eqn:Em.
  2: { destruct (scoped_unsent ADMINS h update context no_kwargs Hin Em)
         as [e [es [_ Hrun]]].
       rewrite Hrun. now apply shrunk_same. }
  assert (message update <> None) as Hm by congruence. clear m Em.
  revert Hin. destruct context as [a]. simpl.
  intros [<-|[<-|[<-|[<-|[<-|[<-|[]]]]]]].
  - destruct a; [rewrite cmd_find_usage by assumption | rewrite cmd_find_run by assumption]; now apply shrunk_same.
  - destruct a; [rewrite cmd_check_usage by assumption | rewrite cmd_check_run by assumption]; now apply shrunk_same.
  - destruct a; [rewrite cmd_delete_usage by assumption; now apply shrunk_same|].
    rewrite cmd_delete_run by assumption. cbn [snd disk]. now eexists.
  - destruct (is_admin ADMINS (effective_user update)) eqn:E.
    + rewrite (cmd_deleteall_run ADMINS _ _ _ Hm E). cbn [snd disk]. now eexists.
    + unfold cmd_deleteall. rewrite (admin_only_rejects ADMINS _ _ _ _ _ Hm E).
      now apply shrunk_same.
  - destruct (is_admin ADMINS (effective_user update)) eqn:E.
    + rewrite (cmd_export_run ADMINS _ _ _ Hm E). now apply shrunk_same.
    + unfold cmd_export. rewrite (admin_only_rejects ADMINS _ _ _ _ _ Hm E).
      now apply shrunk_same.
  - destruct (is_admin ADMINS (effective_user update)) eqn:E.
    + rewrite (cmd_thongke_run ADMINS _ _ _ Hm E). now apply shrunk_same.
    + unfold cmd_thongke. rewrite (admin_only_rejects ADMINS _ _ _ _ _ Hm E).
      now apply shrunk_same.
Qed.

(** The link handler leaves the table as it was. *)
Lemma detect_keeps_disk FB g update context w :
  disk (snd (detect_facebook_link FB g (update, context) no_kwargs w)) = disk w.
Proof.
  destruct (message update) as [m|] eqn:Em.
  2: { now rewrite detect_unsent. }
  rewrite detect_sent by congruence.
  cbv [with_db bind try_finally emit no_kwargs].
  destruct (Re.findall_links (text_of update)) as [|url urls]; [reflexivity|].
  destruct (save_links_quiet FB g update None (url :: urls) []
              (mkWorld (disk w) (clock w) (Connect :: log w)))
    as [r [es [-> [_ [-> | ->]]]]]; reflexivity.
Qed.

(** The dialogue handler raises whatever the message holds, and leaves the
    table as it was. *)
Lemma handle_save_single_keeps update context w :
  exists e w',
    handle_save_single (update, context) no_kwargs w = (Raise e, w')
    /\ disk w' = disk w.
Proof.
  destruct (message_text update) as [t|] eqn:E.
  - rewrite (handle_save_single_raises update context t w E).
    now exists TypeError, (mkWorld (disk w) (clock w)
                             (Close :: Close :: Connect :: Connect :: log w)).
  - cbv [handle_save_single with_db bind try_finally emit no_kwargs raise].
    rewrite E.
    now exists AttributeError,
      (mkWorld (disk w) (clock w) (Close :: Connect :: log w)).
Qed.

(** What the conversation does when it takes an update: the table stays,
    and from [AwaitingUidInput] only [cancel] moves the state. *)
Lemma conv_save_keeps st k update context w r st' w' :
  conv_save st k update context w = Some (r, st', w') ->
  disk w' = disk w
  /\ (st = AwaitingUidInput -> k = Text -> st' = AwaitingUidInput)
  /\ (st = Idle -> st' = AwaitingUidInput -> k = Command "save").
Proof.
  intros H. destruct st, k as [name|].
  - pose proof (conv_save_idle_command _ _ _ _ _ H) as ->.
    destruct update as [user chat [m|]]; cbv in H; injection H as <- <- <-;
      repeat split; intros; congruence.
  - discriminate H.
  - pose proof (conv_save_awaiting_command _ _ _ _ _ H) as ->.
    destruct update as [user chat [m|]]; cbv in H; injection H as <- <- <-;
      repeat split; intros; congruence.
  - unfold conv_save in H.
    destruct (handle_save_single_keeps update context w) as [e [w1 [Hrun Hd]]].
    rewrite Hrun in H. cbn in H. injection H as <- <- <-.
    repeat split; [exact Hd | discriminate].
Qed.

Lemma lift_pure {A} (m : M A) (s : State) :
  (forall w, snd (m w) = w) ->
  lift m s = (fst (m (mkWorld (rows s) (now s) [])), s).
Proof.
  intros H. rewrite lift_run, H. destruct s. reflexivity.
Qed.

(** The tests of the condition of [cmd_layanh] change nothing. *)
Lemma picture_url_pure info : forall w, snd (picture_url info w) = w.
Proof.
  intros w. unfold picture_url.
  destruct (truthy info); [|reflexivity].
  cbv [negb bind py_in py_item py_get ret raise].
  destruct info as [| | | |l|d]; try reflexivity.
  - destruct (has_substring "picture" s); reflexivity.
  - destruct (existsb _ l); reflexivity.
  - destruct (existsb _ d); [|reflexivity].
    destruct (dict_get "picture" d) as [| | |p|l|pd]; try reflexivity.
    + destruct (has_substring "data" p); reflexivity.
    + destruct (existsb _ l); reflexivity.
    + destruct (existsb _ pd); [|reflexivity].
      destruct (dict_get "data" pd) as [| | | | |dd]; try reflexivity.
      destruct (truthy (dict_get "url" dd)); reflexivity.
Qed.

Section WideFacts.

Variable FB : option string.
Variable ADMINS : list Z.
Variable g : string -> list (string * string) -> http_outcome.
Variable py_str : value -> string.

Lemma start_keeps uc s : rows (snd (start uc s)) = rows s.
Proof. destruct uc as [[user chat [m|]] c]; reflexivity. Qed.

Lemma cmd_help_keeps uc s : rows (snd (cmd_help uc s)) = rows s.
Proof. destruct uc as [[user chat [m|]] c]; reflexivity. Qed.

Lemma cmd_getid_keeps uc s : rows (snd (cmd_getid uc s)) = rows s.
Proof. destruct uc as [[user chat [m|]] c]; reflexivity. Qed.

Lemma cmd_checkinfo_keeps uc s :
  rows (snd (cmd_checkinfo FB g py_str uc s)) = rows s.
Proof.
  destruct uc as [[user chat [m|]] [a]]; unfold cmd_checkinfo; cbn [args];
    (destruct a as [|uid rest]; [reflexivity|]);
    unfold bindR at 1; rewrite try_get_fb_profile_run;
    destruct (truthy (looked_up FB g uid)); reflexivity.
Qed.

Lemma cmd_layanh_keeps uc s :
  rows (snd (cmd_layanh FB g py_str uc s)) = rows s.
Proof.
  destruct uc as [[user chat [m|]] [a]]; unfold cmd_layanh; cbn [args];
    (destruct a as [|uid rest]; [reflexivity|]);
    unfold bindR at 1; rewrite try_get_fb_profile_run;
    unfold bindR at 1;
    rewrite (lift_pure _ _ (picture_url_pure (looked_up FB g uid)));
    (destruct (fst (picture_url (looked_up FB g uid) _)) as [[url|]|e];
     try reflexivity);
    unfold bindR at 1; rewrite lift_run;
    destruct (looked_up FB g uid); reflexivity.
Qed.

(** What the menu does, whatever the button. *)
Lemma menu_callback_talks data update context s :
  let out := menu_callback ADMINS data (update, context) s in
  rows (snd out) = rows s
  /\ (fst out = Ok VNone \/ fst out = Raise AttributeError)
  /\ exists new, acts (snd out) = (new ++ acts s)%list
                 /\ forallb only_talk new = true.
Proof.
  unfold menu_callback.
  cbv [bindR emitR lift reply_text emit retR raiseR admin_only_on_message widen
       fst snd disk clock log rows now acts map app].
  repeat match goal with
         | |- context [String.eqb data ?x] => destruct (String.eqb data x)
         | |- context [is_admin ADMINS ?u] => destruct (is_admin ADMINS u)
         end;
    cbn [negb fst snd rows acts];
    (split; [reflexivity | split; [auto|]]);
    first [ now exists [AnswerCallback]
          | eexists (_ :: [AnswerCallback]); split; reflexivity ].
Qed.

Lemma menu_callback_keeps data uc s :
  rows (snd (menu_callback ADMINS data uc s)) = rows s.
Proof. destruct uc as [update context]. apply menu_callback_talks. Qed.

(** A command handler leaves the table as it was, or with fewer rows. *)
Lemma standalone_shrinks name h uc s :
  standalone FB ADMINS g py_str name = Some h ->
  shrunk (rows s) (rows (snd (h uc s))).
Proof.
  assert (forall h0, In h0 (scoped_commands ADMINS) ->
            shrunk (rows s) (rows (snd (lift (h0 uc no_kwargs) s)))) as First.
  { intros h0 Hin. rewrite lift_run. cbn [snd widen rows]. destruct uc.
    apply (scoped_shrinks ADMINS h0 _ _ (mkWorld (rows s) (now s) []) Hin). }
  unfold standalone.
  repeat match goal with
         | |- context [String.eqb name ?x] => destruct (String.eqb name x)
         end;
    intros H; try discriminate; injection H as <-;
    try (apply First; simpl; tauto);
    apply shrunk_same;
    first [ apply start_keeps | apply cmd_help_keeps | apply cmd_getid_keeps
          | apply cmd_layanh_keeps | apply cmd_checkinfo_keeps
          | destruct uc as [[user chat [m|]] c]; reflexivity ].
Qed.

(** The conversation never sees [cancel]: the command handler of that
    name comes first. *)
Lemma standalone_cancel name :
  standalone FB ADMINS g py_str name = None -> name <> "cancel".
Proof. intros H ->. discriminate H. Qed.

End WideFacts.

(** X21: whatever update arrives (a command, a text, a pressed button), in
    whatever state of the dialogue, with or without a token and whatever
    the Graph API answers, the handler that [main] routes it to never adds a
    row to the table: the table afterwards is the table before, or the
    table before with rows removed. *)
Theorem no_update_adds_a_row :
  forall (FB : option string) (ADMINS : list Z)
         (g : string -> list (string * string) -> http_outcome)
         (py_str : value -> string) (st : conv_state) (kind : arriving)
         (update : Update) (context : Context) (s : State),
    match dispatch FB ADMINS g py_str st kind update context s with
    | Some (_, _, s') => shrunk (rows s) (rows s')
    | None => True
    end.
Proof.
  intros FB ADMINS g py_str st kind update context s.
  unfold dispatch. destruct kind as [name | | data].
  - destruct (standalone FB ADMINS g py_str name) as [h|] eqn:E.
    + cbn [snd]. now apply (standalone_shrinks FB ADMINS g py_str name).
    + destruct (conv_save st (Command name) update context _)
        as [[[r st'] w']|] eqn:C; [|exact I].
      apply conv_save_keeps in C. apply shrunk_same. apply C.
  - destruct (conv_save st Text update context _)
      as [[[r st'] w']|] eqn:C.
    + apply conv_save_keeps in C. apply shrunk_same. apply C.
    + cbn [snd]. rewrite lift_run. cbn [snd widen rows].
      apply shrunk_same. apply detect_keeps_disk.
  - cbn [snd]. apply shrunk_same. apply menu_callback_keeps.
Qed.

(** X22: the dialogue of [/save], as [main] routes the updates.  From
    [Idle] only the command [save] leads to [AwaitingUidInput].  From
    [AwaitingUidInput] nothing leads away: a text goes to the dialogue
    handler, which raises; [cancel] goes to the command handler of that
    name, which stands before the conversation and does not end it; no
    other command and no button is the conversation's. *)
Theorem awaiting_is_absorbing :
  forall (FB : option string) (ADMINS : list Z)
         (g : string -> list (string * string) -> http_outcome)
         (py_str : value -> string) (kind : arriving)
         (update : Update) (context : Context) (s : State),
    match dispatch FB ADMINS g py_str AwaitingUidInput kind update context s with
    | Some (_, st', _) => st' = AwaitingUidInput
    | None => True
    end
    /\ match dispatch FB ADMINS g py_str Idle kind update context s with
       | Some (_, AwaitingUidInput, _) => kind = ACommand "save"
       | _ => True
       end.
Proof.
  intros FB ADMINS g py_str kind update context s.
  unfold dispatch. split; destruct kind as [name | | data];
    try reflexivity; try exact I.
  - destruct (standalone FB ADMINS g py_str name) as [h|] eqn:E; [reflexivity|].
    destruct (conv_save AwaitingUidInput (Command name) update context _)
      as [[[r st'] w']|] eqn:C; [|exact I].
    apply conv_save_awaiting_command in C.
    now apply standalone_cancel in E.
  - destruct (conv_save AwaitingUidInput Text update context _)
      as [[[r st'] w']|] eqn:C; [|reflexivity].
    apply conv_save_keeps in C. now apply C.
  - destruct (standalone FB ADMINS g py_str name) as [h|] eqn:E; [exact I|].
    destruct (conv_save Idle (Command name) update context _)
      as [[[r st'] w']|] eqn:C; [|exact I].
    pose proof (conv_save_idle_command _ _ _ _ _ C) as ->.
    destruct st'; [exact I | reflexivity].
Qed.

(** X23: a pressed menu button never reaches the table and never sends a
    file or a photo: the handler answers the button, and then replies with
    one text, or raises [AttributeError], or does nothing more.  For the
    buttons Export and Stats it is the admin for whom it raises, before any
    export or count, for [admin_only] is handed the message in place of the
    update; whoever is no admin gets the rejection text of the button. *)
Theorem menu_buttons :
  forall (ADMINS : list Z) (data : string) (export : bool)
         (update : Update) (context : Context) (s : State),
    let out := menu_callback ADMINS data (update, context) s in
    let chat := effective_chat update in
    let said (text : string) :=
      (Ok VNone,
       mkState (rows s) (now s) (Did (ReplyText chat text) :: AnswerCallback :: acts s)) in
    (rows (snd out) = rows s
     /\ (fst out = Ok VNone \/ fst out = Raise AttributeError)
     /\ exists new, acts (snd out) = (new ++ acts s)%list
                    /\ forallb only_talk new = true)
    /\ menu_callback ADMINS (if export then "menu_export" else "menu_thongke")
         (update, context) s
       = if is_admin ADMINS (effective_user update)
         then (Raise AttributeError,
               mkState (rows s) (now s) (AnswerCallback :: acts s))
         else if export
              then said "🚫 Chỉ admin mới có thể xuất / Admins only."
              else said "🚫 Chỉ admin mới được xem thống kê / Admins only.".
Proof.
  intros ADMINS data export update context s out chat said.
  split; [apply menu_callback_talks|].
  unfold menu_callback, said.
  destruct export; destruct (is_admin ADMINS (effective_user update));
    reflexivity.
Qed.

(** ** Connections and transactions *)

Lemma paired_ran sql reply w d c :
  connects [reply] = 0%nat -> closes [reply] = 0%nat ->
  paired w (mkWorld d c (ran sql reply (log w))).
Proof.
  intros H1 H2. destruct sql as [q|].
  - exists [Close; Commit; reply; Execute q; Connect]. split; [reflexivity|].
    destruct reply; try discriminate; reflexivity.
  - exists [Close; Commit; reply; Connect]. split; [reflexivity|].
    destruct reply; try discriminate; reflexivity.
Qed.

Lemma paired_raise w :
  paired w (mkWorld (disk w) (clock w) (Close :: Connect :: log w)).
Proof. now exists [Close; Connect]. Qed.

Lemma paired_reply w chat text :
  paired w (mkWorld (disk w) (clock w) (ReplyText chat text :: log w)).
Proof. now exists [ReplyText chat text]. Qed.

Lemma scoped_paired ADMINS h update context kw w :
  In h (scoped_commands ADMINS) ->
  paired w (snd (h (update, context) kw w)).
Proof.
  intros Hin. destruct (message update) as [m|] eqn:Em.
  2: { destruct (scoped_unsent ADMINS h update context kw Hin Em)
         as [e [es [Hb Hrun]]].
       rewrite Hrun. now exists es. }
  assert (message update <> None) as Hm by congruence. clear m Em.
  revert Hin. destruct context as [a]. simpl.
  intros [<-|[<-|[<-|[<-|[<-|[<-|[]]]]]]];
    destruct kw as [c|];
    try (unfold cmd_find, cmd_check, cmd_delete;
         rewrite with_db_conn_raises; apply paired_raise).
  - destruct a; [rewrite cmd_find_usage by assumption | rewrite cmd_find_run by assumption];
      now apply paired_ran.
  - destruct a; [rewrite cmd_check_usage by assumption | rewrite cmd_check_run by assumption];
      now apply paired_ran.
  - destruct a; [rewrite cmd_delete_usage by assumption | rewrite cmd_delete_run by assumption];
      now apply paired_ran.
  - unfold cmd_deleteall.
    destruct (is_admin ADMINS (effective_user update)) eqn:E.
    + rewrite (admin_only_passes ADMINS _ _ _ _ E), with_db_conn_raises.
      apply paired_raise.
    + rewrite (admin_only_rejects ADMINS _ _ _ _ _ Hm E). apply paired_reply.
  - destruct (is_admin ADMINS (effective_user update)) eqn:E.
    + rewrite (cmd_deleteall_run ADMINS _ _ _ Hm E). now apply paired_ran.
    + unfold cmd_deleteall. rewrite (admin_only_rejects ADMINS _ _ _ _ _ Hm E).
      apply paired_reply.
  - unfold cmd_export.
    destruct (is_admin ADMINS (effective_user update)) eqn:E.
    + rewrite (admin_only_passes ADMINS _ _ _ _ E), with_db_conn_raises.
      apply paired_raise.
    + rewrite (admin_only_rejects ADMINS _ _ _ _ _ Hm E). apply paired_reply.
  - destruct (is_admin ADMINS (effective_user update)) eqn:E.
    + rewrite (cmd_export_run ADMINS _ _ _ Hm E).
      apply paired_ran; unfold export_reply;
        destruct (Sql.select_export _ _); reflexivity.
    + unfold cmd_export. rewrite (admin_only_rejects ADMINS _ _ _ _ _ Hm E).
      apply paired_reply.
  - unfold cmd_thongke.
    destruct (is_admin ADMINS (effective_user update)) eqn:E.
    + rewrite (admin_only_passes ADMINS _ _ _ _ E), with_db_conn_raises.
      apply paired_raise.
    + rewrite (admin_only_rejects ADMINS _ _ _ _ _ Hm E). apply paired_reply.
  - destruct (is_admin ADMINS (effective_user update)) eqn:E.
    + rewrite (cmd_thongke_run ADMINS _ _ _ Hm E). now apply paired_ran.
    + unfold cmd_thongke. rewrite (admin_only_rejects ADMINS _ _ _ _ _ Hm E).
      apply paired_reply.
Qed.

Lemma handle_save_single_paired update context kw w :
  paired w (snd (handle_save_single (update, context) kw w)).
Proof.
  destruct kw as [c|].
  - unfold handle_save_single. rewrite with_db_conn_raises. apply paired_raise.
  - destruct (message_text update) as [t|] eqn:E.
    + change (@None Conn) with no_kwargs.
      rewrite (handle_save_single_raises update context t w E).
      now exists [Close; Close; Connect; Connect].
    + cbv [handle_save_single with_db bind try_finally emit raise].
      rewrite E. now exists [Close; Connect].
Qed.

Lemma detect_paired FB g update context kw w :
  paired w (snd (detect_facebook_link FB g (update, context) kw w)).
Proof.
  destruct kw as [c|].
  - unfold detect_facebook_link. rewrite with_db_conn_raises. apply paired_raise.
  - change (@None Conn) with no_kwargs.
    destruct (message update) as [m|] eqn:Em.
    2: { rewrite detect_unsent by assumption. now exists [Close; Connect]. }
    rewrite detect_sent by congruence.
    cbv [with_db bind try_finally emit no_kwargs].
    destruct (Re.findall_links (text_of update)) as [|url urls].
    + now exists [Close; Commit; Connect].
    + destruct (save_links_quiet FB g update None (url :: urls) []
                  (mkWorld (disk w) (clock w) (Connect :: log w)))
        as [r [es [-> [[_ Hb] [-> | ->]]]]]; cbn.
      * exists (Close :: Commit :: es ++ [Connect])%list.
        split; [cbn; now rewrite <- app_assoc|].
        cbn. rewrite connects_app, closes_app, Hb. cbn. lia.
      * exists (Close :: es ++ [Connect])%list.
        split; [cbn; now rewrite <- app_assoc|].
        cbn. rewrite connects_app, closes_app, Hb. cbn. lia.
Qed.

(** X24: every connection that a handler opens it also closes, whether it
    returns or raises, and whether it was called with [conn] or without:
    among the events of a run there are as many [Close] as [Connect].  This
    holds of each decorated handler and of [save_uid_to_db]. *)
Theorem connections_are_closed :
  forall (FB : option string) (ADMINS : list Z)
         (g : string -> list (string * string) -> http_outcome)
         (h : Update * Context -> kwargs -> M value)
         (update : Update) (context : Context)
         (a : Z * value * string) (kw : kwargs) (w : World),
    In h (db_handlers FB ADMINS g) ->
    (exists es, log (snd (h (update, context) kw w)) = (es ++ log w)%list
                /\ connects es = closes es)
    /\ (exists es, log (snd (save_uid_to_db a kw w)) = (es ++ log w)%list
                   /\ connects es = closes es).
Proof.
  intros FB ADMINS g h update context a kw w Hin. split.
  - unfold db_handlers in Hin. apply in_app_or in Hin.
    destruct Hin as [Hin | [<- | [<- | []]]].
    + now apply (scoped_paired ADMINS).
    + apply handle_save_single_paired.
    + apply detect_paired.
  - destruct kw as [c|].
    + rewrite save_uid_to_db_conn_raises. now exists [Close; Connect].
    + destruct a as [[chat u] n].
      destruct u as [|b|z|t|l|d];
        try (cbv [save_uid_to_db with_db bind bind_uid utcnow_isoformat
                  try_finally emit ret raise];
             match goal with
             | |- context [if ?c then _ else _] => destruct c
             end);
        first [ now exists [Close; Connect]
              | now eexists [Close; Commit; Execute _; Connect] ].
Qed.

Lemma connections_are_closed_witness :
  (exists es,
     log (snd (detect_facebook_link (Some "token") (fun _ _ => Timeout)
                 (mkUpdate 7 100 (Some (mkMessage (Some "https://facebook.com/zuck"))), mkContext [])
                 no_kwargs (mkWorld [] "" [])))
     = (es ++ [])%list
     /\ connects es = closes es)
  /\ (exists es,
        log (snd (save_uid_to_db (100, VNone, "n") no_kwargs (mkWorld [] "" [])))
        = (es ++ [])%list
        /\ connects es = closes es).
Proof.
  apply (connections_are_closed (Some "token") [7] (fun _ _ => Timeout)
           (detect_facebook_link (Some "token") (fun _ _ => Timeout))
           (mkUpdate 7 100 (Some (mkMessage (Some "https://facebook.com/zuck")))) (mkContext [])
           (100, VNone, "n") no_kwargs (mkWorld [] "" [])).
  unfold db_handlers. apply in_or_app. right. simpl. tauto.
Defined.

(** X25: [with_db] commits what the wrapped function did to its connection
    when the function returns, and nothing when it raises: for a function
    that works on the table through its connection only, the table after a
    run that raised is the table before it. *)
Theorem with_db_commits_or_rolls_back :
  forall (Args A : Type) (func : Args -> Conn -> M (A * Conn)) (a : Args) (w : World),
    (forall c w0, disk (snd (func a c w0)) = disk w0) ->
    let w1 := mkWorld (disk w) (clock w) (Connect :: log w) in
    disk (snd (with_db func a no_kwargs w))
    = match fst (func a None w1) with
      | Ok (_, Some t) => t
      | Ok (_, None) => disk w
      | Raise _ => disk w
      end.
Proof.
  intros Args A func a w H w1.
  cbv [with_db bind try_finally emit no_kwargs commit ret].
  fold w1. specialize (H None w1).
  destruct (func a None w1) as [[[r [t|]]|e] w2]; cbn in *; auto.
Qed.

Lemma with_db_commits_or_rolls_back_witness :
  disk (snd (with_db
               (fun (_ : unit) conn =>
                  ' (_, conn') <- update_with (DeleteAll 100)
                                    (fun t => (Sql.delete_all 100 t, tt)) conn ;;
                  raise (A := value * Conn) TypeError)
               tt no_kwargs
               (mkWorld [mkRow 1 "a" "" 100 "2024-01-01T12:00:00"] "" [])))
  = [mkRow 1 "a" "" 100 "2024-01-01T12:00:00"].
Proof.
  apply (with_db_commits_or_rolls_back unit value
           (fun (_ : unit) conn =>
              ' (_, conn') <- update_with (DeleteAll 100)
                                (fun t => (Sql.delete_all 100 t, tt)) conn ;;
              raise (A := value * Conn) TypeError)
           tt (mkWorld [mkRow 1 "a" "" 100 "2024-01-01T12:00:00"] "" [])).
  reflexivity.
Defined.

(** ** The menu of [/start] *)

(** X26: the buttons that [/start] shows are the buttons that
    [menu_callback] knows.  Pressing one of them is followed by a reply or
    by an exception; callback data that is on no button of the keyboard is
    answered and nothing more. *)
Theorem start_buttons_are_handled :
  forall (ADMINS : list Z) (data : string)
         (update : Update) (context : Context) (s : State),
    In data (map snd (concat start_keyboard))
    <-> menu_callback ADMINS data (update, context) s
        <> (Ok VNone, mkState (rows s) (now s) (AnswerCallback :: acts s)).
Proof.
  intros ADMINS data update context s. split.
  - cbn [start_keyboard concat map snd app In].
    intros [<-|[<-|[<-|[<-|[<-|[<-|[<-|[]]]]]]]];
      unfold menu_callback;
      destruct (is_admin ADMINS (effective_user update));
      intro E; cbn in E; discriminate E.
  - intros H.
    destruct (String.eqb data "menu_save") eqn:E1;
      [apply String.eqb_eq in E1; subst data; cbn; auto 10|].
    destruct (String.eqb data "menu_export") eqn:E2;
      [apply String.eqb_eq in E2; subst data; cbn; auto 10|].
    destruct (String.eqb data "menu_find") eqn:E3;
      [apply String.eqb_eq in E3; subst data; cbn; auto 10|].
    destruct (String.eqb data "menu_delete") eqn:E4;
      [apply String.eqb_eq in E4; subst data; cbn; auto 10|].
    destruct (String.eqb data "menu_thongke") eqn:E5;
      [apply String.eqb_eq in E5; subst data; cbn; auto 10|].
    destruct (String.eqb data "menu_settings") eqn:E6;
      [apply String.eqb_eq in E6; subst data; cbn; auto 10|].
    destruct (String.eqb data "menu_help") eqn:E7;
      [apply String.eqb_eq in E7; subst data; cbn; auto 10|].
    exfalso. apply H. unfold menu_callback. cbv [bindR emitR].
    rewrite E1, E2, E3, E4, E5, E6, E7. reflexivity.
Qed.
